(** * GATK germline pipeline (toil_scripts/gatk_germline/germline.py)

    A shallow embedding of the Toil job functions of [germline.py] and of the
    part of the Toil runtime they rely on (job store, per-job temporary
    directory, children / follow-on edges and promises), followed by the
    properties of the pipeline that the specification states.

    Conventions
    - Python [str] is [string]; a [dict] keyed by file name is a
      [gmap string _]; the files present in a working directory are a
      [gset string].
    - A job function is a computation in the monad [M]: it threads the state
      of the running job ([JobState]) and either returns or raises ([Res]).
    - Everything outside the repository (docker, curl, s3, the local file
      system that holds the manifest) is an oracle collected in [Env]. *)

From Stdlib Require Import String Ascii DecimalString.
From stdpp Require Import base strings list gmap.

Open Scope string_scope.
Open Scope list_scope.

(** ** Python string operations used by the pipeline *)

Module Py.

Definition TAB : ascii := "009"%char.
Definition LF : ascii := "010"%char.

Definition chars (s : string) : list ascii := list_ascii_of_string s.

(** [s.startswith(p)] and [s.endswith(p)] *)
Definition startswith (s p : string) : bool :=
  bool_decide (chars p `prefix_of` chars s).
Definition endswith (s p : string) : bool :=
  bool_decide (chars p `suffix_of` chars s).

(** The characters of [string.whitespace] for a byte string. *)
Definition is_space (c : ascii) : bool :=
  match nat_of_ascii c with
  | 9 | 10 | 11 | 12 | 13 | 32 => true
  | _ => false
  end.

Fixpoint all_space (s : string) : bool :=
  match s with
  | EmptyString => true
  | String c s' => is_space c && all_space s'
  end.

(** [s.isspace()]: only whitespace and at least one character. *)
Definition isspace (s : string) : bool :=
  match s with
  | EmptyString => false
  | _ => all_space s
  end.

Fixpoint lstrip (s : string) : string :=
  match s with
  | EmptyString => EmptyString
  | String c s' => if is_space c then lstrip s' else s
  end.

Definition rstrip (s : string) : string := String.rev (lstrip (String.rev s)).

(** [s.strip()] *)
Definition strip (s : string) : string := rstrip (lstrip s).

(** [s.split(sep)] for a one-character separator: never an empty list. *)
Fixpoint split (sep : ascii) (s : string) : list string :=
  match s with
  | EmptyString => [EmptyString]
  | String c s' =>
      if Ascii.eqb c sep then EmptyString :: split sep s'
      else match split sep s' with
           | w :: ws => String c w :: ws
           | [] => [String c EmptyString]
           end
  end.

(** [f.readlines()]: the lines of a text, each with its newline kept. *)
Fixpoint readlines (s : string) : list string :=
  match s with
  | EmptyString => []
  | String c s' =>
      if Ascii.eqb c LF then String c EmptyString :: readlines s'
      else match readlines s' with
           | l :: ls => String c l :: ls
           | [] => [String c EmptyString]
           end
  end.

(** [os.path.join(a, b)] of posixpath. *)
Definition os_path_join (a b : string) : string :=
  if startswith b "/" then b
  else if bool_decide (a = "") || endswith a "/" then a +:+ b
  else a +:+ "/" +:+ b.

(** [str(n)] for a non-negative integer. *)
Definition str (n : nat) : string := NilZero.string_of_uint (Nat.to_uint n).

(** [sep.join(l)] *)
Definition join (sep : string) (l : list string) : string := String.concat sep l.

End Py.

(** ** Data model *)

(** The [argparse.Namespace] that the pipeline calls [input_args]: the keys
    of the YAML configuration, [manifest], [cpu_count] and [memory] set by
    the entry point, and the attributes that [batch_start] and [start]
    assign later.  For the latter, [None] stands for an attribute that holds
    Python's [None] or was not assigned yet. *)
Module Ns.
Record t := mk {
  ref : string;
  phase : string;
  mills : string;
  dbsnp : string;
  hapmap : string;
  omni : string;
  file_size : string;
  indexed : bool;
  ssec : option string;
  manifest : string;
  cpu_count : nat;
  memory : string;
  sample : option (list string);
  output_dir : option string;
  suffix : string;
  uuid : option string;
  bam_url : option string }.

Definition set_sample (v : option (list string)) (a : t) : t :=
  mk (ref a) (phase a) (mills a) (dbsnp a) (hapmap a) (omni a) (file_size a)
     (indexed a) (ssec a) (manifest a) (cpu_count a) (memory a)
     v (output_dir a) (suffix a) (uuid a) (bam_url a).
Definition set_output_dir (v : option string) (a : t) : t :=
  mk (ref a) (phase a) (mills a) (dbsnp a) (hapmap a) (omni a) (file_size a)
     (indexed a) (ssec a) (manifest a) (cpu_count a) (memory a)
     (sample a) v (suffix a) (uuid a) (bam_url a).
Definition set_suffix (v : string) (a : t) : t :=
  mk (ref a) (phase a) (mills a) (dbsnp a) (hapmap a) (omni a) (file_size a)
     (indexed a) (ssec a) (manifest a) (cpu_count a) (memory a)
     (sample a) (output_dir a) v (uuid a) (bam_url a).
Definition set_uuid (v : option string) (a : t) : t :=
  mk (ref a) (phase a) (mills a) (dbsnp a) (hapmap a) (omni a) (file_size a)
     (indexed a) (ssec a) (manifest a) (cpu_count a) (memory a)
     (sample a) (output_dir a) (suffix a) v (bam_url a).
Definition set_bam_url (v : option string) (a : t) : t :=
  mk (ref a) (phase a) (mills a) (dbsnp a) (hapmap a) (omni a) (file_size a)
     (indexed a) (ssec a) (manifest a) (cpu_count a) (memory a)
     (sample a) (output_dir a) (suffix a) (uuid a) v.
End Ns.

(** A value held by the dictionary of shared file ids: the id of a file in
    the job store, the promise of the return value of the [child]-th child of
    the job that built the dictionary, or Python's [None]. *)
Inductive Value :=
| FileStoreID (h : nat)
| Promise (child : nat)
| PyNone.

#[global] Instance Value_eq_dec : EqDecision Value.
Proof. solve_decision. Defined.

(** A job function together with the arguments it was wrapped with. *)
Inductive JobFn :=
| J_download_url (url filename : string)
| J_batch_start (input_args : Ns.t) (sample : option (list string))
    (output_dir : option string) (suffix : string)
| J_create_reference_index_hc (shared_ids : gmap string Value) (input_args : Ns.t)
| J_create_reference_dict_hc (shared_ids : gmap string Value) (input_args : Ns.t)
| J_spawn_batch_variant_calling (shared_ids : gmap string Value) (input_args : Ns.t)
| J_start (shared_ids : gmap string Value) (input_args : Ns.t) (sample : list string)
| J_index (shared_ids : gmap string Value) (input_args : Ns.t)
| J_haplotype_caller (shared_ids : gmap string Value) (input_args : Ns.t)
| J_genotype_gvcf (shared_ids : gmap string Value) (input_args : Ns.t)
| J_vqsr_snp (shared_ids : gmap string Value) (input_args : Ns.t)
| J_apply_vqsr_snp (shared_ids : gmap string Value) (input_args : Ns.t)
| J_vqsr_indel (shared_ids : gmap string Value) (input_args : Ns.t)
| J_apply_vqsr_indel (shared_ids : gmap string Value) (input_args : Ns.t).

(** A node of the job graph: the wrapped function and its [cores] hint. *)
Record Job := mkJob { fn : JobFn; cores : option nat }.

Inductive Exn :=
| KeyError (key : string)
| ValueError
| AttributeError
| RuntimeError (url : string)
| S3DownloadError (url : string)
| CalledProcessError (tool : string) (parameters : list string)
| IOError (path : string)
| AssertionError
| NoSuchFileError (v : Value)
| NoSuchJobStoreFile (name : string)
| OutOfFuel.

(** What a run does to the outside world, in the order it does it. *)
Inductive Event :=
| EvCurl (url filename : string)
| EvS3Download (url filename : string)
| EvReadGlobalFile (h : nat) (filename : string)
| EvWriteGlobalFile (filename : string) (h : nat)
| EvDockerCall (tool : string) (parameters : list string)
| EvStderr (msg : string)
| EvS3amUpload (filename s3_dir : string) (s3_key_path : option string)
| EvMakeDirectory (path : string)
| EvMove (filename output_dir : string)
| EvSetItem (key : string) (old : option Value) (new : Value).

(** The state a running job sees: its private temporary directory (path and
    names of the files in it), the successors it has registered so far, and
    the two things that outlive it, the job store (file id [h] is the [h]-th
    file written) and the trace of events. *)
Record JobState := mkState {
  work_dir : string;
  files : gset string;
  children : list Job;
  followOns : list Job;
  jobStore : list string;
  trace : list Event }.

Definition set_files (f : gset string) (st : JobState) : JobState :=
  mkState (work_dir st) f (children st) (followOns st) (jobStore st) (trace st).
Definition set_children (c : list Job) (st : JobState) : JobState :=
  mkState (work_dir st) (files st) c (followOns st) (jobStore st) (trace st).
Definition set_followOns (c : list Job) (st : JobState) : JobState :=
  mkState (work_dir st) (files st) (children st) c (jobStore st) (trace st).
Definition set_jobStore (s : list string) (st : JobState) : JobState :=
  mkState (work_dir st) (files st) (children st) (followOns st) s (trace st).
Definition set_trace (t : list Event) (st : JobState) : JobState :=
  mkState (work_dir st) (files st) (children st) (followOns st) (jobStore st) t.

(** The collaborators outside the repository. *)
Record Env := mkEnv {
  (** does the tool, run with these parameters on these files, exit with 0? *)
  docker_ok : string -> list string -> gset string -> bool;
  (** does [curl] retrieve the url? *)
  curl_ok : string -> bool;
  (** does [download_from_s3_url] retrieve the url? *)
  s3_ok : string -> bool;
  (** the content of a file of the local file system, if it exists *)
  local_file : string -> option string;
  (** the content of a file the job store holds under a name, if any *)
  imported_file : string -> option string;
  (** the directory [getLocalTempDir] hands to a job *)
  temp_dir : string }.

(** ** The monad of job functions *)

Inductive Res (A : Type) :=
| Ok (a : A)
| Raise (e : Exn).
Arguments Ok {A} a.
Arguments Raise {A} e.

Definition M (A : Type) : Type := JobState -> Res A * JobState.

Definition ret {A} (a : A) : M A := fun st => (Ok a, st).

Definition bind {A B} (m : M A) (f : A -> M B) : M B :=
  fun st =>
    match m st with
    | (Ok a, st') => f a st'
    | (Raise e, st') => (Raise e, st')
    end.

Definition raise {A} (e : Exn) : M A := fun st => (Raise e, st).

(** [try: m except: h; raise] *)
Definition try_except_reraise {A} (m : M A) (h : M unit) : M A :=
  fun st =>
    match m st with
    | (Ok a, st') => (Ok a, st')
    | (Raise e, st') =>
        match h st' with
        | (Ok _, st'') => (Raise e, st'')
        | (Raise e', st'') => (Raise e', st'')
        end
    end.

#[global] Instance M_ret : MRet M := @ret.
#[global] Instance M_bind : MBind M := fun A B f m => bind m f.

(** [for x in l: body x] *)
Fixpoint for_each {A} (l : list A) (body : A -> M unit) : M unit :=
  match l with
  | [] => ret tt
  | x :: l' => bind (body x) (fun _ => for_each l' body)
  end.

Definition emit (e : Event) : M unit :=
  fun st => (Ok tt, set_trace (trace st ++ [e]) st).

(** [for x in l: acc = body x acc], for loops that update a local variable. *)
Fixpoint for_fold {A S} (l : list A) (acc : S) (body : A -> S -> M S) : M S :=
  match l with
  | [] => ret acc
  | x :: l' => bind (body x acc) (fun acc' => for_fold l' acc' body)
  end.

(** ** The Toil runtime as a job function sees it

    A path [os.path.join(work_dir, filename)] inside the temporary directory
    of the running job is represented by the pair of [work_dir] and
    [filename]; [files] records the names present there. *)

(** [job.fileStore.getLocalTempDir()] *)
Definition getLocalTempDir : M string := fun st => (Ok (work_dir st), st).

(** [os.path.exists(os.path.join(work_dir, filename))] *)
Definition os_path_exists (work_dir filename : string) : M bool :=
  fun st => (Ok (bool_decide (filename ∈ files st)), st).

(** [job.fileStore.readGlobalFile(v, os.path.join(work_dir, filename))]:
    copies the stored file to the path; a value that is not the id of a file
    in the store is an error. *)
Definition readGlobalFile (v : Value) (work_dir filename : string) : M string :=
  fun st =>
    match v with
    | FileStoreID h =>
        if bool_decide (h < length (jobStore st)) then
          (Ok (Py.os_path_join work_dir filename),
           set_trace (trace st ++ [EvReadGlobalFile h filename])
             (set_files ({[filename]} ∪ files st) st))
        else (Raise (NoSuchFileError v), st)
    | _ => (Raise (NoSuchFileError v), st)
    end.

(** [job.fileStore.writeGlobalFile(os.path.join(work_dir, filename))]:
    stores a copy of the file and returns its fresh id. *)
Definition writeGlobalFile (work_dir filename : string) : M Value :=
  fun st =>
    if bool_decide (filename ∈ files st) then
      (Ok (FileStoreID (length (jobStore st))),
       set_trace (trace st ++ [EvWriteGlobalFile filename (length (jobStore st))])
         (set_jobStore (jobStore st ++ [filename]) st))
    else (Raise (IOError filename), st).

(** [job.addChildJobFn(f, *args, cores=c).rv()]: registers the child and
    returns the promise of its return value. *)
Definition addChildJobFn (f : JobFn) (c : option nat) : M Value :=
  fun st => (Ok (Promise (length (children st))),
             set_children (children st ++ [mkJob f c]) st).

(** [job.addFollowOnJobFn(f, *args, cores=c)] *)
Definition addFollowOnJobFn (f : JobFn) (c : option nat) : M unit :=
  fun st => (Ok tt, set_followOns (followOns st ++ [mkJob f c]) st).

(** [ids[key]] *)
Definition getitem (ids : gmap string Value) (key : string) : M Value :=
  fun st =>
    match ids !! key with
    | Some v => (Ok v, st)
    | None => (Raise (KeyError key), st)
    end.

(** [ids[key] = v]; the trace keeps what the key was bound to before. *)
Definition setitem (ids : gmap string Value) (key : string) (v : Value)
  : M (gmap string Value) :=
  fun st => (Ok (<[key := v]> ids),
             set_trace (trace st ++ [EvSetItem key (ids !! key) v]) st).

(** [sys.stderr.write(msg)] *)
Definition stderr_write (msg : string) : M unit := emit (EvStderr msg).

(** [shutil.move(os.path.join(work_dir, filename),
                 os.path.join(output_dir, filename))] *)
Definition shutil_move (work_dir output_dir filename : string) : M unit :=
  fun st =>
    if bool_decide (filename ∈ files st) then
      (Ok tt, set_trace (trace st ++ [EvMove filename output_dir])
                (set_files (files st ∖ {[filename]}) st))
    else (Raise (IOError filename), st).

(** [s3am_upload(fpath=os.path.join(work_dir, filename), s3_dir=.., s3_key_path=..)] *)
Definition s3am_upload (work_dir filename s3_dir : string) (s3_key_path : option string)
  : M unit :=
  fun st =>
    if bool_decide (filename ∈ files st) then
      (Ok tt, set_trace (trace st ++ [EvS3amUpload filename s3_dir s3_key_path]) st)
    else (Raise (IOError filename), st).

(** An [OrderedDict] of paths by file name: [paths[filename] = file_path]. *)
Fixpoint odict_set (paths : list (string * string)) (k v : string)
  : list (string * string) :=
  match paths with
  | [] => [(k, v)]
  | (k', v') :: ps => if bool_decide (k' = k) then (k', v) :: ps
                      else (k', v') :: odict_set ps k v
  end.

(** ** The job functions of germline.py *)

Section Pipeline.

Variable ext : Env.

(** [docker_call(work_dir=.., env=.., parameters=.., tool=.., inputs=..,
    outputs=..)]: on success the declared outputs are in the working
    directory, a failure raises. *)
Definition docker_call (work_dir : string) (env : list (string * string))
    (parameters : list string) (tool : string) (inputs outputs : list string)
  : M unit :=
  fun st =>
    let st1 := set_trace (trace st ++ [EvDockerCall tool parameters]) st in
    if docker_ok ext tool parameters (files st) then
      (Ok tt, set_files (list_to_set outputs ∪ files st) st1)
    else (Raise (CalledProcessError tool parameters), st1).

(** [download_from_s3_url(os.path.join(work_dir, filename), url)] *)
Definition download_from_s3_url (work_dir filename url : string) : M unit :=
  fun st =>
    let st1 := set_trace (trace st ++ [EvS3Download url filename]) st in
    if s3_ok ext url then (Ok tt, set_files ({[filename]} ∪ files st) st1)
    else (Raise (S3DownloadError url), st1).

(** The [curl -fs --retry 5 --create-dir url -o file_path] call of
    [download_url] with its two [except] clauses. *)
Definition curl (url work_dir filename : string) : M unit :=
  fun st =>
    let st1 := set_trace (trace st ++ [EvCurl url filename]) st in
    if curl_ok ext url then (Ok tt, set_files ({[filename]} ∪ files st) st1)
    else (Raise (RuntimeError url), st1).

Definition make_directory (path : string) : M unit := emit (EvMakeDirectory path).

Definition download_url (url filename : string) : M Value :=
  work_dir ← getLocalTempDir;
  present ← os_path_exists work_dir filename;
  (if negb (present : bool) then
     if Py.startswith url "s3:" then download_from_s3_url work_dir filename url
     else curl url work_dir filename
   else ret tt);;
  present ← os_path_exists work_dir filename;
  (if (present : bool) then ret tt else raise AssertionError);;
  writeGlobalFile work_dir filename.

Definition return_input_paths (work_dir : string) (ids : gmap string Value)
    (filenames : list string) : M (list string) :=
  paths ← for_fold filenames [] (fun filename paths =>
    present ← os_path_exists work_dir filename;
    file_path ← (if negb (present : bool) then
                   v ← getitem ids filename;
                   readGlobalFile v work_dir filename
                 else ret (Py.os_path_join work_dir filename));
    ret (odict_set paths filename file_path));
  ret (paths.*2).

Definition write_to_filestore (work_dir : string) (ids : gmap string Value)
    (filenames : list string) : M (gmap string Value) :=
  for_fold filenames ids (fun filename ids =>
    v ← writeGlobalFile work_dir filename;
    setitem ids filename v).

Definition read_from_filestore_hc (work_dir : string) (ids : gmap string Value)
    (filenames : list string) : M unit :=
  for_each filenames (fun filename =>
    present ← os_path_exists work_dir filename;
    if negb (present : bool) then
      v ← getitem ids filename;
      _ ← readGlobalFile v work_dir filename;
      ret tt
    else ret tt).

Definition move_to_output_dir (work_dir output_dir : string)
    (filenames : list string) : M unit :=
  for_each filenames (fun filename => shutil_move work_dir output_dir filename).

Definition upload_or_move_hc (work_dir output_dir output : string)
    (ssec : option string) : M unit :=
  if Py.startswith output_dir "s3://" then
    s3am_upload work_dir output output_dir ssec
  else
    make_directory output_dir;;
    move_to_output_dir work_dir output_dir [output].


(** The job functions below return the [input_args] object as they leave
    it (Python returns [None]); [exec] gives the job its return value. *)

Definition GATK : string :=
  "quay.io/ucsc_cgl/gatk:3.5--dba6dae49156168a909c43330350c6161dc7ecc2".
Definition SAMTOOLS : string := "quay.io/ucsc_cgl/samtools".
Definition PICARDTOOLS : string := "quay.io/ucsc_cgl/picardtools".

Definition java_opts (input_args : Ns.t) : list (string * string) :=
  [("JAVA_OPTS", "-Xmx" +:+ Ns.memory input_args +:+ "g")].

Definition batch_start (input_args : Ns.t) (sample : option (list string))
    (output_dir : option string) (suffix : string) : M Ns.t :=
  let input_args := Ns.set_sample sample input_args in
  let input_args := Ns.set_output_dir output_dir input_args in
  let input_args := Ns.set_suffix suffix input_args in
  let shared_file_names :=
    ["phase.vcf"; "omni.vcf"; "dbsnp.vcf"; "hapmap.vcf"; "mills.vcf"] in
  let shared_files :=
    [Ns.phase input_args; Ns.omni input_args; Ns.dbsnp input_args;
     Ns.hapmap input_args; Ns.mills input_args] in
  let shared_ids : gmap string Value := ∅ in
  p ← addChildJobFn (J_download_url (Ns.ref input_args) "ref.fa") None;
  shared_ids ← setitem shared_ids "ref.fa" p;
  shared_ids ← for_fold (zip shared_file_names shared_files) shared_ids
    (fun '(file_name, url) shared_ids =>
       p ← addChildJobFn (J_download_url url file_name) None;
       setitem shared_ids file_name p);
  addFollowOnJobFn (J_create_reference_index_hc shared_ids input_args) None;;
  ret input_args.

Definition create_reference_index_hc (shared_ids : gmap string Value)
    (input_args : Ns.t) : M Ns.t :=
  work_dir ← getLocalTempDir;
  ref_path ← return_input_paths work_dir shared_ids ["ref.fa"];
  let faidx_output := "ref.fa.fai" in
  let faidx_command := ["faidx"; "ref.fa"] in
  let inputs := ref_path in
  let outputs := [faidx_output] in
  docker_call work_dir [] faidx_command SAMTOOLS inputs outputs;;
  v ← writeGlobalFile work_dir faidx_output;
  shared_ids ← setitem shared_ids "ref.fa.fai" v;
  addChildJobFn (J_create_reference_dict_hc shared_ids input_args) None;;
  ret input_args.

Definition create_reference_dict_hc (shared_ids : gmap string Value)
    (input_args : Ns.t) : M Ns.t :=
  work_dir ← getLocalTempDir;
  ref_path ← return_input_paths work_dir shared_ids ["ref.fa"];
  let picard_output := "ref.dict" in
  let command := ["CreateSequenceDictionary"; "R=ref.fa"; "O=ref.dict"] in
  let inputs := ["ref.fa"] in
  let outputs := [picard_output] in
  docker_call work_dir (java_opts input_args) command PICARDTOOLS inputs outputs;;
  v ← writeGlobalFile work_dir picard_output;
  shared_ids ← setitem shared_ids "ref.dict" v;
  addChildJobFn (J_spawn_batch_variant_calling shared_ids input_args) None;;
  ret input_args.

(** The loop over [f.readlines()] of [spawn_batch_variant_calling]. *)
Definition read_samples (content : string) : list (list string) :=
  foldl (fun samples line =>
           if negb (Py.isspace line) && negb (Py.startswith line "#")
           then (samples ++ [Py.split Py.TAB (Py.strip line)])%list
           else samples)
        [] (Py.readlines content).

(** A manifest that is not a local file is looked up in the job store under
    its name; [imported_file] gives the content the store holds for it. *)
Definition read_manifest (manifest : string) : M string :=
  match local_file ext manifest with
  | None =>
      work_dir ← getLocalTempDir;
      match imported_file ext manifest with
      | Some content => ret content
      | None => raise (NoSuchJobStoreFile manifest)
      end
  | Some content => ret content
  end.

Definition spawn_batch_variant_calling (shared_ids : gmap string Value)
    (input_args : Ns.t) : M Ns.t :=
  samples ← match Ns.sample input_args with
            | Some (x :: l) => ret [x :: l]
            | _ =>
                content ← read_manifest (Ns.manifest input_args);
                ret (read_samples content)
            end;
  for_each samples (fun sample =>
    _ ← addChildJobFn (J_start shared_ids input_args sample) None; ret tt);;
  ret input_args.

(** [uuid, url = sample] *)
Definition unpack2 (sample : list string) : M (string * string) :=
  match sample with
  | [uuid; url] => ret (uuid, url)
  | _ => raise ValueError
  end.

(** Reading an attribute that must hold a string. *)
Definition attr (v : option string) : M string :=
  match v with
  | Some s => ret s
  | None => raise AttributeError
  end.

Definition start (shared_ids : gmap string Value) (input_args : Ns.t)
    (sample : list string) : M Ns.t :=
  '(uuid, url) ← unpack2 sample;
  let ids := shared_ids in
  let input_args := Ns.set_uuid (Some uuid) input_args in
  let input_args := Ns.set_bam_url (Some url) input_args in
  d ← attr (Ns.output_dir input_args);
  let output_dir :=
    if negb (Py.startswith d "s3://") then Some (Py.os_path_join d uuid)
    else None in
  ids ← match Ns.ssec input_args with
        | None =>
            p ← addChildJobFn (J_download_url url "toil.bam") None;
            setitem ids "toil.bam" p
        | Some _ => ret ids
        end;
  (if Ns.indexed input_args then
     p ← addChildJobFn (J_download_url (url +:+ ".bai") "toil.bam.bai") None;
     ids ← setitem ids "toil.bam.bai" p;
     addFollowOnJobFn (J_haplotype_caller ids input_args)
       (Some (Ns.cpu_count input_args))
   else addFollowOnJobFn (J_index ids input_args) None);;
  ret input_args.

Definition index (shared_ids : gmap string Value) (input_args : Ns.t)
  : M Ns.t :=
  work_dir ← getLocalTempDir;
  bam_path ← return_input_paths work_dir shared_ids ["toil.bam"];
  let output_path := "toil.bam.bai" in
  let parameters := ["index"; "toil.bam"] in
  let inputs := ["toil.bam"] in
  let outputs := ["toil.bam.bai"] in
  docker_call work_dir [] parameters SAMTOOLS inputs outputs;;
  v ← writeGlobalFile work_dir output_path;
  shared_ids ← setitem shared_ids "toil.bam.bai" v;
  addChildJobFn (J_haplotype_caller shared_ids input_args)
    (Some (Ns.cpu_count input_args));;
  ret input_args.

(** ['%s.raw.BOTH%s.gvcf' % (input_args.uuid, input_args.suffix)] *)
Definition gvcf_name (uuid suffix : string) : string :=
  uuid +:+ ".raw.BOTH" +:+ suffix +:+ ".gvcf".

Definition haplotype_caller_input_files : list string :=
  ["ref.fa"; "ref.fa.fai"; "ref.dict"; "toil.bam"; "toil.bam.bai"].

Definition haplotype_caller_command (input_args : Ns.t) (output : string)
  : list string :=
  ["-U"; "ALLOW_SEQ_DICT_INCOMPATIBILITY";
   "-nct"; Py.str (Ns.cpu_count input_args);
   "-R"; "ref.fa";
   "-T"; "HaplotypeCaller";
   "--genotyping_mode"; "Discovery";
   "--emitRefConfidence"; "GVCF";
   "-I"; "toil.bam";
   "-o"; output;
   "-variant_index_type"; "LINEAR";
   "-variant_index_parameter"; "128000";
   "--annotation"; "QualByDepth";
   "--annotation"; "DepthPerSampleHC";
   "--annotation"; "FisherStrand";
   "--annotation"; "ReadPosRankSumTest"].

Definition haplotype_caller (shared_ids : gmap string Value)
    (input_args : Ns.t) : M Ns.t :=
  work_dir ← getLocalTempDir;
  let input_files := haplotype_caller_input_files in
  read_from_filestore_hc work_dir shared_ids input_files;;
  uuid ← attr (Ns.uuid input_args);
  let output := gvcf_name uuid (Ns.suffix input_args) in
  let command := haplotype_caller_command input_args output in
  try_except_reraise
    (let inputs := input_files in
     let outputs := [output] in
     docker_call work_dir (java_opts input_args) command GATK inputs outputs)
    (stderr_write ("Running haplotype caller with " +:+ Py.join " " command
                   +:+ " in " +:+ work_dir +:+ " failed."));;
  v ← writeGlobalFile work_dir output;
  shared_ids ← setitem shared_ids output v;
  d ← attr (Ns.output_dir input_args);
  upload_or_move_hc work_dir d output None;;
  addChildJobFn (J_genotype_gvcf shared_ids input_args)
    (Some (Ns.cpu_count input_args));;
  ret input_args.

Definition genotype_gvcf_input_files (uuid suffix : string) : list string :=
  [gvcf_name uuid suffix; "ref.fa"; "ref.fa.fai"; "ref.dict"].

Definition genotype_gvcf_command (input_args : Ns.t) (uuid output : string)
  : list string :=
  ["-U"; "ALLOW_SEQ_DICT_INCOMPATIBILITY";
   "-nt"; Py.str (Ns.cpu_count input_args);
   "-R"; "ref.fa";
   "-T"; "GenotypeGVCFs";
   "--variant"; uuid +:+ ".raw.BOTH.gatk.gvcf";
   "--out"; output;
   "-stand_emit_conf"; "10.0";
   "-stand_call_conf"; "30.0"].

Definition genotype_gvcf (shared_ids : gmap string Value)
    (input_args : Ns.t) : M Ns.t :=
  work_dir ← getLocalTempDir;
  uuid ← attr (Ns.uuid input_args);
  let input_files := genotype_gvcf_input_files uuid (Ns.suffix input_args) in
  read_from_filestore_hc work_dir shared_ids input_files;;
  let output := "unified.raw.BOTH.gatk.vcf" in
  let command := genotype_gvcf_command input_args uuid output in
  try_except_reraise
    (let inputs := input_files in
     let outputs := [output] in
     docker_call work_dir (java_opts input_args) command GATK inputs outputs)
    (stderr_write ("Running GenotypeGVCFs with " +:+ Py.join " " command
                   +:+ " in " +:+ work_dir +:+ " failed."));;
  v ← writeGlobalFile work_dir output;
  shared_ids ← setitem shared_ids output v;
  addChildJobFn (J_vqsr_snp shared_ids input_args)
    (Some (Ns.cpu_count input_args));;
  addChildJobFn (J_vqsr_indel shared_ids input_args)
    (Some (Ns.cpu_count input_args));;
  ret input_args.

Definition vqsr_snp_input_files : list string :=
  ["ref.fa"; "ref.fa.fai"; "ref.dict"; "unified.raw.BOTH.gatk.vcf";
   "hapmap.vcf"; "omni.vcf"; "dbsnp.vcf"; "phase.vcf"].

Definition vqsr_snp_command (input_args : Ns.t) : list string :=
  ["-U"; "ALLOW_SEQ_DICT_INCOMPATIBILITY";
   "-T"; "VariantRecalibrator";
   "-R"; "ref.fa";
   "-input"; "unified.raw.BOTH.gatk.vcf";
   "-nt"; Py.str (Ns.cpu_count input_args);
   "-resource:hapmap,known=false,training=true,truth=true,prior=15.0"; "hapmap.vcf";
   "-resource:omni,known=false,training=true,truth=false,prior=12.0"; "omni.vcf";
   "-resource:dbsnp,known=true,training=false,truth=false,prior=2.0"; "dbsnp.vcf";
   "-resource:1000G,known=false,training=true,truth=false,prior=10.0"; "phase.vcf";
   "-an"; "QD"; "-an"; "DP"; "-an"; "FS"; "-an"; "ReadPosRankSum";
   "-mode"; "SNP"; "-minNumBad"; "1000";
   "-recalFile"; "HAPSNP.recal";
   "-tranchesFile"; "HAPSNP.tranches";
   "-rscriptFile"; "HAPSNP.plots"].

Definition vqsr_snp (shared_ids : gmap string Value) (input_args : Ns.t)
  : M Ns.t :=
  work_dir ← getLocalTempDir;
  let input_files := vqsr_snp_input_files in
  read_from_filestore_hc work_dir shared_ids input_files;;
  let outputs := ["HAPSNP.recal"; "HAPSNP.tranches"; "HAPSNP.plots"] in
  let command := vqsr_snp_command input_args in
  let inputs :=
    (input_files ++ ["hapmap.vcf"; "omni.vcf"; "dbsnp.vcf"; "phase.vcf"])%list in
  let outputD := ["HAPSNP.recal"; "HAPSNP.tranches"; "HAPSNP.plots"] in
  docker_call work_dir (java_opts input_args) command GATK inputs outputD;;
  shared_ids ← write_to_filestore work_dir shared_ids outputs;
  addChildJobFn (J_apply_vqsr_snp shared_ids input_args) None;;
  ret input_args.

(** ['{}.HAPSNP.vqsr.SNP{}.vcf'.format(uuid, suffix)] *)
Definition snp_vcf_name (uuid suffix : string) : string :=
  uuid +:+ ".HAPSNP.vqsr.SNP" +:+ suffix +:+ ".vcf".

Definition apply_vqsr_snp_input_files : list string :=
  ["ref.fa"; "ref.fa.fai"; "ref.dict"; "unified.raw.BOTH.gatk.vcf";
   "HAPSNP.tranches"; "HAPSNP.recal"].

Definition apply_vqsr_snp_command (output : string) : list string :=
  ["-U"; "ALLOW_SEQ_DICT_INCOMPATIBILITY";
   "-T"; "ApplyRecalibration";
   "-input"; "unified.raw.BOTH.gatk.vcf";
   "-o"; output;
   "-R"; "ref.fa";
   "-nt"; "1";
   "-ts_filter_level"; "99.0";
   "-tranchesFile"; "HAPSNP.tranches";
   "-recalFile"; "HAPSNP.recal";
   "-mode"; "SNP"].

Definition apply_vqsr_snp (shared_ids : gmap string Value)
    (input_args : Ns.t) : M Ns.t :=
  work_dir ← getLocalTempDir;
  uuid ← attr (Ns.uuid input_args);
  let suffix := Ns.suffix input_args in
  let input_files := apply_vqsr_snp_input_files in
  read_from_filestore_hc work_dir shared_ids input_files;;
  let output := snp_vcf_name uuid suffix in
  let command := apply_vqsr_snp_command output in
  let inputs := input_files in
  let outputs := [output] in
  docker_call work_dir (java_opts input_args) command GATK inputs outputs;;
  d ← attr (Ns.output_dir input_args);
  upload_or_move_hc work_dir d output None;;
  ret input_args.

Definition vqsr_indel_input_files : list string :=
  ["ref.fa"; "ref.fa.fai"; "ref.dict"; "unified.raw.BOTH.gatk.vcf"; "mills.vcf"].

Definition vqsr_indel_command (input_args : Ns.t) : list string :=
  ["-U"; "ALLOW_SEQ_DICT_INCOMPATIBILITY";
   "-T"; "VariantRecalibrator";
   "-R"; "ref.fa";
   "-input"; "unified.raw.BOTH.gatk.vcf";
   "-nt"; Py.str (Ns.cpu_count input_args);
   "-resource:mills,known=true,training=true,truth=true,prior=12.0"; "mills.vcf";
   "-an"; "DP"; "-an"; "FS"; "-an"; "ReadPosRankSum";
   "-mode"; "INDEL";
   "-minNumBad"; "1000";
   "-recalFile"; "HAPINDEL.recal";
   "-tranchesFile"; "HAPINDEL.tranches";
   "-rscriptFile"; "HAPINDEL.plots";
   "--maxGaussians"; "4"].

Definition vqsr_indel (shared_ids : gmap string Value) (input_args : Ns.t)
  : M Ns.t :=
  work_dir ← getLocalTempDir;
  let input_files := vqsr_indel_input_files in
  read_from_filestore_hc work_dir shared_ids input_files;;
  let outputs := ["HAPINDEL.recal"; "HAPINDEL.tranches"; "HAPINDEL.plots"] in
  let command := vqsr_indel_command input_args in
  let inputs := input_files in
  let outputD := ["HAPINDEL.recal"; "HAPINDEL.tranches"; "HAPINDEL.plots"] in
  docker_call work_dir (java_opts input_args) command GATK inputs outputD;;
  shared_ids ← write_to_filestore work_dir shared_ids outputs;
  addChildJobFn (J_apply_vqsr_indel shared_ids input_args) None;;
  ret input_args.

(** ['{}.HAPSNP.vqsr.INDEL{}.vcf'.format(uuid, suffix)] *)
Definition indel_vcf_name (uuid suffix : string) : string :=
  uuid +:+ ".HAPSNP.vqsr.INDEL" +:+ suffix +:+ ".vcf".

Definition apply_vqsr_indel_input_files : list string :=
  ["ref.fa"; "ref.fa.fai"; "ref.dict"; "unified.raw.BOTH.gatk.vcf";
   "HAPINDEL.recal"; "HAPINDEL.tranches"; "HAPINDEL.plots"].

Definition apply_vqsr_indel_command (output : string) : list string :=
  ["-U"; "ALLOW_SEQ_DICT_INCOMPATIBILITY";
   "-T"; "ApplyRecalibration";
   "-input"; "unified.raw.BOTH.gatk.vcf";
   "-o"; output;
   "-R"; "ref.fa";
   "-nt"; "1";
   "-ts_filter_level"; "99.0";
   "-tranchesFile"; "HAPINDEL.tranches";
   "-recalFile"; "HAPINDEL.recal";
   "-mode"; "INDEL"].

Definition apply_vqsr_indel (shared_ids : gmap string Value)
    (input_args : Ns.t) : M Ns.t :=
  work_dir ← getLocalTempDir;
  uuid ← attr (Ns.uuid input_args);
  let suffix := Ns.suffix input_args in
  let input_files := apply_vqsr_indel_input_files in
  read_from_filestore_hc work_dir shared_ids input_files;;
  let output := indel_vcf_name uuid suffix in
  let command := apply_vqsr_indel_command output in
  let inputs := input_files in
  let outputs := [output] in
  docker_call work_dir (java_opts input_args) command GATK inputs outputs;;
  d ← attr (Ns.output_dir input_args);
  upload_or_move_hc work_dir d output None;;
  ret input_args.

(** ** Running the job graph *)

(** The function a job wraps, applied to its arguments: a stage of the
    pipeline, which leaves an [input_args], or [download_url], which returns
    a file id. *)
Definition job_fn (f : JobFn) : M Ns.t + M Value :=
  match f with
  | J_download_url url filename => inr (download_url url filename)
  | J_batch_start a s o x => inl (batch_start a s o x)
  | J_create_reference_index_hc ids a => inl (create_reference_index_hc ids a)
  | J_create_reference_dict_hc ids a => inl (create_reference_dict_hc ids a)
  | J_spawn_batch_variant_calling ids a => inl (spawn_batch_variant_calling ids a)
  | J_start ids a s => inl (start ids a s)
  | J_index ids a => inl (index ids a)
  | J_haplotype_caller ids a => inl (haplotype_caller ids a)
  | J_genotype_gvcf ids a => inl (genotype_gvcf ids a)
  | J_vqsr_snp ids a => inl (vqsr_snp ids a)
  | J_apply_vqsr_snp ids a => inl (apply_vqsr_snp ids a)
  | J_vqsr_indel ids a => inl (vqsr_indel ids a)
  | J_apply_vqsr_indel ids a => inl (apply_vqsr_indel ids a)
  end.

(** Running a job: its return value is what a promise on the job resolves
    to; the stages return [None]. *)
Definition exec (j : Job) : M Value :=
  match job_fn (fn j) with
  | inl stage => _ ← stage; ret PyNone
  | inr download => download
  end.

End Pipeline.

(** What is left of a job when it is over: the job store and the trace. *)
Record Workflow := mkWorkflow {
  wf_store : list string;
  wf_trace : list Event }.

(** A promise is replaced by the return value of the child it names. *)
Definition resolve (rvs : list Value) (v : Value) : Value :=
  match v with
  | Promise k => match rvs !! k with Some r => r | None => v end
  | _ => v
  end.

Definition resolve_fn (rvs : list Value) (f : JobFn) : JobFn :=
  match f with
  | J_download_url _ _ => f
  | J_batch_start _ _ _ _ => f
  | J_create_reference_index_hc ids a => J_create_reference_index_hc (resolve rvs <$> ids) a
  | J_create_reference_dict_hc ids a => J_create_reference_dict_hc (resolve rvs <$> ids) a
  | J_spawn_batch_variant_calling ids a => J_spawn_batch_variant_calling (resolve rvs <$> ids) a
  | J_start ids a s => J_start (resolve rvs <$> ids) a s
  | J_index ids a => J_index (resolve rvs <$> ids) a
  | J_haplotype_caller ids a => J_haplotype_caller (resolve rvs <$> ids) a
  | J_genotype_gvcf ids a => J_genotype_gvcf (resolve rvs <$> ids) a
  | J_vqsr_snp ids a => J_vqsr_snp (resolve rvs <$> ids) a
  | J_apply_vqsr_snp ids a => J_apply_vqsr_snp (resolve rvs <$> ids) a
  | J_vqsr_indel ids a => J_vqsr_indel (resolve rvs <$> ids) a
  | J_apply_vqsr_indel ids a => J_apply_vqsr_indel (resolve rvs <$> ids) a
  end.

Definition resolve_job (rvs : list Value) (j : Job) : Job :=
  mkJob (resolve_fn rvs (fn j)) (cores j).

(** Jobs run one after the other; the first failure ends the run. *)
Fixpoint run_all (run : Job -> Workflow -> Res Value * Workflow)
    (js : list Job) (w : Workflow) : Res (list Value) * Workflow :=
  match js with
  | [] => (Ok [], w)
  | j :: js' =>
      match run j w with
      | (Ok v, w1) =>
          match run_all run js' w1 with
          | (Ok vs, w2) => (Ok (v :: vs), w2)
          | (Raise e, w2) => (Raise e, w2)
          end
      | (Raise e, w1) => (Raise e, w1)
      end
  end.

Section Engine.

Variable ext : Env.

(** A job starts in an empty temporary directory with no successors. *)
Definition enter (w : Workflow) : JobState :=
  mkState (temp_dir ext) ∅ [] [] (wf_store w) (wf_trace w).

Definition leave (st : JobState) : Workflow :=
  mkWorkflow (jobStore st) (trace st).

(** The schedule: a job, then its children and all that follows from them
    in the order they were added, then its follow-ons with the promises on
    the children resolved.  [fuel] bounds the depth of the graph. *)
Fixpoint run_job (fuel : nat) (j : Job) (w : Workflow) : Res Value * Workflow :=
  match fuel with
  | 0 => (Raise OutOfFuel, w)
  | S fuel' =>
      match exec ext j (enter w) with
      | (Raise e, st) => (Raise e, leave st)
      | (Ok rv, st) =>
          match run_all (run_job fuel') (children st) (leave st) with
          | (Raise e, w1) => (Raise e, w1)
          | (Ok rvs, w1) =>
              match run_all (run_job fuel')
                      (resolve_job rvs <$> followOns st) w1 with
              | (Raise e, w2) => (Raise e, w2)
              | (Ok _, w2) => (Ok rv, w2)
              end
          end
      end
  end.

(** [Job.Runner.startToil(Job.wrapJobFn(batch_start, inputs, options.sample,
    options.output_dir, options.suffix), options)] on an empty job store. *)
Definition startToil (fuel : nat) (inputs : Ns.t) (sample : option (list string))
    (output_dir : option string) (suffix : string) : Res Value * Workflow :=
  run_job fuel (mkJob (J_batch_start inputs sample output_dir suffix) None)
    (mkWorkflow [] []).

End Engine.

(** ** Observations on a trace *)

(** The invocations of the Output Sink: the destination and the file. *)
Definition sink_of (e : Event) : option (string * string) :=
  match e with
  | EvS3amUpload filename s3_dir _ => Some (s3_dir, filename)
  | EvMove filename output_dir => Some (output_dir, filename)
  | _ => None
  end.

Definition sinks (t : list Event) : list (string * string) := omap sink_of t.

Definition is_fetch (e : Event) : bool :=
  match e with EvReadGlobalFile _ _ => true | _ => false end.

Definition fetches (t : list Event) : nat := length (filter is_fetch t).

(** ** A concrete setting for examples *)

Definition example_manifest : string :=
  "# header" +:+ String Py.LF (String Py.LF
    ("A" +:+ String Py.TAB ("urlA" +:+ String Py.LF
    ("B" +:+ String Py.TAB ("urlB" +:+ String Py.LF ""))))).

Definition happy_env : Env :=
  mkEnv (fun _ _ _ => true) (fun _ => true) (fun _ => true)
        (fun path =>
           if bool_decide (path = "manifest.tsv") then Some example_manifest
           else None)
        (fun _ => None)
        "/tmp/job".

Definition config0 : Ns.t :=
  Ns.mk "ref_url" "phase_url" "mills_url" "dbsnp_url" "hapmap_url" "omni_url"
        "100G" false None "manifest.tsv" 4 "15"
        None None "" None None.

(** A configuration with an encryption key and an index next to the sample. *)
Definition config_ssec : Ns.t :=
  Ns.mk "ref_url" "phase_url" "mills_url" "dbsnp_url" "hapmap_url" "omni_url"
        "100G" true (Some "key.txt") "manifest.tsv" 4 "15"
        (Some ["S1"; "u1"]) (Some "out") ".bqsr" None None.

(** As [config0], once [batch_start] has run for the sample [S1]. *)
Definition config1 : Ns.t :=
  Ns.mk "ref_url" "phase_url" "mills_url" "dbsnp_url" "hapmap_url" "omni_url"
        "100G" false None "manifest.tsv" 4 "15"
        (Some ["S1"; "u1"]) (Some "out") ".bqsr" None None.

(** The state of a job that starts on an empty job store. *)
Definition state0 : JobState := mkState "/tmp/job" ∅ [] [] [] [].

(** Environments in which one tool invocation fails: every docker call
    whose parameters contain the word does. *)
Definition failing_env (word : string) : Env :=
  mkEnv (fun _ parameters _ => negb (bool_decide (word ∈ parameters)))
        (fun _ => true) (fun _ => true) (local_file happy_env)
        (fun _ => None) "/tmp/job".

Definition stderr_of (e : Event) : option string :=
  match e with EvStderr msg => Some msg | _ => None end.

(** What was written to [sys.stderr]. *)
Definition stderr (t : list Event) : list string := omap stderr_of t.

Definition docker_calls (t : list Event) : list (string * list string) :=
  omap (fun e => match e with EvDockerCall tool p => Some (tool, p) | _ => None end) t.

(** The parameter that follows a flag on a command line of flag/value pairs. *)
Fixpoint param_of (flag : string) (command : list string) : option string :=
  match command with
  | f :: v :: rest => if bool_decide (f = flag) then Some v else param_of flag rest
  | _ => None
  end.

(** The test of the manifest loop: the line is kept. *)
Definition keep_line (line : string) : bool :=
  negb (Py.isspace line) && negb (Py.startswith line "#").


(** The [input_args] a job was wrapped with, if it takes one. *)
Definition received (f : JobFn) : option Ns.t :=
  match f with
  | J_download_url _ _ => None
  | J_batch_start a _ _ _ => Some a
  | J_create_reference_index_hc _ a | J_create_reference_dict_hc _ a
  | J_spawn_batch_variant_calling _ a | J_start _ a _ | J_index _ a
  | J_haplotype_caller _ a | J_genotype_gvcf _ a | J_vqsr_snp _ a
  | J_apply_vqsr_snp _ a | J_vqsr_indel _ a | J_apply_vqsr_indel _ a => Some a
  end.

(** The two stages that assign attributes of [input_args]. *)
Definition assigns_config (f : JobFn) : bool :=
  match f with
  | J_batch_start _ _ _ _ | J_start _ _ _ => true
  | _ => false
  end.

(** ** Weakest preconditions

    [wp m Q E st]: run from [st], [m] returns a value and a state that satisfy
    [Q], or raises an exception in a state that satisfy [E]. *)
Definition wp {A} (m : M A) (Q : A -> JobState -> Prop)
    (E : Exn -> JobState -> Prop) (st : JobState) : Prop :=
  match m st with
  | (Ok a, st') => Q a st'
  | (Raise e, st') => E e st'
  end.

(** The postcondition on exceptions of a computation that must not raise. *)
Definition no_failure : Exn -> JobState -> Prop := fun _ _ => False.

(** Events that neither place a file at the destination nor bind a key. *)
Definition is_quiet (e : Event) : bool :=
  match e with
  | EvS3amUpload _ _ _ | EvMove _ _ | EvSetItem _ _ _ => false
  | _ => true
  end.

Definition quiet (t : list Event) : Prop := Forall (fun e => is_quiet e = true) t.

(** A computation that only reads the job store, changes the files of the
    working directory and adds quiet events. *)
Definition quiet_m {A} (m : M A) : Prop :=
  forall wd fl ch fo js tr,
    exists r fl' tr',
      m (mkState wd fl ch fo js tr) = (r, mkState wd fl' ch fo js (tr ++ tr'))
      /\ quiet tr'.

(** Every external collaborator succeeds. *)
Definition all_ok (ext : Env) : Prop :=
  (forall tool parameters fl, docker_ok ext tool parameters fl = true)
  /\ (forall url, curl_ok ext url = true)
  /\ (forall url, s3_ok ext url = true).

(** The dictionary binds each of the names to a file of a job store that
    holds [n] files. *)
Definition has_files (ids : gmap string Value) (names : list string) (n : nat) : Prop :=
  forall f, f ∈ names -> exists h, ids !! f = Some (FileStoreID h) /\ h < n.

(** The output directory a job carries: the argument of [batch_start], the
    attribute of [input_args] for the stages. *)
Definition output_dir_of (f : JobFn) : option (option string) :=
  match f with
  | J_download_url _ _ => None
  | J_batch_start _ _ o _ => Some o
  | J_create_reference_index_hc _ a | J_create_reference_dict_hc _ a
  | J_spawn_batch_variant_calling _ a | J_start _ a _ | J_index _ a
  | J_haplotype_caller _ a | J_genotype_gvcf _ a | J_vqsr_snp _ a
  | J_apply_vqsr_snp _ a | J_vqsr_indel _ a | J_apply_vqsr_indel _ a =>
      Some (Ns.output_dir a)
  end.

Definition carries_output_dir (od : option string) (j : Job) : Prop :=
  forall o, output_dir_of (fn j) = Some o -> o = od.

(** The event places nothing, or places it at the directory [od]. *)
Definition sink_to (od : option string) (e : Event) : Prop :=
  forall dest file, sink_of e = Some (dest, file) -> od = Some dest.

(** The dictionary of shared file ids a job was wrapped with. *)
Definition shared_ids_of (f : JobFn) : option (gmap string Value) :=
  match f with
  | J_download_url _ _ | J_batch_start _ _ _ _ => None
  | J_create_reference_index_hc ids _ | J_create_reference_dict_hc ids _
  | J_spawn_batch_variant_calling ids _ | J_start ids _ _ | J_index ids _
  | J_haplotype_caller ids _ | J_genotype_gvcf ids _ | J_vqsr_snp ids _
  | J_apply_vqsr_snp ids _ | J_vqsr_indel ids _ | J_apply_vqsr_indel ids _ =>
      Some ids
  end.

(** The fixed names a stage may find bound in its dictionary ... *)
Definition reference_keys : list string :=
  ["ref.fa"; "phase.vcf"; "omni.vcf"; "dbsnp.vcf"; "hapmap.vcf"; "mills.vcf"].

Definition sample_keys : list string :=
  reference_keys ++ ["ref.fa.fai"; "ref.dict"; "toil.bam"; "toil.bam.bai"].

Definition known_keys (f : JobFn) : list string :=
  match f with
  | J_download_url _ _ | J_batch_start _ _ _ _ => []
  | J_create_reference_index_hc _ _ => reference_keys
  | J_create_reference_dict_hc _ _ => reference_keys ++ ["ref.fa.fai"]
  | J_spawn_batch_variant_calling _ _ | J_start _ _ _ =>
      reference_keys ++ ["ref.fa.fai"; "ref.dict"]
  | J_index _ _ => reference_keys ++ ["ref.fa.fai"; "ref.dict"; "toil.bam"]
  | J_haplotype_caller _ _ | J_genotype_gvcf _ _ => sample_keys
  | J_vqsr_snp _ _ | J_vqsr_indel _ _ =>
      sample_keys ++ ["unified.raw.BOTH.gatk.vcf"]
  | J_apply_vqsr_snp _ _ =>
      sample_keys ++ ["unified.raw.BOTH.gatk.vcf";
                      "HAPSNP.recal"; "HAPSNP.tranches"; "HAPSNP.plots"]
  | J_apply_vqsr_indel _ _ =>
      sample_keys ++ ["unified.raw.BOTH.gatk.vcf";
                      "HAPINDEL.recal"; "HAPINDEL.tranches"; "HAPINDEL.plots"]
  end.

(** ... and whether it may also find the gVCF of the sample. *)
Definition after_calling (f : JobFn) : bool :=
  match f with
  | J_genotype_gvcf _ _ | J_vqsr_snp _ _ | J_vqsr_indel _ _
  | J_apply_vqsr_snp _ _ | J_apply_vqsr_indel _ _ => true
  | _ => false
  end.

Definition key_known (f : JobFn) (k : string) : Prop :=
  k ∈ known_keys f \/ (after_calling f = true /\ Py.endswith k ".gvcf" = true).

Definition keys_known (j : Job) : Prop :=
  forall ids, shared_ids_of (fn j) = Some ids ->
    forall k, is_Some (ids !! k) -> key_known (fn j) k.

(** The event binds no key, or binds one that was not bound before. *)
Definition binds_fresh (e : Event) : Prop :=
  match e with
  | EvSetItem _ old _ => old = None
  | _ => True
  end.

(** The run of a job and of all that follows from it ends without an error;
    it has placed the files [placed], in this order, and the job store has
    only grown. *)
Definition completes (ext : Env) (fuel : nat) (j : Job) (w : Workflow)
    (placed : list (string * string)) : Prop :=
  exists rv w',
    run_job ext fuel j w = (Ok rv, w')
    /\ sinks (wf_trace w') = sinks (wf_trace w) ++ placed
    /\ length (wf_store w) <= length (wf_store w').

Definition complete_all (ext : Env) (fuel : nat) (js : list Job) (w : Workflow)
    (placed : list (string * string)) : Prop :=
  exists rvs w',
    run_all (run_job ext fuel) js w = (Ok rvs, w')
    /\ sinks (wf_trace w') = sinks (wf_trace w) ++ placed
    /\ length (wf_store w) <= length (wf_store w').

(** The names bound in the dictionary, as the stages add them. *)
Definition keys_refs : list string :=
  ["mills.vcf"; "hapmap.vcf"; "dbsnp.vcf"; "omni.vcf"; "phase.vcf"; "ref.fa"].
Definition keys_start : list string := "ref.dict" :: "ref.fa.fai" :: keys_refs.
Definition keys_hc : list string := "toil.bam.bai" :: "toil.bam" :: keys_start.
Definition keys_genotype (uuid suffix : string) : list string :=
  gvcf_name uuid suffix :: keys_hc.
Definition keys_vqsr (uuid suffix : string) : list string :=
  "unified.raw.BOTH.gatk.vcf" :: keys_genotype uuid suffix.

(** The ids of [k] files written one after the other to a job store that
    holds [n] files. *)
Fixpoint ids_from (n k : nat) : list Value :=
  match k with
  | 0 => []
  | S k' => FileStoreID n :: ids_from (S n) k'
  end.

(** The download jobs of a list of urls and file names. *)
Definition downloads (l : list (string * string)) : list Job :=
  (fun p => mkJob (J_download_url p.1 p.2) None) <$> l.

(** ** Further observations *)

(** The event agrees with the kind of the output directory [od]: an upload
    goes to [od], which is on s3, and carries no key; a move goes to [od],
    which is not on s3. *)
Definition routed (od : option string) (e : Event) : Prop :=
  match e with
  | EvS3amUpload _ dir key =>
      od = Some dir /\ Py.startswith dir "s3://" = true /\ key = None
  | EvMove _ dir => od = Some dir /\ Py.startswith dir "s3://" = false
  | _ => True
  end.

(** A file name is in the working directory already, or the dictionary binds
    it to a file of the job store. *)
Definition available (ids : gmap string Value) (st : JobState) (f : string) : Prop :=
  f ∈ files st
  \/ exists h, ids !! f = Some (FileStoreID h) /\ h < length (jobStore st).

(** The job store of a run that has prepared the reference. *)
Definition reference_store : list string :=
  ["ref.fa"; "phase.vcf"; "omni.vcf"; "dbsnp.vcf"; "hapmap.vcf"; "mills.vcf";
   "ref.fa.fai"; "ref.dict"].

(** The fetch of a file that is not in the working directory. *)
Definition fetch_events (ids : gmap string Value) (fl : gset string) (f : string)
  : list Event :=
  if bool_decide (f ∈ fl) then []
  else match ids !! f with
       | Some (FileStoreID h) => [EvReadGlobalFile h f]
       | _ => []
       end.

(** The fetches of a loop that hydrates the names one after the other. *)
Fixpoint hydrate_trace (ids : gmap string Value) (fl : gset string)
    (fs : list string) : list Event :=
  match fs with
  | [] => []
  | f :: fs' => fetch_events ids fl f ++ hydrate_trace ids ({[f]} ∪ fl) fs'
  end.

(** The dictionary after the names were written, one after the other, to a
    job store that held [n] files. *)
Fixpoint stored_ids (n : nat) (fs : list string) (ids : gmap string Value)
  : gmap string Value :=
  match fs with
  | [] => ids
  | f :: fs' => stored_ids (S n) fs' (<[f := FileStoreID n]> ids)
  end.

(** The dictionary of shared file ids once the reference is prepared. *)
Definition reference_ids : gmap string Value :=
  <["ref.dict" := FileStoreID 7]>
    (<["ref.fa.fai" := FileStoreID 6]>
       (<["mills.vcf" := FileStoreID 5]>
          (<["hapmap.vcf" := FileStoreID 4]>
             (<["dbsnp.vcf" := FileStoreID 3]>
                (<["omni.vcf" := FileStoreID 2]>
                   (<["phase.vcf" := FileStoreID 1]>
                      (<["ref.fa" := FileStoreID 0]> ∅))))))).

(** The result of a job whose only successor gave [r]: its own return value
    if the successor returned, the error of the successor otherwise. *)
Definition pass (rv : Value) (r : Res Value) : Res Value :=
  match r with
  | Ok _ => Ok rv
  | Raise e => Raise e
  end.

(** ** File ids and the job store *)

(** Every event but a fetch from the job store. *)
Definition is_calm (e : Event) : bool := negb (is_fetch e).

(** Every exception but the one [readGlobalFile] raises for a value that is
    not the id of a stored file. *)
Definition is_found (e : Exn) : bool :=
  match e with
  | NoSuchFileError _ => false
  | _ => true
  end.

(** The exceptions of the computations that look neither into the
    dictionary nor at an attribute of the configuration: not the above, not
    a [KeyError], not an [AttributeError]. *)
Definition is_good (e : Exn) : bool :=
  match e with
  | NoSuchFileError _ | KeyError _ | AttributeError => false
  | _ => true
  end.

(** A computation that fetches nothing from the job store: it leaves the
    job store and the successors alone, adds calm events only and raises good
    exceptions only. *)
Definition calm_m {A} (m : M A) : Prop :=
  forall wd fl ch fo js tr,
    exists r fl' tr',
      m (mkState wd fl ch fo js tr) = (r, mkState wd fl' ch fo js (tr ++ tr'))
      /\ Forall (fun e => is_calm e = true) tr'
      /\ match r with Raise e => is_good e = true | Ok _ => True end.

(** Every fetch of a name from the job store uses an id under which a file
    of that name was written earlier. *)
Definition reads_follow_writes (t : list Event) : Prop :=
  forall i h f,
    t !! i = Some (EvReadGlobalFile h f) ->
    exists k, k < i /\ t !! k = Some (EvWriteGlobalFile f h).

(** The value is the id of a file that the run has stored under the name. *)
Definition stored (w : Workflow) (name : string) (v : Value) : Prop :=
  exists h, v = FileStoreID h
            /\ h < length (wf_store w)
            /\ EvWriteGlobalFile name h ∈ wf_trace w.

Definition map_stored (w : Workflow) (ids : gmap string Value) : Prop :=
  forall name v, ids !! name = Some v -> stored w name v.

(** The dictionary a job was wrapped with binds names to stored files. *)
Definition ids_stored (w : Workflow) (j : Job) : Prop :=
  forall ids, shared_ids_of (fn j) = Some ids -> map_stored w ids.

(** The dictionary of a follow-on may also bind a name to the promise of a
    child that downloads a file of that name. *)
Definition ids_promised (w : Workflow) (ch : list Job) (j : Job) : Prop :=
  forall ids, shared_ids_of (fn j) = Some ids ->
    forall name v, ids !! name = Some v ->
      stored w name v
      \/ exists c url cc,
           v = Promise c /\ ch !! c = Some (mkJob (J_download_url url name) cc).

(** The return value of a download is the id of the stored file. *)
Definition rv_stored (w : Workflow) (j : Job) (rv : Value) : Prop :=
  forall url name, fn j = J_download_url url name -> stored w name rv.

(** The run has moved on from [w] to [w']. *)
Definition grows (w w' : Workflow) : Prop :=
  wf_trace w `prefix_of` wf_trace w'
  /\ length (wf_store w) <= length (wf_store w').

(** What a job leaves behind when it returned [r] in the state [st']. *)
Definition step_ok (w : Workflow) (j : Job) (r : Res Value) (st' : JobState) : Prop :=
  reads_follow_writes (trace st')
  /\ grows w (mkWorkflow (jobStore st') (trace st'))
  /\ match r with
     | Ok rv =>
         Forall (ids_stored (mkWorkflow (jobStore st') (trace st'))) (children st')
         /\ Forall (ids_promised (mkWorkflow (jobStore st') (trace st')) (children st'))
              (followOns st')
         /\ rv_stored (mkWorkflow (jobStore st') (trace st')) j rv
     | Raise e => is_found e = true
     end.

(** What the run of a job and of all that follows from it leaves behind. *)
Definition outcome_ok (w : Workflow) (j : Job) (r : Res Value * Workflow) : Prop :=
  reads_follow_writes (wf_trace r.2)
  /\ grows w r.2
  /\ match r.1 with
     | Ok rv => rv_stored r.2 j rv
     | Raise e => is_found e = true
     end.

(** ** Names the stages look up *)

(** The dictionary binds each of the names. *)
Definition binds (ids : gmap string Value) (names : list string) : Prop :=
  forall f, f ∈ names -> is_Some (ids !! f).

(** The names a job finds bound in the dictionary it was wrapped with ... *)
Definition bound_keys (f : JobFn) : list string :=
  match f with
  | J_download_url _ _ | J_batch_start _ _ _ _ => []
  | J_create_reference_index_hc _ _ => keys_refs
  | J_create_reference_dict_hc _ _ => "ref.fa.fai" :: keys_refs
  | J_spawn_batch_variant_calling _ _ | J_start _ _ _ | J_index _ _ => keys_start
  | J_haplotype_caller _ _ | J_genotype_gvcf _ _ => "toil.bam.bai" :: keys_start
  | J_vqsr_snp _ _ | J_vqsr_indel _ _ =>
      "unified.raw.BOTH.gatk.vcf" :: "toil.bam.bai" :: keys_start
  | J_apply_vqsr_snp _ _ =>
      "HAPSNP.plots" :: "HAPSNP.tranches" :: "HAPSNP.recal"
      :: "unified.raw.BOTH.gatk.vcf" :: "toil.bam.bai" :: keys_start
  | J_apply_vqsr_indel _ _ =>
      "HAPINDEL.plots" :: "HAPINDEL.tranches" :: "HAPINDEL.recal"
      :: "unified.raw.BOTH.gatk.vcf" :: "toil.bam.bai" :: keys_start
  end.

(** ... the two stages that read the sample file ... *)
Definition needs_bam (f : JobFn) : bool :=
  match f with
  | J_index _ _ | J_haplotype_caller _ _ => true
  | _ => false
  end.

(** ... and the stage that reads the gVCF of its sample. *)
Definition needs_gvcf (f : JobFn) : option Ns.t :=
  match f with
  | J_genotype_gvcf _ a => Some a
  | _ => None
  end.

(** A job of a run whose configuration holds the key [key] was handed what
    it looks up: the fixed names, the sample file unless a key is set, and
    the gVCF named after its sample. *)
Definition handoff_ok (key : option string) (j : Job) : Prop :=
  (forall a, received (fn j) = Some a -> Ns.ssec a = key)
  /\ forall ids, shared_ids_of (fn j) = Some ids ->
       binds ids (bound_keys (fn j))
       /\ (needs_bam (fn j) = true -> key = None -> is_Some (ids !! "toil.bam"))
       /\ (forall a uuid, needs_gvcf (fn j) = Some a -> Ns.uuid a = Some uuid ->
                          is_Some (ids !! gvcf_name uuid (Ns.suffix a))).

(** The only [KeyError] is the one for the sample file under a key. *)
Definition key_error_ok (key : option string) (e : Exn) : Prop :=
  forall k, e = KeyError k -> k = "toil.bam" /\ key <> None.

(** ** Attributes the stages read *)

(** The stages that come after [start], which assigns [input_args.uuid]. *)
Definition needs_uuid (f : JobFn) : bool :=
  match f with
  | J_haplotype_caller _ _ | J_genotype_gvcf _ _ | J_apply_vqsr_snp _ _
  | J_apply_vqsr_indel _ _ | J_index _ _ | J_vqsr_snp _ _ | J_vqsr_indel _ _ => true
  | _ => false
  end.

(** A job of a run with the output directory [od] carries it, and carries
    the identifier of its sample if it comes after [start]. *)
Definition attrs_ok (od : option string) (j : Job) : Prop :=
  carries_output_dir od j
  /\ forall a, needs_uuid (fn j) = true -> received (fn j) = Some a ->
               is_Some (Ns.uuid a).

(** An [AttributeError] means that there is no output directory. *)
Definition attr_error_ok (od : option string) (e : Exn) : Prop :=
  e = AttributeError -> od = None.

(** * Properties *)

Example py_readlines_ex :
  Py.readlines ("a" +:+ String Py.LF "b") = [String "a" (String Py.LF ""); "b"].
Proof. reflexivity. Qed.

Example py_strip_ex : Py.strip (" x y" +:+ String Py.LF "") = "x y".
Proof. reflexivity. Qed.

Example py_join_ex :
  Py.os_path_join "out" "S1" = "out/S1" /\ Py.os_path_join "out/" "S1" = "out/S1"
  /\ Py.os_path_join "out" "/S1" = "/S1".
Proof. vm_compute. auto. Qed.

(** ** Facts about strings *)

Lemma chars_app (a b : string) :
  Py.chars (a +:+ b) = (Py.chars a ++ Py.chars b)%list.
Proof. induction a as [|c a IH]; simpl; [done|]. by rewrite <- IH. Qed.

Lemma chars_inj (a b : string) : Py.chars a = Py.chars b -> a = b.
Proof.
  intros H. rewrite <- (string_of_list_ascii_of_string a),
    <- (string_of_list_ascii_of_string b). unfold Py.chars in H. by rewrite H.
Qed.

Lemma append_inv_tail (a b t : string) : a +:+ t = b +:+ t -> a = b.
Proof.
  intros H. apply chars_inj. apply (f_equal Py.chars) in H.
  rewrite !chars_app in H. by apply app_inv_tail in H.
Qed.

Lemma endswith_app (a p : string) : Py.endswith (a +:+ p) p = true.
Proof.
  unfold Py.endswith. apply bool_decide_eq_true_2.
  rewrite chars_app. by apply suffix_app_r.
Qed.

Lemma endswith_ne (k s p : string) : Py.endswith k p = false -> k <> s +:+ p.
Proof. intros H ->. by rewrite endswith_app in H. Qed.

(** ** The file names of the genotyping stage *)

Lemma gvcf_name_variant (uuid suffix : string) :
  gvcf_name uuid suffix = uuid +:+ ".raw.BOTH.gatk.gvcf" <-> suffix = ".gatk".
Proof.
  unfold gvcf_name. split.
  - intros H. apply String.app_inj in H.
    change (".raw.BOTH" +:+ suffix +:+ ".gvcf")
      with (".raw.BOTH" +:+ (suffix +:+ ".gvcf")) in H.
    change ".raw.BOTH.gatk.gvcf" with (".raw.BOTH" +:+ (".gatk" +:+ ".gvcf")) in H.
    apply String.app_inj in H. by apply append_inv_tail in H.
  - by intros ->.
Qed.


Example genotype_gvcf_variant_bqsr :
  head (genotype_gvcf_input_files "S1" ".bqsr") = Some "S1.raw.BOTH.bqsr.gvcf"
  /\ param_of "--variant" (genotype_gvcf_command config0 "S1" "unified.raw.BOTH.gatk.vcf")
     = Some "S1.raw.BOTH.gatk.gvcf".
Proof. split; reflexivity. Qed.

(** ** The manifest *)

Lemma read_samples_foldl (lines : list string) (acc : list (list string)) :
  foldl (fun samples line =>
           if negb (Py.isspace line) && negb (Py.startswith line "#")
           then (samples ++ [Py.split Py.TAB (Py.strip line)])%list
           else samples) acc lines
  = (acc ++ ((fun line => Py.split Py.TAB (Py.strip line))
               <$> List.filter keep_line lines))%list.
Proof.
  revert acc. induction lines as [|l lines IH]; intros acc; simpl.
  - by rewrite app_nil_r.
  - rewrite IH. unfold keep_line. destruct (negb (Py.isspace l) && _); simpl; [|done].
    by rewrite <- app_assoc.
Qed.

(** C4: the manifest with a comment line, a blank line and the two data
    lines yields the two samples in file order; in general the lines that are
    neither blank nor comments are stripped and split on tabs, in file order;
    and one [start] job per sample is scheduled in that order. *)
Theorem manifest_parsing :
  Py.readlines example_manifest
  = ["# header" +:+ String Py.LF ""; String Py.LF "";
     "A" +:+ String Py.TAB "urlA" +:+ String Py.LF "";
     "B" +:+ String Py.TAB "urlB" +:+ String Py.LF ""]
  /\ read_samples example_manifest = [["A"; "urlA"]; ["B"; "urlB"]]
  /\ (forall content,
        read_samples content
        = (fun line => Py.split Py.TAB (Py.strip line))
            <$> List.filter keep_line (Py.readlines content))
  /\ (forall ids,
        let input_args := Ns.set_output_dir (Some "out") config0 in
        spawn_batch_variant_calling happy_env ids input_args
          (enter happy_env (mkWorkflow [] []))
        = (Ok input_args,
           set_children
             [mkJob (J_start ids input_args ["A"; "urlA"]) None;
              mkJob (J_start ids input_args ["B"; "urlB"]) None]
             (enter happy_env (mkWorkflow [] [])))).
Proof.
  split; [reflexivity|]. split; [reflexivity|]. split.
  - intros content. unfold read_samples. by rewrite read_samples_foldl.
  - intros ids. reflexivity.
Qed.
(** ** Rules of the weakest precondition *)

Section WpRules.

Context {A B : Type}.
Implicit Types (Q : A -> JobState -> Prop) (E : Exn -> JobState -> Prop).

Lemma wp_ret (a : A) Q E st : Q a st -> wp (ret a) Q E st.
Proof. done. Qed.

Lemma wp_mret (a : A) Q E st : Q a st -> wp (mret a) Q E st.
Proof. done. Qed.

Lemma wp_raise (e : Exn) Q E st : E e st -> wp (raise e) Q E st.
Proof. done. Qed.

Lemma wp_bind (m : M A) (f : A -> M B) (Q : B -> JobState -> Prop) E st :
  wp m (fun a st' => wp (f a) Q E st') E st -> wp (m ≫= f) Q E st.
Proof.
  unfold wp, mbind, M_bind, bind. by destruct (m st) as [[a|e] st'].
Qed.

Lemma wp_bind' (m : M A) (f : A -> M B) (Q : B -> JobState -> Prop) E st :
  wp m (fun a st' => wp (f a) Q E st') E st -> wp (bind m f) Q E st.
Proof. apply wp_bind. Qed.

Lemma wp_mono (m : M A) Q Q' E E' st :
  wp m Q E st ->
  (forall a st', Q a st' -> Q' a st') ->
  (forall e st', E e st' -> E' e st') ->
  wp m Q' E' st.
Proof. unfold wp. destruct (m st) as [[a|e] st']; eauto. Qed.

(** When nothing is asked of a failure, any first step will do. *)
Lemma wp_bind_any (m : M A) (f : A -> M B) (Q : B -> JobState -> Prop) st :
  (forall a st', wp (f a) Q (fun _ _ => True) st') ->
  wp (m ≫= f) Q (fun _ _ => True) st.
Proof.
  intros H. apply wp_bind. unfold wp at 1.
  destruct (m st) as [[a|e] st']; [apply H|done].
Qed.

Lemma wp_ok (m : M A) Q st :
  wp m Q (fun _ _ => False) st -> exists a st', m st = (Ok a, st') /\ Q a st'.
Proof. unfold wp. destruct (m st) as [[a|e] st']; [eauto|done]. Qed.

Lemma wp_try_except_reraise (m : M A) (h : M unit) Q E st :
  wp m Q (fun e st' => wp h (fun _ st'' => E e st'') E st') st ->
  wp (try_except_reraise m h) Q E st.
Proof.
  unfold wp, try_except_reraise. destruct (m st) as [[a|e] st']; [done|].
  by destruct (h st') as [[[]|e'] st''].
Qed.

(** A quiet first step: whatever it returns, files and trace have moved
    on, nothing else. *)
Lemma wp_quiet (m : M A) Q E wd fl ch fo js tr :
  quiet_m m ->
  (forall a fl' tr', quiet tr' -> Q a (mkState wd fl' ch fo js (tr ++ tr'))) ->
  (forall e fl' tr', quiet tr' -> E e (mkState wd fl' ch fo js (tr ++ tr'))) ->
  wp m Q E (mkState wd fl ch fo js tr).
Proof.
  intros Hq HQ HE. unfold wp.
  destruct (Hq wd fl ch fo js tr) as ([a|e] & fl' & tr' & -> & Htr); eauto.
Qed.

End WpRules.

(** ** Quiet computations *)

Lemma quiet_nil : quiet [].
Proof. constructor. Qed.

Lemma quiet_app t1 t2 : quiet t1 -> quiet t2 -> quiet (t1 ++ t2).
Proof. apply Forall_app_2. Qed.

Lemma quiet_one e : is_quiet e = true -> quiet [e].
Proof. intros H. by constructor. Qed.

Lemma quiet_sinks t : quiet t -> sinks t = [].
Proof.
  unfold sinks. induction 1 as [|e t He _ IH]; [done|].
  destruct e; simpl in *; done.
Qed.

Lemma quiet_ret {A} (a : A) : quiet_m (ret a).
Proof.
  intros wd fl ch fo js tr. exists (Ok a), fl, []. rewrite app_nil_r. split; [done|apply quiet_nil].
Qed.

Lemma quiet_raise {A} (e : Exn) : quiet_m (@raise A e).
Proof.
  intros wd fl ch fo js tr. exists (Raise e), fl, []. rewrite app_nil_r. split; [done|apply quiet_nil].
Qed.

Lemma quiet_bind {A B} (m : M A) (f : A -> M B) :
  quiet_m m -> (forall a, quiet_m (f a)) -> quiet_m (m ≫= f).
Proof.
  intros Hm Hf wd fl ch fo js tr. unfold mbind, M_bind, bind.
  destruct (Hm wd fl ch fo js tr) as ([a|e] & fl1 & tr1 & -> & Hq1).
  - destruct (Hf a wd fl1 ch fo js (tr ++ tr1)) as (r & fl2 & tr2 & -> & Hq2).
    exists r, fl2, (tr1 ++ tr2). rewrite app_assoc. split; [done|by apply quiet_app].
  - by exists (Raise e), fl1, tr1.
Qed.

Lemma quiet_try_except_reraise {A} (m : M A) (h : M unit) :
  quiet_m m -> quiet_m h -> quiet_m (try_except_reraise m h).
Proof.
  intros Hm Hh wd fl ch fo js tr. unfold try_except_reraise.
  destruct (Hm wd fl ch fo js tr) as ([a|e] & fl1 & tr1 & -> & Hq1).
  - by exists (Ok a), fl1, tr1.
  - destruct (Hh wd fl1 ch fo js (tr ++ tr1)) as (r & fl2 & tr2 & -> & Hq2).
    exists (match r with Ok _ => Raise e | Raise e' => Raise e' end), fl2, (tr1 ++ tr2).
    rewrite app_assoc. split; [by destruct r as [[]|]|by apply quiet_app].
Qed.

Lemma quiet_for_each {A} (l : list A) (body : A -> M unit) :
  (forall x, quiet_m (body x)) -> quiet_m (for_each l body).
Proof.
  intros H. induction l as [|x l IH]; simpl; [apply quiet_ret|].
  apply (quiet_bind (body x)); auto.
Qed.

Lemma quiet_for_fold {A S} (l : list A) (acc : S) (body : A -> S -> M S) :
  (forall x s, quiet_m (body x s)) -> quiet_m (for_fold l acc body).
Proof.
  intros H. revert acc. induction l as [|x l IH]; intros acc; simpl; [apply quiet_ret|].
  apply (quiet_bind (body x acc)); auto.
Qed.

Lemma quiet_emit e : is_quiet e = true -> quiet_m (emit e).
Proof.
  intros He wd fl ch fo js tr. exists (Ok tt), fl, [e]. split; [done|by apply quiet_one].
Qed.

Lemma quiet_getLocalTempDir : quiet_m getLocalTempDir.
Proof.
  intros wd fl ch fo js tr. exists (Ok wd), fl, []. rewrite app_nil_r.
  split; [done|apply quiet_nil].
Qed.

Lemma quiet_os_path_exists wd0 f : quiet_m (os_path_exists wd0 f).
Proof.
  intros wd fl ch fo js tr. exists (Ok (bool_decide (f ∈ fl))), fl, [].
  rewrite app_nil_r. split; [done|apply quiet_nil].
Qed.

Lemma quiet_getitem ids k : quiet_m (getitem ids k).
Proof.
  intros wd fl ch fo js tr. unfold getitem.
  destruct (ids !! k) as [v|]; eexists _, fl, []; rewrite app_nil_r;
    (split; [done|apply quiet_nil]).
Qed.

Lemma quiet_readGlobalFile v wd0 f : quiet_m (readGlobalFile v wd0 f).
Proof.
  intros wd fl ch fo js tr. unfold readGlobalFile. simpl.
  destruct v as [h| |]; [case_bool_decide|..];
    try (eexists _, fl, []; rewrite app_nil_r; split; [done|apply quiet_nil]).
  eexists _, _, [_]. split; [done|by apply quiet_one].
Qed.

Lemma quiet_docker_call ext wd0 env parameters tool inputs outputs :
  quiet_m (docker_call ext wd0 env parameters tool inputs outputs).
Proof.
  intros wd fl ch fo js tr. unfold docker_call. simpl.
  destruct (docker_ok _ _ _ _); eexists _, _, [_]; (split; [done|by apply quiet_one]).
Qed.

Lemma quiet_curl ext url wd0 f : quiet_m (curl ext url wd0 f).
Proof.
  intros wd fl ch fo js tr. unfold curl. simpl.
  destruct (curl_ok _ _); eexists _, _, [_]; (split; [done|by apply quiet_one]).
Qed.

Lemma quiet_download_from_s3_url ext wd0 f url :
  quiet_m (download_from_s3_url ext wd0 f url).
Proof.
  intros wd fl ch fo js tr. unfold download_from_s3_url. simpl.
  destruct (s3_ok _ _); eexists _, _, [_]; (split; [done|by apply quiet_one]).
Qed.

Lemma quiet_attr v : quiet_m (attr v).
Proof. destruct v; [apply quiet_ret|apply quiet_raise]. Qed.

Lemma quiet_unpack2 s : quiet_m (unpack2 s).
Proof.
  destruct s as [|? [|? [|? ?]]]; simpl; first [apply quiet_ret|apply quiet_raise].
Qed.

Create HintDb quiet discriminated.
#[local] Hint Resolve quiet_ret quiet_raise quiet_getLocalTempDir
  quiet_os_path_exists quiet_getitem quiet_readGlobalFile quiet_docker_call
  quiet_curl quiet_download_from_s3_url quiet_attr quiet_unpack2 quiet_nil
  : quiet.

Ltac quiet_tac :=
  repeat first
    [ apply quiet_bind; [|intros ?]
    | apply quiet_for_each; intros ?
    | apply quiet_for_fold; intros ? ?
    | apply quiet_try_except_reraise
    | apply quiet_emit; reflexivity
    | progress eauto with quiet
    | match goal with
      | |- quiet_m (if ?b then _ else _) => destruct b
      | |- quiet_m (mret _) => apply quiet_ret
      | |- quiet_m (match ?x with _ => _ end) => destruct x
      end ].

Lemma quiet_read_from_filestore_hc wd0 ids fs :
  quiet_m (read_from_filestore_hc wd0 ids fs).
Proof. unfold read_from_filestore_hc. quiet_tac. Qed.

Lemma quiet_return_input_paths wd0 ids fs :
  quiet_m (return_input_paths wd0 ids fs).
Proof. unfold return_input_paths. quiet_tac. Qed.

Lemma quiet_stderr_write msg : quiet_m (stderr_write msg).
Proof. unfold stderr_write. quiet_tac. Qed.

Lemma quiet_make_directory p : quiet_m (make_directory p).
Proof. unfold make_directory. quiet_tac. Qed.

Lemma quiet_read_manifest ext m : quiet_m (read_manifest ext m).
Proof. unfold read_manifest. quiet_tac. Qed.

#[local] Hint Resolve quiet_read_from_filestore_hc quiet_return_input_paths
  quiet_stderr_write quiet_make_directory quiet_read_manifest : quiet.

(** ** Rules for the runtime *)

Section PrimRules.

Context {A : Type}.
Variables (wd : string) (fl : gset string) (ch fo : list Job)
  (js : list string) (tr : list Event).

Lemma wp_getLocalTempDir (Q : string -> _) E :
  Q wd (mkState wd fl ch fo js tr) -> wp getLocalTempDir Q E (mkState wd fl ch fo js tr).
Proof. done. Qed.

Lemma wp_os_path_exists wd0 f (Q : bool -> _) E :
  Q (bool_decide (f ∈ fl)) (mkState wd fl ch fo js tr) -> wp (os_path_exists wd0 f) Q E (mkState wd fl ch fo js tr).
Proof. done. Qed.

Lemma wp_getitem ids k (Q : Value -> _) E :
  (forall v, ids !! k = Some v -> Q v (mkState wd fl ch fo js tr)) ->
  (ids !! k = None -> E (KeyError k) (mkState wd fl ch fo js tr)) ->
  wp (getitem ids k) Q E (mkState wd fl ch fo js tr).
Proof. unfold wp, getitem. destruct (ids !! k); auto. Qed.

Lemma wp_setitem ids k v (Q : gmap string Value -> _) E :
  Q (<[k := v]> ids) (mkState wd fl ch fo js (tr ++ [EvSetItem k (ids !! k) v])) ->
  wp (setitem ids k v) Q E (mkState wd fl ch fo js tr).
Proof. done. Qed.

Lemma wp_writeGlobalFile wd0 f (Q : Value -> _) E :
  (f ∈ fl ->
   Q (FileStoreID (length js))
     (mkState wd fl ch fo (js ++ [f]) (tr ++ [EvWriteGlobalFile f (length js)]))) ->
  (f ∉ fl -> E (IOError f) (mkState wd fl ch fo js tr)) ->
  wp (writeGlobalFile wd0 f) Q E (mkState wd fl ch fo js tr).
Proof. unfold wp, writeGlobalFile. simpl. case_bool_decide; auto. Qed.

Lemma wp_addChildJobFn f c (Q : Value -> _) E :
  Q (Promise (length ch)) (mkState wd fl (ch ++ [mkJob f c]) fo js tr) ->
  wp (addChildJobFn f c) Q E (mkState wd fl ch fo js tr).
Proof. done. Qed.

Lemma wp_addFollowOnJobFn f c (Q : unit -> _) E :
  Q tt (mkState wd fl ch (fo ++ [mkJob f c]) js tr) ->
  wp (addFollowOnJobFn f c) Q E (mkState wd fl ch fo js tr).
Proof. done. Qed.

Lemma wp_attr v (Q : string -> _) E :
  (forall s, v = Some s -> Q s (mkState wd fl ch fo js tr)) ->
  (v = None -> E AttributeError (mkState wd fl ch fo js tr)) ->
  wp (attr v) Q E (mkState wd fl ch fo js tr).
Proof. intros HQ HE. destruct v; [by apply HQ|by apply HE]. Qed.

Lemma wp_unpack2 sample (Q : string * string -> _) E :
  (forall uuid url, sample = [uuid; url] -> Q (uuid, url) (mkState wd fl ch fo js tr)) ->
  ((forall uuid url, sample <> [uuid; url]) -> E ValueError (mkState wd fl ch fo js tr)) ->
  wp (unpack2 sample) Q E (mkState wd fl ch fo js tr).
Proof.
  intros HQ HE. destruct sample as [|u [|v [|? ?]]]; simpl;
    first [by apply HQ | by apply HE].
Qed.

(** Both ways of placing a file are one invocation of the sink. *)
Lemma wp_upload_or_move_hc wd0 d out ssec (Q : unit -> _) E :
  (out ∈ fl ->
   forall fl' tr' e, quiet tr' -> sink_of e = Some (d, out) ->
     Q tt (mkState wd fl' ch fo js (tr ++ tr' ++ [e]))) ->
  (out ∉ fl -> forall e tr', quiet tr' -> E e (mkState wd fl ch fo js (tr ++ tr'))) ->
  wp (upload_or_move_hc wd0 d out ssec) Q E (mkState wd fl ch fo js tr).
Proof.
  intros HQ HE. unfold wp, upload_or_move_hc.
  destruct (Py.startswith d "s3://").
  - unfold s3am_upload. simpl. case_bool_decide as Hin.
    + apply (HQ Hin fl [] _ quiet_nil). done.
    + rewrite <- (app_nil_r tr). by apply HE, quiet_nil.
  - unfold make_directory, emit, move_to_output_dir, for_each, shutil_move,
      mbind, M_bind, bind, ret. simpl. case_bool_decide as Hin.
    + rewrite <- app_assoc. apply (HQ Hin _ [_] _); [by apply quiet_one|done].
    + by apply HE, quiet_one.
Qed.

End PrimRules.

Lemma fetches_app t1 t2 : fetches (t1 ++ t2) = fetches t1 + fetches t2.
Proof. unfold fetches. by rewrite filter_app, length_app. Qed.

(** ** Hydration *)

Lemma read_from_filestore_hc_present (work_dir : string) (ids : gmap string Value)
    (fs : list string) (st : JobState) :
  (forall f, f ∈ fs -> f ∈ files st) ->
  read_from_filestore_hc work_dir ids fs st = (Ok tt, st).
Proof.
  induction fs as [|f fs IH]; intros H; [done|].
  unfold read_from_filestore_hc in *. simpl.
  unfold bind at 1. unfold mbind, M_bind, bind at 1, os_path_exists.
  rewrite bool_decide_eq_true_2 by (apply H; left). simpl.
  apply IH. intros g Hg. apply H. by right.
Qed.

(** C5: hydrating a name fetches at most once; when the file is already
    there nothing is fetched and nothing changes; and after a hydration that
    returned, the file is there and hydrating again is a no-op.  The same
    holds for [return_input_paths], which also returns the path. *)
Theorem hydrate_idempotent (work_dir : string) (ids : gmap string Value)
    (filename : string) (st : JobState) :
  let r1 := read_from_filestore_hc work_dir ids [filename] st in
  let r2 := read_from_filestore_hc work_dir ids [filename] r1.2 in
  let p1 := return_input_paths work_dir ids [filename] st in
  let p2 := return_input_paths work_dir ids [filename] p1.2 in
  (fetches (trace r1.2) <= fetches (trace st) + 1
   /\ (filename ∈ files st -> r1 = (Ok tt, st))
   /\ (r1.1 = Ok tt ->
       filename ∈ files r1.2 /\ r2 = (Ok tt, r1.2)
       /\ fetches (trace r2.2) <= fetches (trace st) + 1))
  /\ (fetches (trace p1.2) <= fetches (trace st) + 1
      /\ (filename ∈ files st ->
          p1 = (Ok [Py.os_path_join work_dir filename], st))
      /\ (p1.1 = Ok [Py.os_path_join work_dir filename] ->
          filename ∈ files p1.2
          /\ p2 = (Ok [Py.os_path_join work_dir filename], p1.2)
          /\ fetches (trace p2.2) <= fetches (trace st) + 1)).
Proof.
  destruct st as [wd fl ch fo js tr].
  unfold read_from_filestore_hc, return_input_paths, for_each, for_fold,
    mbind, M_bind, bind, ret, os_path_exists, getitem, readGlobalFile, mret, M_ret, ret.
  simpl. case_bool_decide as Hin; simpl.
  { rewrite !bool_decide_eq_true_2 by done. simpl. repeat split; auto with lia. }
  destruct (ids !! filename) as [[h| |]|]; simpl;
    try (repeat split; first [lia | done | by rewrite bool_decide_eq_false_2 by done]).
  case_bool_decide as Hh; simpl;
    try (repeat split; first [lia | done | by rewrite bool_decide_eq_false_2 by done]).
  rewrite !bool_decide_eq_true_2 by set_solver. simpl.
  rewrite fetches_app. repeat split; first [simpl; lia | done | set_solver].
Qed.

Lemma hydrate_idempotent_witness :
  let ids : gmap string Value := {["ref.fa" := FileStoreID 0]} in
  let st := mkState "/tmp/job" ∅ [] [] ["ref.fa"] [] in
  let r1 := read_from_filestore_hc "/tmp/job" ids ["ref.fa"] st in
  "ref.fa" ∈ files r1.2
  /\ read_from_filestore_hc "/tmp/job" ids ["ref.fa"] r1.2 = (Ok tt, r1.2)
  /\ fetches (trace (read_from_filestore_hc "/tmp/job" ids ["ref.fa"] r1.2).2)
     <= fetches (trace st) + 1.
Proof.
  intros ids st r1.
  exact (proj2 (proj2 (proj1 (hydrate_idempotent "/tmp/job" ids "ref.fa" st)))
           eq_refl).
Defined.

(** ** The per-sample driver [start] *)

Lemma start_eq (ids : gmap string Value) (a : Ns.t) (uuid url d : string)
    wd fl ch fo js tr :
  Ns.output_dir a = Some d ->
  start ids a [uuid; url] (mkState wd fl ch fo js tr)
  = let a' := Ns.set_bam_url (Some url) (Ns.set_uuid (Some uuid) a) in
    let bam := match Ns.ssec a with None => true | Some _ => false end in
    let ids1 := if bam then <["toil.bam" := Promise (length ch)]> ids else ids in
    let ch1 :=
      if bam then ch ++ [mkJob (J_download_url url "toil.bam") None] else ch in
    let tr1 :=
      if bam then tr ++ [EvSetItem "toil.bam" (ids !! "toil.bam") (Promise (length ch))]
      else tr in
    if Ns.indexed a then
      (Ok a',
       mkState wd fl
         (ch1 ++ [mkJob (J_download_url (url +:+ ".bai") "toil.bam.bai") None])
         (fo ++ [mkJob (J_haplotype_caller
                          (<["toil.bam.bai" := Promise (length ch1)]> ids1) a')
                       (Some (Ns.cpu_count a))])
         js
         (tr1 ++ [EvSetItem "toil.bam.bai" (ids1 !! "toil.bam.bai")
                    (Promise (length ch1))]))
    else
      (Ok a', mkState wd fl ch1 (fo ++ [mkJob (J_index ids1 a') None]) js tr1).
Proof.
  intros Hd. unfold start, mbind, M_bind, bind, attr, unpack2. simpl. rewrite Hd. simpl.
  destruct (Ns.ssec a), (Ns.indexed a); reflexivity.
Qed.

(** Stepping through a job function. *)
Ltac wp_step :=
  cbv beta zeta;
  lazymatch goal with
  | |- wp (mbind _ _) _ _ _ => apply wp_bind
  | |- wp (ret _) _ _ _ => apply wp_ret
  | |- wp (mret _) _ _ _ => apply wp_mret
  | |- wp (raise _) _ _ _ => apply wp_raise
  | |- wp getLocalTempDir _ _ _ => apply wp_getLocalTempDir
  | |- wp (setitem _ _ _) _ _ _ => apply wp_setitem
  | |- wp (addChildJobFn _ _) _ _ _ => apply wp_addChildJobFn
  | |- wp (addFollowOnJobFn _ _) _ _ _ => apply wp_addFollowOnJobFn
  | |- wp (writeGlobalFile _ _) _ _ _ =>
      apply wp_writeGlobalFile; [intros ?|intros ?]
  | |- wp (attr _) _ _ _ => apply wp_attr; [intros ? ?|intros ?]
  | |- wp (upload_or_move_hc _ _ _ _) _ _ _ =>
      apply wp_upload_or_move_hc; [intros ? ? ? ? ? ?|intros ? ? ? ?]
  | |- wp _ _ _ _ =>
      apply wp_quiet; [quiet_tac|intros ? ? ? ?|intros ? ? ? ?]
  end.

Lemma index_schedules (ext : Env) (ids : gmap string Value) (a : Ns.t)
    (st : JobState) :
  wp (index ext ids a)
     (fun a' st' =>
        a' = a
        /\ children st'
           = children st
             ++ [mkJob (J_haplotype_caller
                          (<["toil.bam.bai" := FileStoreID (length (jobStore st))]> ids) a)
                       (Some (Ns.cpu_count a))]
        /\ followOns st' = followOns st)
     (fun _ _ => True) st.
Proof.
  destruct st as [wd fl ch fo js tr]. unfold index.
  repeat (wp_step; try done).
Qed.

(** C6: [start] for a sample [(uuid, url)].  With the [indexed] flag it
    schedules the download of [url.bai] as [toil.bam.bai] and its only
    follow-on is [haplotype_caller], which receives the promise of that
    download; without the flag it schedules no such download and its only
    follow-on is [index], whose only successor is [haplotype_caller]. *)
Theorem start_indexed_or_index (ext : Env) (ids : gmap string Value) (a : Ns.t)
    (uuid url d : string) (st : JobState) :
  Ns.output_dir a = Some d ->
  let a' := Ns.set_bam_url (Some url) (Ns.set_uuid (Some uuid) a) in
  let bam :=
    match Ns.ssec a with
    | None => [mkJob (J_download_url url "toil.bam") None]
    | Some _ => []
    end in
  exists ids' tr',
    start ids a [uuid; url] st
    = (Ok a',
       mkState (work_dir st) (files st)
         (children st ++ bam ++
            (if Ns.indexed a
             then [mkJob (J_download_url (url +:+ ".bai") "toil.bam.bai") None]
             else []))
         (followOns st ++
            [if Ns.indexed a
             then mkJob (J_haplotype_caller ids' a') (Some (Ns.cpu_count a))
             else mkJob (J_index ids' a') None])
         (jobStore st) (trace st ++ tr'))
    /\ (Ns.indexed a = true ->
        ids' !! "toil.bam.bai" = Some (Promise (length (children st ++ bam))))
    /\ (forall a2 st2 st1,
          index ext ids' a' st1 = (Ok a2, st2) ->
          exists ids2,
            children st2
            = children st1
              ++ [mkJob (J_haplotype_caller ids2 a') (Some (Ns.cpu_count a))]
            /\ followOns st2 = followOns st1).
Proof.
  intros Hd a' bam. destruct st as [wd fl ch fo js tr].
  rewrite (start_eq _ _ _ _ d) by done. cbv zeta. fold a'. subst bam.
  assert (Hix : forall ids' a2 st2 st1,
             index ext ids' a' st1 = (Ok a2, st2) ->
             exists ids2,
               children st2
               = children st1
                 ++ [mkJob (J_haplotype_caller ids2 a') (Some (Ns.cpu_count a))]
               /\ followOns st2 = followOns st1).
  { intros ids' a2 st2 st1 H. pose proof (index_schedules ext ids' a' st1) as Hw.
    unfold wp in Hw. rewrite H in Hw. destruct Hw as (_ & -> & ->). eauto. }
  destruct (Ns.ssec a), (Ns.indexed a); simpl.
  - eexists _, [_]. split; [reflexivity|]. split; [|by apply Hix].
    intros _. rewrite app_nil_r. by rewrite lookup_insert_eq.
  - eexists _, []. rewrite !app_nil_r. split; [reflexivity|].
    split; [done|by apply Hix].
  - eexists _, [_; _]. split.
    + rewrite <- !app_assoc. reflexivity.
    + split; [|by apply Hix]. intros _. by rewrite lookup_insert_eq.
  - eexists _, [_]. split; [reflexivity|]. split; [done|by apply Hix].
Qed.

Lemma start_indexed_or_index_witness :
  exists ids' tr',
    start ∅ config1 ["S1"; "u1"] state0
    = (Ok (Ns.set_bam_url (Some "u1") (Ns.set_uuid (Some "S1") config1)),
       mkState "/tmp/job" ∅ [mkJob (J_download_url "u1" "toil.bam") None]
         [mkJob (J_index ids'
                   (Ns.set_bam_url (Some "u1") (Ns.set_uuid (Some "S1") config1)))
                None]
         [] tr').
Proof.
  destruct (start_indexed_or_index happy_env ∅ config1 "S1" "u1" "out" state0 eq_refl)
    as (ids' & tr' & H & _).
  exists ids', tr'. exact H.
Defined.

(** C7, as the code has it: with an encryption key, [start] returns without
    an error, schedules no download of the sample file and binds no
    [toil.bam], and nothing else fetches it; the retrieval of the index file
    is not affected: it is scheduled exactly when [indexed] is set. *)
Theorem start_ssec_drops_sample_download (ids : gmap string Value) (a : Ns.t)
    (uuid url d key : string) (st : JobState) :
  Ns.output_dir a = Some d ->
  Ns.ssec a = Some key ->
  let a' := Ns.set_bam_url (Some url) (Ns.set_uuid (Some uuid) a) in
  let bai := mkJob (J_download_url (url +:+ ".bai") "toil.bam.bai") None in
  start ids a [uuid; url] st
  = if Ns.indexed a then
      (Ok a',
       mkState (work_dir st) (files st) (children st ++ [bai])
         (followOns st ++
            [mkJob (J_haplotype_caller
                      (<["toil.bam.bai" := Promise (length (children st))]> ids) a')
                   (Some (Ns.cpu_count a))])
         (jobStore st)
         (trace st ++ [EvSetItem "toil.bam.bai" (ids !! "toil.bam.bai")
                         (Promise (length (children st)))]))
    else
      (Ok a',
       mkState (work_dir st) (files st) (children st)
         (followOns st ++ [mkJob (J_index ids a') None])
         (jobStore st) (trace st)).
Proof.
  intros Hd Hs a' bai. destruct st as [wd fl ch fo js tr].
  rewrite (start_eq _ _ _ _ d) by done. cbv zeta. rewrite Hs. reflexivity.
Qed.

Lemma start_ssec_drops_sample_download_witness :
  start ∅ config_ssec ["S1"; "u1"] state0
  = (Ok (Ns.set_bam_url (Some "u1") (Ns.set_uuid (Some "S1") config_ssec)),
     mkState "/tmp/job" ∅ [mkJob (J_download_url "u1.bai" "toil.bam.bai") None]
       [mkJob (J_haplotype_caller (<["toil.bam.bai" := Promise 0]> ∅)
                 (Ns.set_bam_url (Some "u1") (Ns.set_uuid (Some "S1") config_ssec)))
              (Some 4)]
       [] [EvSetItem "toil.bam.bai" None (Promise 0)]).
Proof.
  exact (start_ssec_drops_sample_download ∅ config_ssec "S1" "u1" "out" "key.txt"
           state0 eq_refl eq_refl).
Defined.

(** C7 as stated fails: with an encryption key set, the retrieval of the
    index file is still scheduled. *)
Lemma start_ssec_keeps_index_retrieval :
  Ns.ssec config_ssec <> None
  /\ mkJob (J_download_url "u1.bai" "toil.bam.bai") None
     ∈ children (start ∅ config_ssec ["S1"; "u1"] state0).2.
Proof. split; [done|]. vm_compute. apply list_elem_of_here. Qed.

(** ** A failing tool *)


(** ** The configuration object *)

Ltac frame_step :=
  cbv beta zeta;
  lazymatch goal with
  | |- wp (mbind _ _) _ _ _ => apply wp_bind_any; intros ? ?
  | |- wp (ret _) _ _ _ => apply wp_ret
  | |- wp (mret _) _ _ _ => apply wp_mret
  end.

(** C2, as the code has it: [batch_start] assigns [sample], [output_dir] and
    [suffix], [start] assigns [uuid] and [bam_url], and every other stage
    leaves the configuration it receives as it was. *)
Theorem config_frame (ext : Env) (f : JobFn) (stage : M Ns.t) (a a' : Ns.t)
    (st st' : JobState) :
  job_fn ext f = inl stage ->
  received f = Some a ->
  stage st = (Ok a', st') ->
  match f with
  | J_batch_start _ s o x =>
      a' = Ns.set_suffix x (Ns.set_output_dir o (Ns.set_sample s a))
  | J_start _ _ s =>
      exists uuid url,
        s = [uuid; url]
        /\ a' = Ns.set_bam_url (Some url) (Ns.set_uuid (Some uuid) a)
  | _ => a' = a
  end.
Proof.
  intros Hf Ha Hrun.
  assert (Hwp : forall (Q : Ns.t -> JobState -> Prop),
             wp stage Q (fun _ _ => True) st -> Q a' st').
  { intros Q H. unfold wp in H. by rewrite Hrun in H. }
  destruct f; simpl in Hf, Ha; try discriminate;
    injection Hf as <-; injection Ha as <-;
    apply (Hwp (fun x _ => _)); clear Hwp Hrun.
  - unfold batch_start. repeat frame_step. done.
  - unfold create_reference_index_hc. repeat frame_step. done.
  - unfold create_reference_dict_hc. repeat frame_step. done.
  - unfold spawn_batch_variant_calling. repeat frame_step. done.
  - unfold start. wp_step. destruct st. apply wp_unpack2; [|done].
    intros uuid url ->. repeat frame_step. eauto.
  - unfold index. repeat frame_step. done.
  - unfold haplotype_caller. repeat frame_step. done.
  - unfold genotype_gvcf. repeat frame_step. done.
  - unfold vqsr_snp. repeat frame_step. done.
  - unfold apply_vqsr_snp. repeat frame_step. done.
  - unfold vqsr_indel. repeat frame_step. done.
  - unfold apply_vqsr_indel. repeat frame_step. done.
Qed.

Lemma config_frame_witness :
  (exists uuid url,
      ["S1"; "u1"] = [uuid; url]
      /\ Ns.set_bam_url (Some "u1") (Ns.set_uuid (Some "S1") config1)
         = Ns.set_bam_url (Some url) (Ns.set_uuid (Some uuid) config1))
  /\ config1
     = Ns.set_suffix ".bqsr"
         (Ns.set_output_dir (Some "out") (Ns.set_sample (Some ["S1"; "u1"]) config0))
  /\ config1 = config1.
Proof.
  split; [|split].
  - exact (config_frame happy_env (J_start ∅ config1 ["S1"; "u1"]) _ config1 _
             state0 _ eq_refl eq_refl
             (start_eq ∅ config1 "S1" "u1" "out" "/tmp/job" ∅ [] [] [] [] eq_refl)).
  - exact (config_frame happy_env
             (J_batch_start config0 (Some ["S1"; "u1"]) (Some "out") ".bqsr") _
             config0 config1 state0
             (batch_start config0 (Some ["S1"; "u1"]) (Some "out") ".bqsr" state0).2
             eq_refl eq_refl eq_refl).
  - exact (config_frame happy_env (J_spawn_batch_variant_calling ∅ config1) _
             config1 config1 state0
             (spawn_batch_variant_calling happy_env ∅ config1 state0).2
             eq_refl eq_refl eq_refl).
Defined.

(** C2 as stated fails: [start] leaves a configuration that differs from the
    one it received, and so does [batch_start]. *)
Lemma start_assigns_config :
  (start ∅ config1 ["S1"; "u1"] state0).1
  = Ok (Ns.set_bam_url (Some "u1") (Ns.set_uuid (Some "S1") config1))
  /\ Ns.set_bam_url (Some "u1") (Ns.set_uuid (Some "S1") config1) <> config1
  /\ (batch_start config0 (Some ["S1"; "u1"]) (Some "out") ".bqsr" state0).1
     = Ok config1
  /\ config1 <> config0.
Proof.
  split; [reflexivity|]. split; [discriminate|]. split; [reflexivity|discriminate].
Qed.

(** ** Invariants of a run *)

Section EngineInvariant.

Variable ext : Env.
Variable Pev : Event -> Prop.
Variable JobOk : Job -> Prop.

Hypothesis JobOk_resolve : forall rvs j, JobOk j -> JobOk (resolve_job rvs j).

Hypothesis exec_inv : forall j w,
  JobOk j -> Forall Pev (wf_trace w) ->
  wp (exec ext j)
     (fun _ st' =>
        Forall Pev (trace st') /\ Forall JobOk (children st')
        /\ Forall JobOk (followOns st'))
     (fun _ st' => Forall Pev (trace st'))
     (enter ext w).

Lemma run_all_inv (run : Job -> Workflow -> Res Value * Workflow) :
  (forall j w, JobOk j -> Forall Pev (wf_trace w) ->
               Forall Pev (wf_trace (run j w).2)) ->
  forall js w, Forall JobOk js -> Forall Pev (wf_trace w) ->
               Forall Pev (wf_trace (run_all run js w).2).
Proof.
  intros Hrun js. induction js as [|j js IH]; intros w Hjs Hw; [done|].
  apply Forall_cons in Hjs as [Hj Hjs]. simpl.
  pose proof (Hrun j w Hj Hw) as H1.
  destruct (run j w) as [[v|e] w1]; [|done]. simpl in H1.
  pose proof (IH w1 Hjs H1) as H2.
  by destruct (run_all run js w1) as [[vs|e] w2].
Qed.

Lemma run_job_inv (fuel : nat) (j : Job) (w : Workflow) :
  JobOk j -> Forall Pev (wf_trace w) ->
  Forall Pev (wf_trace (run_job ext fuel j w).2).
Proof.
  revert j w. induction fuel as [|fuel IH]; intros j w Hj Hw; [done|].
  simpl. pose proof (exec_inv j w Hj Hw) as He. unfold wp in He.
  destruct (exec ext j (enter ext w)) as [[rv|e] st]; [|done].
  destruct He as (Ht & Hc & Hf).
  pose proof (run_all_inv (run_job ext fuel) IH (children st) (leave st) Hc Ht) as H1.
  destruct (run_all (run_job ext fuel) (children st) (leave st)) as [[rvs|e] w1];
    [|done].
  assert (Hf' : Forall JobOk (resolve_job rvs <$> followOns st)).
  { apply Forall_fmap. eapply Forall_impl; [exact Hf|]. intros. by apply JobOk_resolve. }
  pose proof (run_all_inv (run_job ext fuel) IH _ w1 Hf' H1) as H2.
  by destruct (run_all (run_job ext fuel) (resolve_job rvs <$> followOns st) w1)
    as [[vs|e] w2].
Qed.

End EngineInvariant.

(** The loop of [spawn_batch_variant_calling] over the samples. *)
Lemma wp_spawn_loop (ids : gmap string Value) (a : Ns.t) (samples : list (list string))
    (Q : unit -> JobState -> Prop) E wd fl ch fo js tr :
  Q tt (mkState wd fl
          (ch ++ ((fun s => mkJob (J_start ids a s) None) <$> samples)) fo js tr) ->
  wp (for_each samples (fun sample =>
        _ ← addChildJobFn (J_start ids a sample) None; ret tt)) Q E
     (mkState wd fl ch fo js tr).
Proof.
  revert ch. induction samples as [|s samples IH]; intros ch H; simpl.
  - by rewrite app_nil_r in H.
  - apply wp_bind'. apply wp_bind. apply wp_addChildJobFn. apply wp_mret.
    apply IH. by rewrite <- app_assoc.
Qed.

Lemma wp_for_fold_cons {A S} (x : A) (l : list A) (acc : S) (body : A -> S -> M S)
    (Q : S -> JobState -> Prop) E st :
  wp (bind (body x acc) (fun acc' => for_fold l acc' body)) Q E st ->
  wp (for_fold (x :: l) acc body) Q E st.
Proof. done. Qed.

Lemma wp_for_fold_nil {A S} (acc : S) (body : A -> S -> M S)
    (Q : S -> JobState -> Prop) E st :
  Q acc st -> wp (for_fold [] acc body) Q E st.
Proof. done. Qed.

(** Stepping through a job function, loops and branches included. *)
Ltac wp_go :=
  cbv beta zeta iota;
  lazymatch goal with
  | |- wp (mbind _ _) _ _ _ => apply wp_bind
  | |- wp (bind _ _) _ _ _ => apply wp_bind'
  | |- wp (ret _) _ _ _ => apply wp_ret
  | |- wp (mret _) _ _ _ => apply wp_mret
  | |- wp (raise _) _ _ _ => apply wp_raise
  | |- wp getLocalTempDir _ _ _ => apply wp_getLocalTempDir
  | |- wp (os_path_exists _ _) _ _ _ => apply wp_os_path_exists
  | |- wp (setitem _ _ _) _ _ _ => apply wp_setitem
  | |- wp (addChildJobFn _ _) _ _ _ => apply wp_addChildJobFn
  | |- wp (addFollowOnJobFn _ _) _ _ _ => apply wp_addFollowOnJobFn
  | |- wp (writeGlobalFile _ _) _ _ _ =>
      apply wp_writeGlobalFile; [intros ?|intros ?]
  | |- wp (attr _) _ _ _ => apply wp_attr; [intros ? ?|intros ?]
  | |- wp (unpack2 _) _ _ _ => apply wp_unpack2; [intros ? ? ?|intros ?]
  | |- wp (upload_or_move_hc _ _ _ _) _ _ _ =>
      apply wp_upload_or_move_hc; [intros ? ? ? ? ? ?|intros ? ? ? ?]
  | |- wp (for_each _ (fun sample => _ ← addChildJobFn _ _; ret tt)) _ _ _ =>
      apply wp_spawn_loop
  | |- wp (for_fold (_ :: _) _ _) _ _ _ => apply wp_for_fold_cons
  | |- wp (for_fold [] _ _) _ _ _ => apply wp_for_fold_nil
  | |- wp (for_fold _ _ _) _ _ _ => progress cbn [zip_with]
  | |- wp (write_to_filestore _ _ _) _ _ _ => unfold write_to_filestore
  | |- wp _ _ _ _ =>
      first [ apply wp_quiet; [solve [quiet_tac]|intros ? ? ? ?|intros ? ? ? ?]
            | match goal with
              | |- wp (match ?x with _ => _ end) _ _ _ => destruct x eqn:?
              end ]
  end.

Lemma quiet_sink_to od t : quiet t -> Forall (sink_to od) t.
Proof.
  intros Hq. eapply Forall_impl; [exact Hq|].
  intros e He dest file H. destruct e; simpl in *; discriminate.
Qed.

Lemma sink_to_sink od d out e : od = Some d -> sink_of e = Some (d, out) -> sink_to od e.
Proof. intros -> He dest file H. rewrite He in H. by injection H as <- _. Qed.

Lemma sink_to_setitem od k o v : sink_to od (EvSetItem k o v).
Proof. intros dest file H. discriminate. Qed.

Lemma sink_to_write od f h : sink_to od (EvWriteGlobalFile f h).
Proof. intros dest file H. discriminate. Qed.

Ltac inv_solve :=
  repeat match goal with
         | |- _ => progress cbn [trace children followOns jobStore files work_dir]
         | |- _ /\ _ => split
         | |- Forall _ (_ ++ _) => apply Forall_app_2
         | |- Forall _ (_ :: _) => apply Forall_cons_2
         | |- Forall _ [] => apply Forall_nil_2
         | |- Forall (sink_to _) _ => by apply quiet_sink_to
         | |- sink_to _ (EvSetItem _ _ _) => apply sink_to_setitem
         | |- sink_to _ (EvWriteGlobalFile _ _) => apply sink_to_write
         | |- sink_to _ _ => eapply sink_to_sink; [|eassumption]; congruence
         | |- carries_output_dir _ _ => intros ? [= <-]; simpl; congruence
         | |- _ => assumption
         end.

Lemma exec_carries_output_dir (ext : Env) (od : option string) (j : Job) (w : Workflow) :
  carries_output_dir od j -> Forall (sink_to od) (wf_trace w) ->
  wp (exec ext j)
     (fun _ st' =>
        Forall (sink_to od) (trace st')
        /\ Forall (carries_output_dir od) (children st')
        /\ Forall (carries_output_dir od) (followOns st'))
     (fun _ st' => Forall (sink_to od) (trace st'))
     (enter ext w).
Proof.
  intros Hj Hw. destruct j as [f c]. destruct w as [js tr]. unfold enter. simpl in *.
  unfold carries_output_dir in Hj. simpl in Hj.
  destruct f; unfold exec; cbn [job_fn fn].
  - unfold download_url. repeat (wp_go; inv_solve).
  - specialize (Hj _ eq_refl). unfold batch_start. repeat (wp_go; inv_solve).
  - specialize (Hj _ eq_refl). unfold create_reference_index_hc. repeat (wp_go; inv_solve).
  - specialize (Hj _ eq_refl). unfold create_reference_dict_hc. repeat (wp_go; inv_solve).
  - specialize (Hj _ eq_refl). unfold spawn_batch_variant_calling. repeat (wp_go; inv_solve).
    apply Forall_fmap, Forall_true. intros s. unfold compose. inv_solve.
  - specialize (Hj _ eq_refl). unfold start. repeat (wp_go; inv_solve).
  - specialize (Hj _ eq_refl). unfold index. repeat (wp_go; inv_solve).
  - specialize (Hj _ eq_refl). unfold haplotype_caller. repeat (wp_go; inv_solve).
  - specialize (Hj _ eq_refl). unfold genotype_gvcf. repeat (wp_go; inv_solve).
  - specialize (Hj _ eq_refl). unfold vqsr_snp. repeat (wp_go; inv_solve).
  - specialize (Hj _ eq_refl). unfold apply_vqsr_snp. repeat (wp_go; inv_solve).
  - specialize (Hj _ eq_refl). unfold vqsr_indel. repeat (wp_go; inv_solve).
  - specialize (Hj _ eq_refl). unfold apply_vqsr_indel. repeat (wp_go; inv_solve).
Qed.

(** ** Where the outputs go *)

Lemma output_dir_of_resolve rvs f : output_dir_of (resolve_fn rvs f) = output_dir_of f.
Proof. by destruct f. Qed.

Lemma carries_output_dir_resolve od rvs j :
  carries_output_dir od j -> carries_output_dir od (resolve_job rvs j).
Proof.
  unfold carries_output_dir, resolve_job. simpl. by rewrite output_dir_of_resolve.
Qed.

Lemma sink_to_sinks od t :
  Forall (sink_to od) t -> Forall (fun s => od = Some s.1) (sinks t).
Proof.
  unfold sinks. induction 1 as [|e t He _ IH]; simpl; [constructor|].
  destruct (sink_of e) as [[dest file]|] eqn:Hs; [|done].
  constructor; [|done]. by apply (He dest file).
Qed.

(** C10: in every run, whatever the configuration, the manifest and the
    outcome of the tools, each placement of a file goes to the configured
    output directory itself.  The directory [os.path.join(output_dir, uuid)]
    that [start] computes is not among the destinations: the outputs of the
    two samples of the example manifest all land in [out], not in [out/A]
    and [out/B]. *)
Theorem outputs_directly_under_output_dir :
  (forall (ext : Env) (fuel : nat) (inputs : Ns.t) (sample : option (list string))
          (od : option string) (suffix : string),
      Forall (fun s => od = Some s.1)
        (sinks (wf_trace (startToil ext fuel inputs sample od suffix).2)))
  /\ sinks (wf_trace (startToil happy_env 20 config0 None (Some "out") ".bqsr").2)
     = [("out", "A.raw.BOTH.bqsr.gvcf");
        ("out", "A.HAPSNP.vqsr.SNP.bqsr.vcf");
        ("out", "A.HAPSNP.vqsr.INDEL.bqsr.vcf");
        ("out", "B.raw.BOTH.bqsr.gvcf");
        ("out", "B.HAPSNP.vqsr.SNP.bqsr.vcf");
        ("out", "B.HAPSNP.vqsr.INDEL.bqsr.vcf")]
  /\ Py.os_path_join "out" "A" = "out/A"
  /\ Py.os_path_join "out" "B" = "out/B".
Proof.
  split.
  - intros ext fuel inputs sample od suffix. apply sink_to_sinks.
    unfold startToil.
    apply (run_job_inv ext (sink_to od) (carries_output_dir od)).
    + apply carries_output_dir_resolve.
    + apply exec_carries_output_dir.
    + intros o [= <-]. done.
    + constructor.
  - split; [by vm_compute|]. split; by vm_compute.
Qed.

(** ** Bindings of the dictionary of shared file ids *)

Lemma quiet_binds_fresh t : quiet t -> Forall binds_fresh t.
Proof.
  intros Hq. eapply Forall_impl; [exact Hq|]. intros e He. by destruct e.
Qed.

Lemma gvcf_name_endswith uuid suffix :
  Py.endswith (gvcf_name uuid suffix) ".gvcf" = true.
Proof.
  unfold Py.endswith, gvcf_name. apply bool_decide_eq_true_2.
  rewrite !chars_app. by do 3 apply suffix_app_r.
Qed.

Lemma gvcf_name_not_in (l : list string) uuid suffix :
  Forall (fun x => Py.endswith x ".gvcf" = false) l -> gvcf_name uuid suffix ∉ l.
Proof.
  intros HF Hin. rewrite Forall_forall in HF. specialize (HF _ Hin).
  by rewrite gvcf_name_endswith in HF.
Qed.

Lemma fresh_lookup (ids : gmap string Value) (f : JobFn) (k : string) :
  (forall k, is_Some (ids !! k) -> key_known f k) ->
  ~ key_known f k -> ids !! k = None.
Proof.
  intros H Hk. destruct (ids !! k) eqn:E; [|done]. exfalso. apply Hk, H. by rewrite E.
Qed.

Lemma key_known_mono (f f' : JobFn) (k : string) :
  known_keys f ⊆ known_keys f' ->
  (after_calling f = true -> after_calling f' = true) ->
  key_known f k -> key_known f' k.
Proof. intros Hl Ha [H|[H1 H2]]; [left; by apply Hl|right; auto]. Qed.

Lemma keys_known_resolve rvs j : keys_known j -> keys_known (resolve_job rvs j).
Proof.
  unfold keys_known, resolve_job. destruct j as [f c]. simpl. intros H ids Hids k Hk.
  destruct f; simpl in *; try discriminate; injection Hids as <-;
    rewrite lookup_fmap, fmap_is_Some in Hk; by apply (H _ eq_refl).
Qed.

(** A name that is not among the known ones. *)
Ltac unknown_key :=
  let H := fresh in
  intros [H|[H ?]];
  [ revert H; first
      [ apply gvcf_name_not_in; repeat constructor
      | apply (bool_decide_unpack (¬ _)); vm_compute; exact I ]
  | first [ discriminate H
          | match goal with H' : Py.endswith _ _ = true |- _ =>
              vm_compute in H'; discriminate H' end ] ].

Ltac known_key :=
  first
    [ left; apply (bool_decide_unpack _); vm_compute; exact I
    | right; split; [reflexivity|apply gvcf_name_endswith] ].

Ltac keys_solve Hj :=
  repeat match goal with
         | |- _ => progress cbn [trace children followOns jobStore files work_dir
                                 binds_fresh]
         | |- _ /\ _ => split
         | |- Forall _ (_ ++ _) => apply Forall_app_2
         | |- Forall _ (_ :: _) => apply Forall_cons_2
         | |- Forall _ [] => apply Forall_nil_2
         | |- Forall binds_fresh _ => by apply quiet_binds_fresh
         | |- True => exact I
         | H : sink_of ?e = Some _ |- binds_fresh ?e => by destruct e
         | |- _ !! _ = None =>
             rewrite ?lookup_insert_ne by done;
             first [ apply lookup_empty
                   | apply (fresh_lookup _ _ _ Hj); unknown_key ]
         | |- keys_known _ =>
             let k := fresh "k" in let Hk := fresh "Hk" in
             intros ? [= <-] k Hk;
             repeat (apply lookup_insert_is_Some in Hk as [<-|[_ Hk]]; [known_key|]);
             first [ by rewrite lookup_empty in Hk; destruct Hk
                   | apply Hj in Hk; revert Hk; apply key_known_mono;
                     [apply (bool_decide_unpack _); vm_compute; exact I
                     |cbn; done] ]
         | |- _ => assumption
         end.

Lemma exec_binds_fresh (ext : Env) (j : Job) (w : Workflow) :
  keys_known j -> Forall binds_fresh (wf_trace w) ->
  wp (exec ext j)
     (fun _ st' =>
        Forall binds_fresh (trace st')
        /\ Forall keys_known (children st')
        /\ Forall keys_known (followOns st'))
     (fun _ st' => Forall binds_fresh (trace st'))
     (enter ext w).
Proof.
  intros Hj Hw. destruct j as [f c]. destruct w as [js tr]. unfold enter. simpl in *.
  unfold keys_known in Hj. simpl in Hj.
  destruct f; unfold exec; cbn [job_fn fn]; try specialize (Hj _ eq_refl).
  - unfold download_url. repeat (wp_go; keys_solve Hj).
  - unfold batch_start. repeat (wp_go; keys_solve Hj).
  - unfold create_reference_index_hc. repeat (wp_go; keys_solve Hj).
  - unfold create_reference_dict_hc. repeat (wp_go; keys_solve Hj).
  - unfold spawn_batch_variant_calling. repeat (wp_go; keys_solve Hj).
    apply Forall_fmap, Forall_true. intros s. unfold compose. keys_solve Hj.
  - unfold start. repeat (wp_go; keys_solve Hj).
  - unfold index. repeat (wp_go; keys_solve Hj).
  - unfold haplotype_caller. repeat (wp_go; keys_solve Hj).
  - unfold genotype_gvcf. repeat (wp_go; keys_solve Hj).
  - unfold vqsr_snp. repeat (wp_go; keys_solve Hj).
  - unfold apply_vqsr_snp. repeat (wp_go; keys_solve Hj).
  - unfold vqsr_indel. repeat (wp_go; keys_solve Hj).
  - unfold apply_vqsr_indel. repeat (wp_go; keys_solve Hj).
Qed.

Lemma setitem_extends (ids : gmap string Value) (k : string) (v : Value) :
  binds_fresh (EvSetItem k (ids !! k) v) -> ids ⊆ <[k := v]> ids.
Proof. simpl. apply insert_subseteq. Qed.

(** C3: in every run, whatever the configuration, the manifest and the
    outcome of the tools, every assignment [ids[key] = v] made by a stage
    finds [key] unbound in the dictionary it assigns to, so the dictionary
    that is passed on extends the one received and no binding is ever
    replaced. *)
Theorem bindings_never_rebound (ext : Env) (fuel : nat) (inputs : Ns.t)
    (sample : option (list string)) (od : option string) (suffix : string) :
  Forall binds_fresh (wf_trace (startToil ext fuel inputs sample od suffix).2).
Proof.
  unfold startToil.
  apply (run_job_inv ext binds_fresh keys_known).
  - apply keys_known_resolve.
  - apply exec_binds_fresh.
  - intros ids [=].
  - constructor.
Qed.

Example bindings_of_one_sample :
  omap (fun e => match e with EvSetItem k old _ => Some (k, old) | _ => None end)
    (wf_trace (startToil happy_env 20 config0 (Some ["S1"; "u1"]) (Some "out") ".bqsr").2)
  = [("ref.fa", None); ("phase.vcf", None); ("omni.vcf", None); ("dbsnp.vcf", None);
     ("hapmap.vcf", None); ("mills.vcf", None); ("ref.fa.fai", None);
     ("ref.dict", None); ("toil.bam", None); ("toil.bam.bai", None);
     ("S1.raw.BOTH.bqsr.gvcf", None); ("unified.raw.BOTH.gatk.vcf", None);
     ("HAPSNP.recal", None); ("HAPSNP.tranches", None); ("HAPSNP.plots", None);
     ("HAPINDEL.recal", None); ("HAPINDEL.tranches", None); ("HAPINDEL.plots", None)].
Proof. by vm_compute. Qed.

(** ** A run in which every stage succeeds *)

Lemma has_files_mono ids l n m : has_files ids l n -> n <= m -> has_files ids l m.
Proof. intros H Hle f Hf. destruct (H f Hf) as (h & ? & ?). exists h. split; [done|lia]. Qed.

Lemma has_files_sub ids l l' n : has_files ids l n -> l' ⊆ l -> has_files ids l' n.
Proof. intros H Hs f Hf. apply H, Hs, Hf. Qed.

Lemma has_files_nil ids n : has_files ids [] n.
Proof. intros f Hf. by apply elem_of_nil in Hf. Qed.

Lemma has_files_insert ids l k h n :
  has_files ids l n -> h < n -> has_files (<[k := FileStoreID h]> ids) (k :: l) n.
Proof.
  intros H Hh f Hf. destruct (decide (k = f)) as [<-|Hne].
  - exists h. by rewrite lookup_insert_eq.
  - rewrite lookup_insert_ne by done. apply H.
    apply elem_of_cons in Hf as [->|Hf]; [done|exact Hf].
Qed.

Lemma has_files_resolve rvs ids l n :
  has_files ids l n -> has_files (resolve rvs <$> ids) l n.
Proof.
  intros H f Hf. destruct (H f Hf) as (h & Hl & ?). exists h.
  rewrite lookup_fmap, Hl. done.
Qed.

Section TotalRules.

Context {A : Type}.
Variables (ext : Env) (wd : string) (fl : gset string) (ch fo : list Job)
  (js : list string) (tr : list Event).
Hypothesis Hok : all_ok ext.

Lemma wp_readGlobalFile_ok h wd0 f (Q : string -> _) E :
  h < length js ->
  Q (Py.os_path_join wd0 f)
    (mkState wd ({[f]} ∪ fl) ch fo js (tr ++ [EvReadGlobalFile h f])) ->
  wp (readGlobalFile (FileStoreID h) wd0 f) Q E (mkState wd fl ch fo js tr).
Proof.
  intros Hh HQ. unfold wp, readGlobalFile. simpl.
  by rewrite bool_decide_eq_true_2 by done.
Qed.

Lemma wp_docker_call_ok wd0 env parameters tool inputs outputs (Q : unit -> _) E :
  Q tt (mkState wd (list_to_set outputs ∪ fl) ch fo js
          (tr ++ [EvDockerCall tool parameters])) ->
  wp (docker_call ext wd0 env parameters tool inputs outputs) Q E
     (mkState wd fl ch fo js tr).
Proof.
  intros HQ. unfold wp, docker_call. simpl.
  destruct Hok as (Hd & _). by rewrite Hd.
Qed.

Lemma wp_download_ok wd0 f url (Q : unit -> _) E :
  (forall e, is_quiet e = true ->
             Q tt (mkState wd ({[f]} ∪ fl) ch fo js (tr ++ [e]))) ->
  wp (if Py.startswith url "s3:" then download_from_s3_url ext wd0 f url
      else curl ext url wd0 f) Q E (mkState wd fl ch fo js tr).
Proof.
  intros HQ. destruct Hok as (_ & Hc & Hs).
  destruct (Py.startswith url "s3:"); unfold wp, download_from_s3_url, curl; simpl;
    rewrite ?Hc, ?Hs; by apply HQ.
Qed.

End TotalRules.

Lemma wp_read_from_filestore_hc_ok wd0 (ids : gmap string Value) (fs : list string)
    (Q : unit -> JobState -> Prop) E wd fl ch fo js tr :
  has_files ids fs (length js) ->
  (forall fl' tr', quiet tr' -> fl ⊆ fl' -> (forall f, f ∈ fs -> f ∈ fl') ->
                   Q tt (mkState wd fl' ch fo js (tr ++ tr'))) ->
  wp (read_from_filestore_hc wd0 ids fs) Q E (mkState wd fl ch fo js tr).
Proof.
  unfold read_from_filestore_hc. revert fl tr.
  induction fs as [|f fs IH]; intros fl tr Hh HQ.
  - simpl. apply wp_ret. rewrite <- (app_nil_r tr).
    apply HQ; [apply quiet_nil|done|]. intros f Hf. by apply elem_of_nil in Hf.
  - cbn [for_each]. apply wp_bind'. apply wp_bind, wp_os_path_exists.
    assert (Hfs : has_files ids fs (length js)).
    { eapply has_files_sub; [exact Hh|]. intros x Hx. by right. }
    case_bool_decide as Hin; cbn [negb].
    + apply wp_mret. apply IH; [done|]. intros fl' tr' Hq Hsub Hall.
      apply HQ; [done|done|]. intros g Hg.
      apply elem_of_cons in Hg as [->|Hg]; [by apply Hsub|by apply Hall].
    + destruct (Hh f) as (h & Hl & Hlt); [by left|].
      apply wp_bind, wp_getitem; [|by rewrite Hl]. intros v Hv.
      rewrite Hl in Hv. injection Hv as <-.
      apply wp_bind, wp_readGlobalFile_ok; [done|]. apply wp_mret.
      apply IH; [done|]. intros fl' tr' Hq Hsub Hall. rewrite <- app_assoc.
      apply HQ; [apply quiet_app; [by apply quiet_one|done]|set_solver|].
      intros g Hg. apply elem_of_cons in Hg as [->|Hg]; [set_solver|by apply Hall].
Qed.

Lemma wp_return_input_paths_ok wd0 (ids : gmap string Value) (f : string)
    (Q : list string -> JobState -> Prop) E wd fl ch fo js tr :
  has_files ids [f] (length js) ->
  (forall p fl' tr', quiet tr' -> fl ⊆ fl' -> f ∈ fl' ->
                     Q p (mkState wd fl' ch fo js (tr ++ tr'))) ->
  wp (return_input_paths wd0 ids [f]) Q E (mkState wd fl ch fo js tr).
Proof.
  intros Hh HQ. unfold return_input_paths. cbn [for_fold].
  apply wp_bind, wp_bind', wp_bind, wp_os_path_exists.
  case_bool_decide as Hin; cbn [negb].
  - apply wp_bind, wp_mret, wp_mret, wp_ret, wp_mret. rewrite <- (app_nil_r tr).
    apply HQ; [apply quiet_nil|done|done].
  - destruct (Hh f) as (h & Hl & Hlt); [by left|].
    apply wp_bind, wp_bind, wp_getitem; [|by rewrite Hl]. intros v Hv.
    rewrite Hl in Hv. injection Hv as <-.
    apply wp_readGlobalFile_ok; [done|]. apply wp_mret, wp_ret, wp_mret.
    apply HQ; [by apply quiet_one|set_solver|set_solver].
Qed.

Lemma sinks_app t1 t2 : sinks (t1 ++ t2) = sinks t1 ++ sinks t2.
Proof. unfold sinks. apply omap_app. Qed.

Lemma sinks_one e x : sink_of e = Some x -> sinks [e] = [x].
Proof. intros H. unfold sinks. simpl. by rewrite H. Qed.

Lemma sinks_none e : sink_of e = None -> sinks [e] = [].
Proof. intros H. unfold sinks. simpl. by rewrite H. Qed.

(** The sinks of a trace that was built step by step. *)
Ltac sinks_solve :=
  cbn [trace];
  repeat rewrite sinks_app;
  repeat match goal with
         | H : quiet ?t |- context [sinks ?t] => rewrite (quiet_sinks t H)
         | H : sink_of ?e = Some _ |- context [sinks [?e]] => rewrite (sinks_one e _ H)
         | H : is_quiet ?e = true |- context [sinks [?e]] =>
             rewrite (quiet_sinks [e] (quiet_one e H))
         | |- context [sinks [?e]] => rewrite (sinks_none e eq_refl)
         end;
  rewrite ?app_nil_r, <- ?app_assoc; try reflexivity.

(** Stepping through a job function whose collaborators all succeed. *)
Ltac wp_tot Hok :=
  cbv beta zeta iota;
  lazymatch goal with
  | |- wp (mbind _ _) _ _ _ => apply wp_bind
  | |- wp (bind _ _) _ _ _ => apply wp_bind'
  | |- wp (ret _) _ _ _ => apply wp_ret
  | |- wp (mret _) _ _ _ => apply wp_mret
  | |- wp getLocalTempDir _ _ _ => apply wp_getLocalTempDir
  | |- wp (os_path_exists _ _) _ _ _ => apply wp_os_path_exists
  | |- wp (setitem _ _ _) _ _ _ => apply wp_setitem
  | |- wp (addChildJobFn _ _) _ _ _ => apply wp_addChildJobFn
  | |- wp (addFollowOnJobFn _ _) _ _ _ => apply wp_addFollowOnJobFn
  | |- wp (writeGlobalFile _ _) _ _ _ =>
      apply wp_writeGlobalFile;
      [intros _|let Hn := fresh in intros Hn; apply Hn; set_solver]
  | |- wp (upload_or_move_hc _ _ _ _) _ _ _ =>
      apply wp_upload_or_move_hc;
      [intros _ ? ? ? ? ?|let Hn := fresh in intros Hn; exfalso; apply Hn; set_solver]
  | |- wp (read_from_filestore_hc _ _ _) _ _ _ =>
      apply wp_read_from_filestore_hc_ok; [|intros ? ? ? ? ?]
  | |- wp (return_input_paths _ _ _) _ _ _ =>
      apply wp_return_input_paths_ok; [|intros ? ? ? ? ? ?]
  | |- wp (docker_call _ _ _ _ _ _ _) _ _ _ => apply (wp_docker_call_ok _ _ _ _ _ _ _ Hok)
  | |- wp (try_except_reraise _ _) _ _ _ => apply wp_try_except_reraise
  | |- wp (for_fold (_ :: _) _ _) _ _ _ => apply wp_for_fold_cons
  | |- wp (for_fold [] _ _) _ _ _ => apply wp_for_fold_nil
  | |- wp (write_to_filestore _ _ _) _ _ _ => unfold write_to_filestore
  end.

Section Stages.

Variable ext : Env.
Hypothesis Hok : all_ok ext.
Variables (ids : gmap string Value) (a : Ns.t) (uuid d : string).
Variables (js : list string) (tr : list Event).
Hypothesis Huuid : Ns.uuid a = Some uuid.
Hypothesis Hdir : Ns.output_dir a = Some d.

Lemma apply_vqsr_snp_ok :
  has_files ids apply_vqsr_snp_input_files (length js) ->
  wp (apply_vqsr_snp ext ids a)
     (fun _ st' =>
        children st' = [] /\ followOns st' = [] /\ jobStore st' = js
        /\ sinks (trace st') = sinks tr ++ [(d, snp_vcf_name uuid (Ns.suffix a))])
     no_failure (mkState (temp_dir ext) ∅ [] [] js tr).
Proof.
  intros Hf. unfold apply_vqsr_snp. rewrite Huuid, Hdir. cbn [attr].
  repeat (wp_tot Hok; try done). repeat split. sinks_solve.
Qed.

Lemma apply_vqsr_indel_ok :
  has_files ids apply_vqsr_indel_input_files (length js) ->
  wp (apply_vqsr_indel ext ids a)
     (fun _ st' =>
        children st' = [] /\ followOns st' = [] /\ jobStore st' = js
        /\ sinks (trace st') = sinks tr ++ [(d, indel_vcf_name uuid (Ns.suffix a))])
     no_failure (mkState (temp_dir ext) ∅ [] [] js tr).
Proof.
  intros Hf. unfold apply_vqsr_indel. rewrite Huuid, Hdir. cbn [attr].
  repeat (wp_tot Hok; try done). repeat split. sinks_solve.
Qed.

Lemma vqsr_snp_ok :
  has_files ids vqsr_snp_input_files (length js) ->
  wp (vqsr_snp ext ids a)
     (fun _ st' =>
        children st'
        = [mkJob (J_apply_vqsr_snp
                    (<["HAPSNP.plots" := FileStoreID (S (S (length js)))]>
                       (<["HAPSNP.tranches" := FileStoreID (S (length js))]>
                          (<["HAPSNP.recal" := FileStoreID (length js)]> ids))) a)
                 None]
        /\ followOns st' = []
        /\ jobStore st' = js ++ ["HAPSNP.recal"; "HAPSNP.tranches"; "HAPSNP.plots"]
        /\ sinks (trace st') = sinks tr)
     no_failure (mkState (temp_dir ext) ∅ [] [] js tr).
Proof.
  clear Huuid Hdir. intros Hf. unfold vqsr_snp.
  repeat (wp_tot Hok; try done). rewrite !length_app. cbn [length].
  replace (length js + 1) with (S (length js)) by lia.
  replace (S (length js) + 1) with (S (S (length js))) by lia.
  rewrite <- !app_assoc. repeat split. sinks_solve.
Qed.

Lemma vqsr_indel_ok :
  has_files ids vqsr_indel_input_files (length js) ->
  wp (vqsr_indel ext ids a)
     (fun _ st' =>
        children st'
        = [mkJob (J_apply_vqsr_indel
                    (<["HAPINDEL.plots" := FileStoreID (S (S (length js)))]>
                       (<["HAPINDEL.tranches" := FileStoreID (S (length js))]>
                          (<["HAPINDEL.recal" := FileStoreID (length js)]> ids))) a)
                 None]
        /\ followOns st' = []
        /\ jobStore st' = js ++ ["HAPINDEL.recal"; "HAPINDEL.tranches"; "HAPINDEL.plots"]
        /\ sinks (trace st') = sinks tr)
     no_failure (mkState (temp_dir ext) ∅ [] [] js tr).
Proof.
  clear Huuid Hdir. intros Hf. unfold vqsr_indel.
  repeat (wp_tot Hok; try done). rewrite !length_app. cbn [length].
  replace (length js + 1) with (S (length js)) by lia.
  replace (S (length js) + 1) with (S (S (length js))) by lia.
  rewrite <- !app_assoc. repeat split. sinks_solve.
Qed.

Lemma genotype_gvcf_ok :
  has_files ids (genotype_gvcf_input_files uuid (Ns.suffix a)) (length js) ->
  wp (genotype_gvcf ext ids a)
     (fun _ st' =>
        let ids' := <["unified.raw.BOTH.gatk.vcf" := FileStoreID (length js)]> ids in
        children st'
        = [mkJob (J_vqsr_snp ids' a) (Some (Ns.cpu_count a));
           mkJob (J_vqsr_indel ids' a) (Some (Ns.cpu_count a))]
        /\ followOns st' = []
        /\ jobStore st' = js ++ ["unified.raw.BOTH.gatk.vcf"]
        /\ sinks (trace st') = sinks tr)
     no_failure (mkState (temp_dir ext) ∅ [] [] js tr).
Proof.
  clear Hdir. intros Hf. unfold genotype_gvcf. rewrite Huuid. cbn [attr].
  repeat (wp_tot Hok; try done). repeat split. sinks_solve.
Qed.

Lemma haplotype_caller_ok :
  has_files ids haplotype_caller_input_files (length js) ->
  wp (haplotype_caller ext ids a)
     (fun _ st' =>
        children st'
        = [mkJob (J_genotype_gvcf
                    (<[gvcf_name uuid (Ns.suffix a) := FileStoreID (length js)]> ids) a)
                 (Some (Ns.cpu_count a))]
        /\ followOns st' = []
        /\ jobStore st' = js ++ [gvcf_name uuid (Ns.suffix a)]
        /\ sinks (trace st') = sinks tr ++ [(d, gvcf_name uuid (Ns.suffix a))])
     no_failure (mkState (temp_dir ext) ∅ [] [] js tr).
Proof.
  intros Hf. unfold haplotype_caller. rewrite Huuid, Hdir. cbn [attr].
  repeat (wp_tot Hok; try done). repeat split. sinks_solve.
Qed.

End Stages.

Section MoreStages.

Variable ext : Env.
Hypothesis Hok : all_ok ext.
Variables (ids : gmap string Value) (a : Ns.t).
Variables (js : list string) (tr : list Event).

Lemma download_url_ok (url filename : string) :
  wp (download_url ext url filename)
     (fun rv st' =>
        rv = FileStoreID (length js)
        /\ children st' = [] /\ followOns st' = []
        /\ jobStore st' = js ++ [filename]
        /\ sinks (trace st') = sinks tr)
     no_failure (mkState (temp_dir ext) ∅ [] [] js tr).
Proof.
  unfold download_url. do 4 (wp_tot Hok).
  rewrite bool_decide_eq_false_2 by set_solver. cbn [negb].
  apply wp_bind, (wp_download_ok ext _ _ _ _ _ _ Hok). intros e He.
  do 2 (wp_tot Hok). rewrite bool_decide_eq_true_2 by set_solver.
  repeat (wp_tot Hok; try done). repeat split. sinks_solve.
Qed.

Lemma index_ok :
  has_files ids ["toil.bam"] (length js) ->
  wp (index ext ids a)
     (fun _ st' =>
        children st'
        = [mkJob (J_haplotype_caller
                    (<["toil.bam.bai" := FileStoreID (length js)]> ids) a)
                 (Some (Ns.cpu_count a))]
        /\ followOns st' = []
        /\ jobStore st' = js ++ ["toil.bam.bai"]
        /\ sinks (trace st') = sinks tr)
     no_failure (mkState (temp_dir ext) ∅ [] [] js tr).
Proof.
  intros Hf. unfold index.
  repeat (wp_tot Hok; try done). repeat split. sinks_solve.
Qed.

Lemma create_reference_index_hc_ok :
  has_files ids ["ref.fa"] (length js) ->
  wp (create_reference_index_hc ext ids a)
     (fun _ st' =>
        children st'
        = [mkJob (J_create_reference_dict_hc
                    (<["ref.fa.fai" := FileStoreID (length js)]> ids) a) None]
        /\ followOns st' = []
        /\ jobStore st' = js ++ ["ref.fa.fai"]
        /\ sinks (trace st') = sinks tr)
     no_failure (mkState (temp_dir ext) ∅ [] [] js tr).
Proof.
  intros Hf. unfold create_reference_index_hc.
  repeat (wp_tot Hok; try done). repeat split. sinks_solve.
Qed.

Lemma create_reference_dict_hc_ok :
  has_files ids ["ref.fa"] (length js) ->
  wp (create_reference_dict_hc ext ids a)
     (fun _ st' =>
        children st'
        = [mkJob (J_spawn_batch_variant_calling
                    (<["ref.dict" := FileStoreID (length js)]> ids) a) None]
        /\ followOns st' = []
        /\ jobStore st' = js ++ ["ref.dict"]
        /\ sinks (trace st') = sinks tr)
     no_failure (mkState (temp_dir ext) ∅ [] [] js tr).
Proof.
  intros Hf. unfold create_reference_dict_hc.
  repeat (wp_tot Hok; try done). repeat split. sinks_solve.
Qed.

Lemma spawn_batch_variant_calling_ok (uuid url : string) :
  Ns.sample a = Some [uuid; url] ->
  wp (spawn_batch_variant_calling ext ids a)
     (fun _ st' =>
        children st' = [mkJob (J_start ids a [uuid; url]) None]
        /\ followOns st' = []
        /\ jobStore st' = js
        /\ sinks (trace st') = sinks tr)
     no_failure (mkState (temp_dir ext) ∅ [] [] js tr).
Proof.
  intros Hs. unfold spawn_batch_variant_calling. rewrite Hs.
  repeat (wp_tot Hok; try done).
Qed.

Lemma batch_start_ok (sample : option (list string)) (od : option string)
    (suffix : string) :
  wp (batch_start a sample od suffix)
     (fun _ st' =>
        let a' := Ns.set_suffix suffix (Ns.set_output_dir od (Ns.set_sample sample a)) in
        children st'
        = [mkJob (J_download_url (Ns.ref a) "ref.fa") None;
           mkJob (J_download_url (Ns.phase a) "phase.vcf") None;
           mkJob (J_download_url (Ns.omni a) "omni.vcf") None;
           mkJob (J_download_url (Ns.dbsnp a) "dbsnp.vcf") None;
           mkJob (J_download_url (Ns.hapmap a) "hapmap.vcf") None;
           mkJob (J_download_url (Ns.mills a) "mills.vcf") None]
        /\ followOns st'
           = [mkJob (J_create_reference_index_hc
                       (<["mills.vcf" := Promise 5]>
                          (<["hapmap.vcf" := Promise 4]>
                             (<["dbsnp.vcf" := Promise 3]>
                                (<["omni.vcf" := Promise 2]>
                                   (<["phase.vcf" := Promise 1]>
                                      (<["ref.fa" := Promise 0]> ∅))))))
                       a') None]
        /\ jobStore st' = js
        /\ sinks (trace st') = sinks tr)
     no_failure (mkState (temp_dir ext) ∅ [] [] js tr).
Proof.
  unfold batch_start.
  repeat first [wp_tot Hok | progress cbn [zip_with]].
  cbn [children followOns jobStore]. repeat split. sinks_solve.
Qed.

End MoreStages.

(** ** The run of a sample, job by job *)

Lemma exec_stage (ext : Env) (f : JobFn) (c : option nat) (stage : M Ns.t)
    (Q : Ns.t -> JobState -> Prop) (st : JobState) :
  job_fn ext f = inl stage ->
  wp stage Q no_failure st ->
  exists a' st', exec ext (mkJob f c) st = (Ok PyNone, st') /\ Q a' st'.
Proof.
  intros Hf Hw. destruct (wp_ok _ _ _ Hw) as (a' & st' & He & HQ).
  exists a', st'. split; [|done].
  unfold exec. cbn [fn]. rewrite Hf. unfold mbind, M_bind, bind. by rewrite He.
Qed.

Lemma complete_all_nil ext fuel w : complete_all ext fuel [] w [].
Proof. exists [], w. rewrite app_nil_r. by repeat split. Qed.

Lemma complete_all_cons ext fuel j js w p1 p2 :
  completes ext fuel j w p1 ->
  (forall w1,
      sinks (wf_trace w1) = sinks (wf_trace w) ++ p1 ->
      length (wf_store w) <= length (wf_store w1) ->
      complete_all ext fuel js w1 p2) ->
  complete_all ext fuel (j :: js) w (p1 ++ p2).
Proof.
  intros (rv & w1 & Hr & Hs & Hl) Hrest.
  destruct (Hrest w1 Hs Hl) as (rvs & w2 & Hr2 & Hs2 & Hl2).
  exists (rv :: rvs), w2. cbn [run_all]. rewrite Hr, Hr2.
  split; [done|]. split; [|lia]. by rewrite Hs2, Hs, app_assoc.
Qed.

Lemma completes_children ext fuel j w st rv p0 p :
  exec ext j (enter ext w) = (Ok rv, st) ->
  followOns st = [] ->
  sinks (trace st) = sinks (wf_trace w) ++ p0 ->
  length (wf_store w) <= length (jobStore st) ->
  complete_all ext fuel (children st) (leave st) p ->
  completes ext (S fuel) j w (p0 ++ p).
Proof.
  intros He Hfo Hs Hl (rvs & w1 & Hr & Hs1 & Hl1).
  exists rv, w1. cbn [run_job]. rewrite He, Hr, Hfo. cbn [fmap list_fmap run_all].
  split; [done|]. cbn [leave wf_trace wf_store] in *.
  split; [|lia]. by rewrite Hs1, Hs, app_assoc.
Qed.

(** Inclusion of a list of names in another. *)
Ltac sub_tac :=
  let x := fresh "x" in let Hx := fresh "Hx" in
  intros x Hx;
  repeat (apply elem_of_cons in Hx as [->|Hx]);
  try (by apply elem_of_nil in Hx);
  repeat first [apply list_elem_of_here | apply list_elem_of_further].

Section Sample.

Variable ext : Env.
Hypothesis Hok : all_ok ext.
Variables (a : Ns.t) (uuid d : string).
Hypothesis Huuid : Ns.uuid a = Some uuid.
Hypothesis Hdir : Ns.output_dir a = Some d.

Lemma completes_apply_vqsr_snp fuel ids c w :
  has_files ids apply_vqsr_snp_input_files (length (wf_store w)) ->
  completes ext (S fuel) (mkJob (J_apply_vqsr_snp ids a) c) w
    [(d, snp_vcf_name uuid (Ns.suffix a))].
Proof.
  intros Hf. destruct w as [js tr].
  destruct (exec_stage ext (J_apply_vqsr_snp ids a) c _ _ _ eq_refl
              (apply_vqsr_snp_ok ext Hok ids a uuid d js tr Huuid Hdir Hf))
    as (a' & st & He & Hch & Hfo & Hjs & Hs).
  rewrite <- (app_nil_r [_]).
  eapply completes_children; [exact He|done|exact Hs|by rewrite Hjs|].
  rewrite Hch. apply complete_all_nil.
Qed.

Lemma completes_apply_vqsr_indel fuel ids c w :
  has_files ids apply_vqsr_indel_input_files (length (wf_store w)) ->
  completes ext (S fuel) (mkJob (J_apply_vqsr_indel ids a) c) w
    [(d, indel_vcf_name uuid (Ns.suffix a))].
Proof.
  intros Hf. destruct w as [js tr].
  destruct (exec_stage ext (J_apply_vqsr_indel ids a) c _ _ _ eq_refl
              (apply_vqsr_indel_ok ext Hok ids a uuid d js tr Huuid Hdir Hf))
    as (a' & st & He & Hch & Hfo & Hjs & Hs).
  rewrite <- (app_nil_r [_]).
  eapply completes_children; [exact He|done|exact Hs|by rewrite Hjs|].
  rewrite Hch. apply complete_all_nil.
Qed.

Lemma completes_vqsr_snp fuel ids c w :
  has_files ids (keys_vqsr uuid (Ns.suffix a)) (length (wf_store w)) ->
  completes ext (S (S fuel)) (mkJob (J_vqsr_snp ids a) c) w
    [(d, snp_vcf_name uuid (Ns.suffix a))].
Proof.
  intros Hf. destruct w as [js tr]. cbn [wf_store] in Hf.
  assert (Hin : has_files ids vqsr_snp_input_files (length js)).
  { eapply has_files_sub; [exact Hf|]. sub_tac. }
  destruct (exec_stage ext (J_vqsr_snp ids a) c _ _ _ eq_refl
              (vqsr_snp_ok ext Hok ids a js tr Hin))
    as (a' & st & He & Hch & Hfo & Hjs & Hs).
  change [(d, snp_vcf_name uuid (Ns.suffix a))]
    with ([] ++ [(d, snp_vcf_name uuid (Ns.suffix a))] ++ []).
  eapply completes_children; [exact He|done|by rewrite Hs, app_nil_r| |].
  { rewrite Hjs, length_app. cbn. lia. }
  rewrite Hch. apply complete_all_cons; [|intros; apply complete_all_nil].
  apply completes_apply_vqsr_snp. cbn [leave wf_store]. rewrite Hjs.
  eapply has_files_sub; [|shelve].
  do 3 (apply has_files_insert; [|rewrite length_app; cbn; lia]).
  eapply has_files_mono; [exact Hf|]. rewrite length_app. cbn. lia.
  Unshelve. sub_tac.
Qed.

Lemma completes_vqsr_indel fuel ids c w :
  has_files ids (keys_vqsr uuid (Ns.suffix a)) (length (wf_store w)) ->
  completes ext (S (S fuel)) (mkJob (J_vqsr_indel ids a) c) w
    [(d, indel_vcf_name uuid (Ns.suffix a))].
Proof.
  intros Hf. destruct w as [js tr]. cbn [wf_store] in Hf.
  assert (Hin : has_files ids vqsr_indel_input_files (length js)).
  { eapply has_files_sub; [exact Hf|]. sub_tac. }
  destruct (exec_stage ext (J_vqsr_indel ids a) c _ _ _ eq_refl
              (vqsr_indel_ok ext Hok ids a js tr Hin))
    as (a' & st & He & Hch & Hfo & Hjs & Hs).
  change [(d, indel_vcf_name uuid (Ns.suffix a))]
    with ([] ++ [(d, indel_vcf_name uuid (Ns.suffix a))] ++ []).
  eapply completes_children; [exact He|done|by rewrite Hs, app_nil_r| |].
  { rewrite Hjs, length_app. cbn. lia. }
  rewrite Hch. apply complete_all_cons; [|intros; apply complete_all_nil].
  apply completes_apply_vqsr_indel. cbn [leave wf_store]. rewrite Hjs.
  eapply has_files_sub; [|shelve].
  do 3 (apply has_files_insert; [|rewrite length_app; cbn; lia]).
  eapply has_files_mono; [exact Hf|]. rewrite length_app. cbn. lia.
  Unshelve. sub_tac.
Qed.

Lemma completes_genotype_gvcf fuel ids c w :
  has_files ids (keys_genotype uuid (Ns.suffix a)) (length (wf_store w)) ->
  completes ext (S (S (S fuel))) (mkJob (J_genotype_gvcf ids a) c) w
    [(d, snp_vcf_name uuid (Ns.suffix a)); (d, indel_vcf_name uuid (Ns.suffix a))].
Proof.
  intros Hf. destruct w as [js tr]. cbn [wf_store] in Hf.
  assert (Hin : has_files ids (genotype_gvcf_input_files uuid (Ns.suffix a))
                  (length js)).
  { eapply has_files_sub; [exact Hf|]. sub_tac. }
  destruct (exec_stage ext (J_genotype_gvcf ids a) c _ _ _ eq_refl
              (genotype_gvcf_ok ext Hok ids a uuid js tr Huuid Hin))
    as (a' & st & He & Hch & Hfo & Hjs & Hs).
  cbv zeta in Hch.
  change [(d, snp_vcf_name uuid (Ns.suffix a)); (d, indel_vcf_name uuid (Ns.suffix a))]
    with ([] ++ [(d, snp_vcf_name uuid (Ns.suffix a))]
             ++ [(d, indel_vcf_name uuid (Ns.suffix a))] ++ []).
  eapply completes_children; [exact He|done|by rewrite Hs, app_nil_r| |].
  { rewrite Hjs, length_app. cbn. lia. }
  assert (Hf' : has_files
                  (<["unified.raw.BOTH.gatk.vcf" := FileStoreID (length js)]> ids)
                  (keys_vqsr uuid (Ns.suffix a)) (length (jobStore st))).
  { rewrite Hjs. apply has_files_insert; [|rewrite length_app; cbn; lia].
    eapply has_files_mono; [exact Hf|]. rewrite length_app. cbn. lia. }
  rewrite Hch. apply complete_all_cons.
  - by apply completes_vqsr_snp.
  - intros w1 _ Hl1. apply complete_all_cons; [|intros; apply complete_all_nil].
    apply completes_vqsr_indel. eapply has_files_mono; [exact Hf'|exact Hl1].
Qed.

Lemma completes_haplotype_caller fuel ids c w :
  has_files ids keys_hc (length (wf_store w)) ->
  completes ext (S (S (S (S fuel)))) (mkJob (J_haplotype_caller ids a) c) w
    [(d, gvcf_name uuid (Ns.suffix a));
     (d, snp_vcf_name uuid (Ns.suffix a)); (d, indel_vcf_name uuid (Ns.suffix a))].
Proof.
  intros Hf. destruct w as [js tr]. cbn [wf_store] in Hf.
  assert (Hin : has_files ids haplotype_caller_input_files (length js)).
  { eapply has_files_sub; [exact Hf|]. sub_tac. }
  destruct (exec_stage ext (J_haplotype_caller ids a) c _ _ _ eq_refl
              (haplotype_caller_ok ext Hok ids a uuid d js tr Huuid Hdir Hin))
    as (a' & st & He & Hch & Hfo & Hjs & Hs).
  change [(d, gvcf_name uuid (Ns.suffix a));
          (d, snp_vcf_name uuid (Ns.suffix a)); (d, indel_vcf_name uuid (Ns.suffix a))]
    with ([(d, gvcf_name uuid (Ns.suffix a))]
            ++ [(d, snp_vcf_name uuid (Ns.suffix a));
                (d, indel_vcf_name uuid (Ns.suffix a))] ++ []).
  eapply completes_children; [exact He|done|exact Hs| |].
  { rewrite Hjs, length_app. cbn. lia. }
  rewrite Hch. apply complete_all_cons; [|intros; apply complete_all_nil].
  apply completes_genotype_gvcf. cbn [leave wf_store]. rewrite Hjs.
  apply has_files_insert; [|rewrite length_app; cbn; lia].
  eapply has_files_mono; [exact Hf|]. rewrite length_app. cbn. lia.
Qed.

Lemma completes_index fuel ids c w :
  has_files ids ("toil.bam" :: keys_start) (length (wf_store w)) ->
  completes ext (S (S (S (S (S fuel))))) (mkJob (J_index ids a) c) w
    [(d, gvcf_name uuid (Ns.suffix a));
     (d, snp_vcf_name uuid (Ns.suffix a)); (d, indel_vcf_name uuid (Ns.suffix a))].
Proof.
  intros Hf. destruct w as [js tr]. cbn [wf_store] in Hf.
  assert (Hin : has_files ids ["toil.bam"] (length js)).
  { eapply has_files_sub; [exact Hf|]. sub_tac. }
  destruct (exec_stage ext (J_index ids a) c _ _ _ eq_refl
              (index_ok ext Hok ids a js tr Hin))
    as (a' & st & He & Hch & Hfo & Hjs & Hs).
  change [(d, gvcf_name uuid (Ns.suffix a));
          (d, snp_vcf_name uuid (Ns.suffix a)); (d, indel_vcf_name uuid (Ns.suffix a))]
    with ([] ++ [(d, gvcf_name uuid (Ns.suffix a));
                 (d, snp_vcf_name uuid (Ns.suffix a));
                 (d, indel_vcf_name uuid (Ns.suffix a))] ++ []).
  eapply completes_children; [exact He|done|by rewrite Hs, app_nil_r| |].
  { rewrite Hjs, length_app. cbn. lia. }
  rewrite Hch. apply complete_all_cons; [|intros; apply complete_all_nil].
  apply completes_haplotype_caller. cbn [leave wf_store]. rewrite Hjs.
  apply has_files_insert; [|rewrite length_app; cbn; lia].
  eapply has_files_mono; [exact Hf|]. rewrite length_app. cbn. lia.
Qed.

End Sample.

Lemma run_job_S ext fuel j w :
  run_job ext (S fuel) j w
  = match exec ext j (enter ext w) with
    | (Raise e, st) => (Raise e, leave st)
    | (Ok rv, st) =>
        match run_all (run_job ext fuel) (children st) (leave st) with
        | (Raise e, w1) => (Raise e, w1)
        | (Ok rvs, w1) =>
            match run_all (run_job ext fuel) (resolve_job rvs <$> followOns st) w1 with
            | (Raise e, w2) => (Raise e, w2)
            | (Ok _, w2) => (Ok rv, w2)
            end
        end
    end.
Proof. reflexivity. Qed.

Lemma completes_with_followOns ext fuel j w st rv rvs w1 p :
  exec ext j (enter ext w) = (Ok rv, st) ->
  run_all (run_job ext fuel) (children st) (leave st) = (Ok rvs, w1) ->
  sinks (wf_trace w1) = sinks (wf_trace w) ->
  length (wf_store w) <= length (wf_store w1) ->
  complete_all ext fuel (resolve_job rvs <$> followOns st) w1 p ->
  completes ext (S fuel) j w p.
Proof.
  intros He Hr Hs Hl (vs & w2 & Hr2 & Hs2 & Hl2).
  exists rv, w2. rewrite run_job_S, He, Hr, Hr2.
  split; [done|]. split; [|lia]. by rewrite Hs2, Hs.
Qed.

Lemma resolve_promise rvs k v : rvs !! k = Some v -> resolve rvs (Promise k) = v.
Proof. intros H. simpl. by rewrite H. Qed.

Section Downloads.

Variable ext : Env.
Hypothesis Hok : all_ok ext.

Lemma run_download fuel url f c w :
  exists tr',
    run_job ext (S fuel) (mkJob (J_download_url url f) c) w
    = (Ok (FileStoreID (length (wf_store w))), mkWorkflow (wf_store w ++ [f]) tr')
    /\ sinks tr' = sinks (wf_trace w).
Proof.
  destruct w as [js tr].
  destruct (wp_ok _ _ _ (download_url_ok ext Hok js tr url f))
    as (rv & [wd fl ch fo js' tr'] & He & -> & Hch & Hfo & Hjs & Hs).
  cbn [children followOns jobStore trace] in *. subst.
  exists tr'. rewrite run_job_S. unfold exec. cbn [fn job_fn].
  unfold enter. cbn [wf_store wf_trace]. rewrite He.
  cbn [children followOns leave jobStore trace fmap list_fmap run_all]. done.
Qed.

Lemma run_downloads fuel (l : list (string * string)) w :
  exists tr',
    run_all (run_job ext (S fuel)) (downloads l) w
    = (Ok (ids_from (length (wf_store w)) (length l)),
       mkWorkflow (wf_store w ++ l.*2) tr')
    /\ sinks tr' = sinks (wf_trace w).
Proof.
  revert w. induction l as [|[url f] l IH]; intros w.
  - exists (wf_trace w). destruct w. cbn. by rewrite app_nil_r.
  - destruct (run_download fuel url f None w) as (tr1 & Hr1 & Hs1).
    destruct (IH (mkWorkflow (wf_store w ++ [f]) tr1)) as (tr2 & Hr2 & Hs2).
    exists tr2. unfold downloads in *. cbn [fmap list_fmap run_all fst snd].
    rewrite Hr1, Hr2. cbn [wf_store wf_trace length ids_from] in *.
    rewrite length_app, Nat.add_1_r, <- app_assoc. cbn [length]. split; [done|].
    by rewrite Hs2.
Qed.

End Downloads.

Section Start.

Variable ext : Env.
Hypothesis Hok : all_ok ext.

Lemma completes_start (a0 : Ns.t) (uuid url d : string) fuel ids c w :
  Ns.output_dir a0 = Some d ->
  Ns.ssec a0 = None ->
  has_files ids keys_start (length (wf_store w)) ->
  completes ext (S (S (S (S (S (S fuel)))))) (mkJob (J_start ids a0 [uuid; url]) c) w
    [(d, gvcf_name uuid (Ns.suffix a0));
     (d, snp_vcf_name uuid (Ns.suffix a0)); (d, indel_vcf_name uuid (Ns.suffix a0))].
Proof.
  intros Hd Hs Hf. destruct w as [js tr]. cbn [wf_store] in Hf.
  set (a' := Ns.set_bam_url (Some url) (Ns.set_uuid (Some uuid) a0)).
  pose proof (start_eq ids a0 uuid url d (temp_dir ext) ∅ [] [] js tr Hd) as Hst.
  cbv zeta in Hst. rewrite Hs in Hst. fold a' in Hst.
  destruct (Ns.indexed a0).
  - destruct (run_downloads ext Hok (S (S (S (S fuel))))
                [(url, "toil.bam"); (url +:+ ".bai", "toil.bam.bai")]
                (mkWorkflow js
                   ((tr ++ [EvSetItem "toil.bam" (ids !! "toil.bam") (Promise 0)])
                    ++ [EvSetItem "toil.bam.bai"
                          (<["toil.bam" := Promise 0]> ids !! "toil.bam.bai")
                          (Promise 1)])))
      as (tr1 & Hr & Hs1).
    eapply completes_with_followOns.
    + unfold exec. cbn [fn job_fn]. unfold mbind, M_bind, bind, enter.
      cbn [wf_store wf_trace]. rewrite Hst. reflexivity.
    + exact Hr.
    + cbn [wf_trace] in *. rewrite Hs1. sinks_solve.
    + cbn [wf_store]. rewrite length_app. lia.
    + cbn [followOns fmap list_fmap resolve_job resolve_fn fn cores app length
             ids_from wf_store].
      rewrite <- (app_nil_r [_; _; _]).
      apply complete_all_cons; [|intros; apply complete_all_nil].
      apply (completes_haplotype_caller ext Hok a' uuid d eq_refl Hd).
      cbn [wf_store]. rewrite !fmap_insert.
      rewrite (resolve_promise _ 1 (FileStoreID (S (length js)))) by reflexivity.
      rewrite (resolve_promise _ 0 (FileStoreID (length js))) by reflexivity.
      apply has_files_insert; [|rewrite length_app; cbn; lia].
      apply has_files_insert; [|rewrite length_app; cbn; lia].
      apply has_files_resolve. eapply has_files_mono; [exact Hf|].
      rewrite length_app. lia.
  - destruct (run_downloads ext Hok (S (S (S (S fuel)))) [(url, "toil.bam")]
                (mkWorkflow js
                   (tr ++ [EvSetItem "toil.bam" (ids !! "toil.bam") (Promise 0)])))
      as (tr1 & Hr & Hs1).
    eapply completes_with_followOns.
    + unfold exec. cbn [fn job_fn]. unfold mbind, M_bind, bind, enter.
      cbn [wf_store wf_trace]. rewrite Hst. reflexivity.
    + exact Hr.
    + cbn [wf_trace] in *. rewrite Hs1. sinks_solve.
    + cbn [wf_store]. rewrite length_app. lia.
    + cbn [followOns fmap list_fmap resolve_job resolve_fn fn cores app length
             ids_from wf_store].
      rewrite <- (app_nil_r [_; _; _]).
      apply complete_all_cons; [|intros; apply complete_all_nil].
      apply (completes_index ext Hok a' uuid d eq_refl Hd).
      cbn [wf_store]. rewrite !fmap_insert.
      rewrite (resolve_promise _ 0 (FileStoreID (length js))) by reflexivity.
      apply has_files_insert; [|rewrite length_app; cbn; lia].
      apply has_files_resolve. eapply has_files_mono; [exact Hf|].
      rewrite length_app. lia.
Qed.

End Start.
Section Upper.

Variable ext : Env.
Hypothesis Hok : all_ok ext.
Variables (a : Ns.t) (uuid url d : string).
Hypothesis Hsample : Ns.sample a = Some [uuid; url].
Hypothesis Hdir : Ns.output_dir a = Some d.
Hypothesis Hssec : Ns.ssec a = None.

Lemma completes_spawn_batch_variant_calling fuel ids c w :
  has_files ids keys_start (length (wf_store w)) ->
  completes ext (S (S (S (S (S (S (S fuel)))))))
    (mkJob (J_spawn_batch_variant_calling ids a) c) w
    [(d, gvcf_name uuid (Ns.suffix a));
     (d, snp_vcf_name uuid (Ns.suffix a)); (d, indel_vcf_name uuid (Ns.suffix a))].
Proof.
  intros Hf. destruct w as [js tr]. cbn [wf_store] in Hf.
  destruct (exec_stage ext (J_spawn_batch_variant_calling ids a) c _ _ _ eq_refl
              (spawn_batch_variant_calling_ok ext ids a js tr uuid url Hsample))
    as (a' & st & He & Hch & Hfo & Hjs & Hs).
  change [(d, gvcf_name uuid (Ns.suffix a));
          (d, snp_vcf_name uuid (Ns.suffix a)); (d, indel_vcf_name uuid (Ns.suffix a))]
    with ([] ++ [(d, gvcf_name uuid (Ns.suffix a));
                 (d, snp_vcf_name uuid (Ns.suffix a));
                 (d, indel_vcf_name uuid (Ns.suffix a))] ++ []).
  eapply completes_children; [exact He|done|by rewrite Hs, app_nil_r| |].
  { rewrite Hjs. cbn. lia. }
  rewrite Hch. apply complete_all_cons; [|intros; apply complete_all_nil].
  apply (completes_start ext Hok); [done|done|].
  cbn [leave wf_store]. by rewrite Hjs.
Qed.

Lemma completes_create_reference_dict_hc fuel ids c w :
  has_files ids ("ref.fa.fai" :: keys_refs) (length (wf_store w)) ->
  completes ext (S (S (S (S (S (S (S (S fuel))))))))
    (mkJob (J_create_reference_dict_hc ids a) c) w
    [(d, gvcf_name uuid (Ns.suffix a));
     (d, snp_vcf_name uuid (Ns.suffix a)); (d, indel_vcf_name uuid (Ns.suffix a))].
Proof.
  intros Hf. destruct w as [js tr]. cbn [wf_store] in Hf.
  assert (Hin : has_files ids ["ref.fa"] (length js)).
  { eapply has_files_sub; [exact Hf|]. sub_tac. }
  destruct (exec_stage ext (J_create_reference_dict_hc ids a) c _ _ _ eq_refl
              (create_reference_dict_hc_ok ext Hok ids a js tr Hin))
    as (a' & st & He & Hch & Hfo & Hjs & Hs).
  change [(d, gvcf_name uuid (Ns.suffix a));
          (d, snp_vcf_name uuid (Ns.suffix a)); (d, indel_vcf_name uuid (Ns.suffix a))]
    with ([] ++ [(d, gvcf_name uuid (Ns.suffix a));
                 (d, snp_vcf_name uuid (Ns.suffix a));
                 (d, indel_vcf_name uuid (Ns.suffix a))] ++ []).
  eapply completes_children; [exact He|done|by rewrite Hs, app_nil_r| |].
  { rewrite Hjs, length_app. cbn. lia. }
  rewrite Hch. apply complete_all_cons; [|intros; apply complete_all_nil].
  apply completes_spawn_batch_variant_calling. cbn [leave wf_store]. rewrite Hjs.
  apply has_files_insert; [|rewrite length_app; cbn; lia].
  eapply has_files_mono; [exact Hf|]. rewrite length_app. cbn. lia.
Qed.

Lemma completes_create_reference_index_hc fuel ids c w :
  has_files ids keys_refs (length (wf_store w)) ->
  completes ext (S (S (S (S (S (S (S (S (S fuel)))))))))
    (mkJob (J_create_reference_index_hc ids a) c) w
    [(d, gvcf_name uuid (Ns.suffix a));
     (d, snp_vcf_name uuid (Ns.suffix a)); (d, indel_vcf_name uuid (Ns.suffix a))].
Proof.
  intros Hf. destruct w as [js tr]. cbn [wf_store] in Hf.
  assert (Hin : has_files ids ["ref.fa"] (length js)).
  { eapply has_files_sub; [exact Hf|]. sub_tac. }
  destruct (exec_stage ext (J_create_reference_index_hc ids a) c _ _ _ eq_refl
              (create_reference_index_hc_ok ext Hok ids a js tr Hin))
    as (a' & st & He & Hch & Hfo & Hjs & Hs).
  change [(d, gvcf_name uuid (Ns.suffix a));
          (d, snp_vcf_name uuid (Ns.suffix a)); (d, indel_vcf_name uuid (Ns.suffix a))]
    with ([] ++ [(d, gvcf_name uuid (Ns.suffix a));
                 (d, snp_vcf_name uuid (Ns.suffix a));
                 (d, indel_vcf_name uuid (Ns.suffix a))] ++ []).
  eapply completes_children; [exact He|done|by rewrite Hs, app_nil_r| |].
  { rewrite Hjs, length_app. cbn. lia. }
  rewrite Hch. apply complete_all_cons; [|intros; apply complete_all_nil].
  apply completes_create_reference_dict_hc. cbn [leave wf_store]. rewrite Hjs.
  apply has_files_insert; [|rewrite length_app; cbn; lia].
  eapply has_files_mono; [exact Hf|]. rewrite length_app. cbn. lia.
Qed.

End Upper.
Lemma all_ok_happy_env : all_ok happy_env.
Proof. by repeat split. Qed.




(** * Further properties of the helper functions *)

(** ** [download_url] *)


(** ** Hydrating and persisting files *)

Lemma available_mono (ids : gmap string Value) (st st' : JobState) (f : string) :
  files st ⊆ files st' -> jobStore st' = jobStore st ->
  available ids st f -> available ids st' f.
Proof.
  intros Hs Hj [H|(h & Hl & Hh)]; [left; by apply Hs|right].
  exists h. by rewrite Hj.
Qed.

(** Running a sequence whose first step is known. *)
Lemma mbind_Ok {A B} (m : M A) (f : A -> M B) st a st' :
  m st = (Ok a, st') -> (m ≫= f) st = f a st'.
Proof. intros H. unfold mbind, M_bind, bind. by rewrite H. Qed.

Lemma mbind_Raise {A B} (m : M A) (f : A -> M B) st e st' :
  m st = (Raise e, st') -> (m ≫= f) st = (Raise e, st').
Proof. intros H. unfold mbind, M_bind, bind. by rewrite H. Qed.

Lemma bind_Ok {A B} (m : M A) (f : A -> M B) st a st' :
  m st = (Ok a, st') -> bind m f st = f a st'.
Proof. apply mbind_Ok. Qed.

Lemma bind_Raise {A B} (m : M A) (f : A -> M B) st e st' :
  m st = (Raise e, st') -> bind m f st = (Raise e, st').
Proof. apply mbind_Raise. Qed.

(** One round of the loops that hydrate a file. *)
Lemma hydrate_step (wd0 : string) (ids : gmap string Value) (f : string)
    wd fl ch fo js tr :
  available ids (mkState wd fl ch fo js tr) f ->
  (if negb (bool_decide (f ∈ fl)) then
     v ← getitem ids f; readGlobalFile v wd0 f
   else ret (Py.os_path_join wd0 f)) (mkState wd fl ch fo js tr)
  = (Ok (Py.os_path_join wd0 f),
     mkState wd ({[f]} ∪ fl) ch fo js (tr ++ fetch_events ids fl f)).
Proof.
  intros Hav. unfold fetch_events. case_bool_decide as Hin; cbn [negb].
  - rewrite app_nil_r. unfold ret. f_equal. f_equal. set_solver.
  - destruct Hav as [Hf|(h & Hl & Hh)]; [done|]. cbn [files jobStore] in *.
    rewrite Hl. erewrite mbind_Ok; [|unfold getitem; by rewrite Hl].
    unfold readGlobalFile. cbn [jobStore].
    by rewrite bool_decide_eq_true_2 by done.
Qed.

Lemma quiet_fetch_events ids fl f : quiet (fetch_events ids fl f).
Proof.
  unfold fetch_events. case_bool_decide; [apply quiet_nil|].
  destruct (ids !! f) as [[h| |]|]; first [apply quiet_nil|by apply quiet_one].
Qed.

Lemma odict_set_fresh (ps : list (string * string)) (k v : string) :
  k ∉ ps.*1 -> odict_set ps k v = ps ++ [(k, v)].
Proof.
  induction ps as [|[k' v'] ps IH]; intros Hk; [done|].
  cbn [odict_set]. rewrite bool_decide_eq_false_2.
  - rewrite IH; [done|]. intros H. apply Hk. by right.
  - intros ->. apply Hk. by left.
Qed.

Lemma return_input_paths_loop (wd0 : string) (ids : gmap string Value)
    (fs : list string) :
  forall (acc : list (string * string)) wd fl ch fo js tr,
    NoDup fs ->
    (forall f, f ∈ fs -> f ∉ acc.*1) ->
    (forall f, f ∈ fs -> available ids (mkState wd fl ch fo js tr) f) ->
    exists tr',
      for_fold fs acc (fun filename paths =>
        present ← os_path_exists wd0 filename;
        file_path ← (if negb (present : bool) then
                       v ← getitem ids filename;
                       readGlobalFile v wd0 filename
                     else ret (Py.os_path_join wd0 filename));
        ret (odict_set paths filename file_path)) (mkState wd fl ch fo js tr)
      = (Ok (acc ++ ((fun f => (f, Py.os_path_join wd0 f)) <$> fs)),
         mkState wd (list_to_set fs ∪ fl) ch fo js (tr ++ tr'))
      /\ quiet tr'.
Proof.
  induction fs as [|f fs IH]; intros acc wd fl ch fo js tr Hnd Hacc Hav.
  - exists []. cbn. rewrite !app_nil_r. split; [|apply quiet_nil].
    unfold ret. f_equal. f_equal. set_solver.
  - apply NoDup_cons in Hnd as [Hf Hnd].
    destruct (IH (acc ++ [(f, Py.os_path_join wd0 f)]) wd ({[f]} ∪ fl) ch fo js
                 (tr ++ fetch_events ids fl f) Hnd) as (tr2 & He2 & Hq2).
    { intros g Hg. rewrite fmap_app, elem_of_app. intros [H|H].
      - apply (Hacc g); [by right|done].
      - cbn in H. apply list_elem_of_singleton in H as ->. done. }
    { intros g Hg. eapply available_mono; [| |apply Hav; by right]; [|done].
      cbn. set_solver. }
    exists (fetch_events ids fl f ++ tr2).
    split; [|apply quiet_app; [apply quiet_fetch_events|done]].
    cbn [for_fold]. erewrite bind_Ok; [|].
    2:{ erewrite mbind_Ok; [|reflexivity]. cbn [files].
        erewrite mbind_Ok; [|apply hydrate_step, Hav; by left]. reflexivity. }
    rewrite odict_set_fresh by (apply Hacc; by left).
    rewrite He2. rewrite <- !app_assoc. cbn. f_equal. f_equal. set_solver.
Qed.

(** X2: when its file names are distinct and each is in the working
    directory or bound in the dictionary to a file of the job store,
    [return_input_paths] returns the path of each name in the working
    directory, in the order of the names; afterwards all of them are in the
    working directory, and the job store and the successors of the job are as
    before. *)
Theorem return_input_paths_paths (work_dir : string) (ids : gmap string Value)
    (filenames : list string) (st : JobState) :
  NoDup filenames ->
  (forall f, f ∈ filenames -> available ids st f) ->
  exists st',
    return_input_paths work_dir ids filenames st
    = (Ok (Py.os_path_join work_dir <$> filenames), st')
    /\ files st' = list_to_set filenames ∪ files st
    /\ jobStore st' = jobStore st
    /\ children st' = children st
    /\ followOns st' = followOns st
    /\ sinks (trace st') = sinks (trace st).
Proof.
  intros Hnd Hav. destruct st as [wd fl ch fo js tr].
  destruct (return_input_paths_loop work_dir ids filenames [] wd fl ch fo js tr Hnd)
    as (tr' & He & Hq); [by intros ? ? ?%elem_of_nil|done|].
  eexists. unfold return_input_paths. erewrite mbind_Ok; [|exact He].
  cbn [app]. split.
  - unfold mret, M_ret, ret. f_equal. f_equal.
    rewrite <- list_fmap_compose. by apply list_fmap_ext.
  - cbn. repeat split. by rewrite sinks_app, (quiet_sinks _ Hq), app_nil_r.
Qed.

Lemma quiet_hydrate_trace ids fs : forall fl, quiet (hydrate_trace ids fl fs).
Proof.
  induction fs as [|f fs IH]; intros fl; [apply quiet_nil|].
  cbn. apply quiet_app; [apply quiet_fetch_events|apply IH].
Qed.

(** The loop of [read_from_filestore_hc] when every name is available. *)
Lemma read_from_filestore_hc_run (wd0 : string) (ids : gmap string Value)
    (fs : list string) :
  forall wd fl ch fo js tr,
    (forall f, f ∈ fs -> available ids (mkState wd fl ch fo js tr) f) ->
    read_from_filestore_hc wd0 ids fs (mkState wd fl ch fo js tr)
    = (Ok tt, mkState wd (list_to_set fs ∪ fl) ch fo js
                (tr ++ hydrate_trace ids fl fs)).
Proof.
  unfold read_from_filestore_hc.
  induction fs as [|f fs IH]; intros wd fl ch fo js tr Hav.
  - cbn. rewrite app_nil_r. unfold ret. f_equal. f_equal. set_solver.
  - cbn [for_each hydrate_trace]. erewrite bind_Ok.
    2:{ erewrite mbind_Ok; [|reflexivity]. cbn [files].
        pose proof (hydrate_step wd0 ids f wd fl ch fo js tr (Hav f ltac:(by left)))
          as Hs.
        destruct (bool_decide (f ∈ fl)) eqn:Hb; cbn [negb] in *.
        - unfold mret, M_ret. exact (eq_trans eq_refl
            (f_equal (fun p => (Ok tt, p.2)) Hs)).
        - destruct (Hav f ltac:(by left)) as [Hin|(h & Hl & Hh)].
          { apply bool_decide_eq_false in Hb. by destruct Hb. }
          erewrite mbind_Ok; [|unfold getitem; by rewrite Hl].
          erewrite mbind_Ok in Hs; [|unfold getitem; by rewrite Hl].
          erewrite mbind_Ok; [|exact Hs]. reflexivity. }
    cbn [snd]. rewrite IH.
    + rewrite <- app_assoc. f_equal. f_equal. set_solver.
    + intros g Hg. eapply available_mono; [| |apply Hav; by right]; [|done].
      cbn. set_solver.
Qed.

(** The loop stops at the first name that is neither in the working
    directory nor bound. *)
Lemma read_from_filestore_hc_stops (wd0 : string) (ids : gmap string Value)
    (pre : list string) (f : string) (post : list string) :
  forall wd fl ch fo js tr,
    (forall g, g ∈ pre -> available ids (mkState wd fl ch fo js tr) g) ->
    f ∉ pre -> f ∉ fl -> ids !! f = None ->
    read_from_filestore_hc wd0 ids (pre ++ f :: post) (mkState wd fl ch fo js tr)
    = (Raise (KeyError f),
       mkState wd (list_to_set pre ∪ fl) ch fo js (tr ++ hydrate_trace ids fl pre)).
Proof.
  unfold read_from_filestore_hc.
  induction pre as [|g pre IH]; intros wd fl ch fo js tr Hav Hpre Hfl Hid.
  - cbn [app for_each hydrate_trace]. rewrite app_nil_r.
    rewrite (bind_Raise _ _ _ (KeyError f) (mkState wd fl ch fo js tr)).
    + f_equal. f_equal. set_solver.
    + erewrite mbind_Ok; [|reflexivity]. cbn [files].
      rewrite bool_decide_eq_false_2 by done. cbn [negb].
      erewrite mbind_Raise; [reflexivity|]. unfold getitem. by rewrite Hid.
  - pose proof (read_from_filestore_hc_run wd0 ids [g] wd fl ch fo js tr) as Hg.
    unfold read_from_filestore_hc in Hg. cbn [for_each] in Hg.
    cbn [app for_each hydrate_trace].
    assert (Hgav : forall x, x ∈ [g] -> available ids (mkState wd fl ch fo js tr) x).
    { intros x ->%list_elem_of_singleton. apply Hav. by left. }
    specialize (Hg Hgav). unfold bind at 1 in Hg. unfold bind at 1.
    destruct ((os_path_exists wd0 g ≫= _) (mkState wd fl ch fo js tr))
      as [[[]|e] st1] eqn:E1; [|discriminate].
    unfold ret at 1 in Hg. injection Hg as ->.
    rewrite IH.
    + cbn [hydrate_trace]. rewrite app_nil_r, <- app_assoc.
      f_equal. f_equal; [set_solver|]. f_equal. f_equal. f_equal. set_solver.
    + intros x Hx. eapply available_mono; [| |apply Hav; by right]; [|done].
      cbn. set_solver.
    + intros H. apply Hpre. by right.
    + assert (f <> g) by (intros ->; apply Hpre; by left). set_solver.
    + done.
Qed.

(** X3: [read_from_filestore_hc] raises [KeyError] at the first name that is
    neither in the working directory nor bound in the dictionary.  The names
    before it were hydrated by then and stay in the working directory; the
    job store is untouched and nothing was placed. *)
Theorem read_from_filestore_hc_unbound (work_dir : string)
    (ids : gmap string Value) (pre : list string) (f : string)
    (post : list string) (st : JobState) :
  (forall g, g ∈ pre -> available ids st g) ->
  f ∉ pre -> f ∉ files st -> ids !! f = None ->
  exists st',
    read_from_filestore_hc work_dir ids (pre ++ f :: post) st
    = (Raise (KeyError f), st')
    /\ files st' = list_to_set pre ∪ files st
    /\ jobStore st' = jobStore st
    /\ fetches (trace st') <= fetches (trace st) + length pre
    /\ sinks (trace st') = sinks (trace st).
Proof.
  intros Hav Hpre Hfl Hid. destruct st as [wd fl ch fo js tr].
  eexists. split; [by apply read_from_filestore_hc_stops|].
  cbn [files jobStore trace].
  split; [done|]. split; [done|]. split.
  - rewrite fetches_app. apply Nat.add_le_mono_l. clear.
    revert fl. induction pre as [|g pre IH]; intros fl; [done|].
    cbn [hydrate_trace length]. rewrite fetches_app. specialize (IH ({[g]} ∪ fl)).
    assert (fetches (fetch_events ids fl g) <= 1); [|lia].
    unfold fetch_events. case_bool_decide; [vm_compute; lia|].
    destruct (ids !! g) as [[| |]|]; vm_compute; lia.
  - by rewrite sinks_app, (quiet_sinks _ (quiet_hydrate_trace _ _ _)), app_nil_r.
Qed.

(** The loop of [write_to_filestore] when every file is there. *)
Lemma write_to_filestore_run (wd0 : string) (fs : list string) :
  forall (ids : gmap string Value) wd fl ch fo js tr,
    (forall f, f ∈ fs -> f ∈ fl) ->
    exists tr',
      write_to_filestore wd0 ids fs (mkState wd fl ch fo js tr)
      = (Ok (stored_ids (length js) fs ids),
         mkState wd fl ch fo (js ++ fs) (tr ++ tr'))
      /\ sinks tr' = [] /\ fetches tr' = 0.
Proof.
  unfold write_to_filestore.
  induction fs as [|f fs IH]; intros ids wd fl ch fo js tr Hin.
  - exists []. cbn. by rewrite !app_nil_r.
  - destruct (IH (<[f := FileStoreID (length js)]> ids) wd fl ch fo (js ++ [f])
                 ((tr ++ [EvWriteGlobalFile f (length js)])
                    ++ [EvSetItem f (ids !! f) (FileStoreID (length js))]))
      as (tr' & He & Hs & Hf).
    { intros g Hg. apply Hin. by right. }
    exists ([EvWriteGlobalFile f (length js);
             EvSetItem f (ids !! f) (FileStoreID (length js))] ++ tr').
    cbn [for_fold stored_ids]. erewrite bind_Ok.
    2:{ erewrite mbind_Ok.
        2:{ unfold writeGlobalFile. cbn [files].
            rewrite bool_decide_eq_true_2 by (apply Hin; by left). reflexivity. }
        reflexivity. }
    unfold set_trace, set_jobStore.
    cbn [jobStore trace work_dir files children followOns].
    rewrite length_app, Nat.add_1_r in He. rewrite He.
    split; [by rewrite <- !app_assoc|].
    rewrite sinks_app, fetches_app, Hs, Hf. by vm_compute.
Qed.

Lemma stored_ids_other (fs : list string) :
  forall n (ids : gmap string Value) k, k ∉ fs -> stored_ids n fs ids !! k = ids !! k.
Proof.
  induction fs as [|f fs IH]; intros n ids k Hk; [done|].
  cbn. rewrite IH by (intros H; apply Hk; by right).
  apply lookup_insert_ne. intros ->. apply Hk. by left.
Qed.

Lemma stored_ids_lookup (fs : list string) :
  forall n (ids : gmap string Value) i f,
    NoDup fs -> fs !! i = Some f ->
    stored_ids n fs ids !! f = Some (FileStoreID (n + i)).
Proof.
  induction fs as [|g fs IH]; intros n ids i f Hnd Hi; [done|].
  apply NoDup_cons in Hnd as [Hg Hnd]. destruct i as [|i]; cbn in *.
  - injection Hi as ->. rewrite stored_ids_other by done.
    by rewrite lookup_insert_eq, Nat.add_0_r.
  - rewrite (IH (S n) _ i f Hnd Hi). do 2 f_equal. lia.
Qed.

(** X4: when its file names are distinct and all in the working directory,
    [write_to_filestore] appends them to the job store in their order and
    returns the dictionary in which the [i]-th name is bound to the id of
    the [i]-th new file; every other binding is as before, and nothing is
    fetched or placed. *)
Theorem write_to_filestore_binds (work_dir : string) (ids : gmap string Value)
    (filenames : list string) (st : JobState) :
  NoDup filenames ->
  (forall f, f ∈ filenames -> f ∈ files st) ->
  exists ids' st',
    write_to_filestore work_dir ids filenames st = (Ok ids', st')
    /\ jobStore st' = jobStore st ++ filenames
    /\ (forall i f, filenames !! i = Some f ->
          ids' !! f = Some (FileStoreID (length (jobStore st) + i))
          /\ jobStore st' !! (length (jobStore st) + i) = Some f)
    /\ (forall k, k ∉ filenames -> ids' !! k = ids !! k)
    /\ files st' = files st
    /\ sinks (trace st') = sinks (trace st)
    /\ fetches (trace st') = fetches (trace st).
Proof.
  intros Hnd Hin. destruct st as [wd fl ch fo js tr].
  destruct (write_to_filestore_run work_dir filenames ids wd fl ch fo js tr Hin)
    as (tr' & He & Hs & Hf).
  eexists _, _. split; [exact He|]. cbn [jobStore files trace].
  split; [done|]. split; [|split; [|split; [done|split]]].
  - intros i f Hi. split; [by apply stored_ids_lookup|].
    by rewrite lookup_app_r, Nat.add_comm, Nat.add_sub by lia.
  - intros k Hk. by apply stored_ids_other.
  - by rewrite sinks_app, Hs, app_nil_r.
  - rewrite fetches_app, Hf. lia.
Qed.

(** X5: [write_to_filestore] is not atomic: at the first name that is not in
    the working directory it raises [IOError] for that name, and the names
    before it have been written to the job store by then. *)
Theorem write_to_filestore_missing (work_dir : string) (ids : gmap string Value)
    (pre : list string) (f : string) (post : list string) (st : JobState) :
  (forall g, g ∈ pre -> g ∈ files st) ->
  f ∉ files st ->
  exists st',
    write_to_filestore work_dir ids (pre ++ f :: post) st = (Raise (IOError f), st')
    /\ jobStore st' = jobStore st ++ pre
    /\ files st' = files st.
Proof.
  intros Hpre Hf. rename work_dir into wd0.
  destruct st as [wd fl ch fo js tr]. cbn [files jobStore] in *.
  revert ids js tr. unfold write_to_filestore.
  induction pre as [|g pre IH]; intros ids js tr.
  - eexists. cbn [app for_fold]. erewrite bind_Raise.
    2:{ erewrite mbind_Raise; [reflexivity|]. unfold writeGlobalFile. cbn [files].
        by rewrite bool_decide_eq_false_2 by done. }
    by rewrite app_nil_r.
  - destruct (IH ltac:(intros x Hx; apply Hpre; by right)
                 (<[g := FileStoreID (length js)]> ids) (js ++ [g])
                 ((tr ++ [EvWriteGlobalFile g (length js)])
                    ++ [EvSetItem g (ids !! g) (FileStoreID (length js))]))
      as (st' & He & Hj & Hfl).
    exists st'. cbn [app for_fold]. erewrite bind_Ok.
    2:{ erewrite mbind_Ok.
        2:{ unfold writeGlobalFile. cbn [files].
            rewrite bool_decide_eq_true_2 by (apply Hpre; by left). reflexivity. }
        reflexivity. }
    unfold set_trace, set_jobStore.
    cbn [jobStore trace work_dir files children followOns].
    rewrite He. split; [done|]. by rewrite Hj, <- app_assoc.
Qed.

Lemma hydrate_trace_stored (fs : list string) :
  forall (ids : gmap string Value) (fl : gset string) n,
    NoDup fs -> (forall f, f ∈ fs -> f ∉ fl) ->
    (forall i f, fs !! i = Some f -> ids !! f = Some (FileStoreID (n + i))) ->
    hydrate_trace ids fl fs = zip_with EvReadGlobalFile (seq n (length fs)) fs.
Proof.
  induction fs as [|g fs IH]; intros ids fl n Hnd Hfl Hid; [done|].
  apply NoDup_cons in Hnd as [Hg Hnd]. cbn [hydrate_trace length seq zip_with].
  unfold fetch_events. rewrite bool_decide_eq_false_2 by (apply Hfl; by left).
  rewrite (Hid 0 g eq_refl), Nat.add_0_r. cbn [app]. f_equal.
  apply IH; [done| |].
  - intros f Hf. specialize (Hfl f ltac:(by right)).
    assert (f <> g) by (by intros ->). set_solver.
  - intros i f Hi. rewrite (Hid (S i) f Hi). do 2 f_equal. lia.
Qed.

(** X6: what [write_to_filestore] persists, [read_from_filestore_hc] brings
    back.  With the dictionary returned for distinct names, hydrating these
    names into a working directory that holds none of them, against a job
    store that extends the one left by the write, succeeds and fetches each
    name exactly once, in order, under the id it was written to. *)
Theorem persist_then_hydrate (work_dir work_dir' : string)
    (ids : gmap string Value) (filenames : list string) (st st2 : JobState) :
  NoDup filenames ->
  (forall f, f ∈ filenames -> f ∈ files st) ->
  (forall f, f ∈ filenames -> f ∉ files st2) ->
  length (jobStore st) + length filenames <= length (jobStore st2) ->
  exists ids' st',
    write_to_filestore work_dir ids filenames st = (Ok ids', st')
    /\ exists st2',
         read_from_filestore_hc work_dir' ids' filenames st2 = (Ok tt, st2')
         /\ files st2' = list_to_set filenames ∪ files st2
         /\ trace st2'
            = trace st2
              ++ zip_with EvReadGlobalFile
                   (seq (length (jobStore st)) (length filenames)) filenames.
Proof.
  intros Hnd Hin Hout Hlen. destruct st as [wd fl ch fo js tr].
  destruct st2 as [wd2 fl2 ch2 fo2 js2 tr2]. cbn [files jobStore] in *.
  destruct (write_to_filestore_run work_dir filenames ids wd fl ch fo js tr Hin)
    as (tr' & He & _).
  eexists _, _. split; [exact He|].
  eexists. rewrite read_from_filestore_hc_run.
  - split; [reflexivity|]. cbn [files trace]. split; [done|]. f_equal.
    apply hydrate_trace_stored; [done|done|].
    intros i f Hi. by apply stored_ids_lookup.
  - intros f Hf. right. apply list_elem_of_lookup in Hf as [i Hi].
    exists (length js + i). split; [by apply stored_ids_lookup|].
    cbn [jobStore]. apply lookup_lt_Some in Hi. lia.
Qed.

Lemma return_input_paths_paths_witness :
  exists st',
    return_input_paths "/tmp/job" {["ref.fa" := FileStoreID 0]} ["ref.fa"; "ref.dict"]
      (mkState "/tmp/job" {["ref.dict"]} [] [] ["ref.fa"] [])
    = (Ok (Py.os_path_join "/tmp/job" <$> ["ref.fa"; "ref.dict"]), st')
    /\ files st' = list_to_set ["ref.fa"; "ref.dict"] ∪ {["ref.dict"]}
    /\ jobStore st' = ["ref.fa"]
    /\ children st' = []
    /\ followOns st' = []
    /\ sinks (trace st') = sinks [].
Proof.
  refine (return_input_paths_paths "/tmp/job" {["ref.fa" := FileStoreID 0]}
           ["ref.fa"; "ref.dict"] (mkState "/tmp/job" {["ref.dict"]} [] [] ["ref.fa"] []) _ _).
  - apply (bool_decide_unpack _). vm_compute. exact I.
  - intros f Hf. apply elem_of_cons in Hf as [->|Hf].
    + right. exists 0. split; [reflexivity|simpl; lia].
    + apply list_elem_of_singleton in Hf as ->. left. simpl. set_solver.
Defined.

Lemma read_from_filestore_hc_unbound_witness :
  exists st',
    read_from_filestore_hc "/tmp/job" {["ref.fa" := FileStoreID 0]}
      (["ref.fa"] ++ "toil.bam" :: ["toil.bam.bai"])
      (mkState "/tmp/job" ∅ [] [] ["ref.fa"] [])
    = (Raise (KeyError "toil.bam"), st')
    /\ files st' = list_to_set ["ref.fa"] ∪ ∅
    /\ jobStore st' = ["ref.fa"]
    /\ fetches (trace st') <= fetches [] + length ["ref.fa"]
    /\ sinks (trace st') = sinks [].
Proof.
  refine (read_from_filestore_hc_unbound "/tmp/job" {["ref.fa" := FileStoreID 0]}
           ["ref.fa"] "toil.bam" ["toil.bam.bai"]
           (mkState "/tmp/job" ∅ [] [] ["ref.fa"] []) _ _ _ _).
  - intros g Hg. apply list_elem_of_singleton in Hg as ->.
    right. exists 0. split; [reflexivity|simpl; lia].
  - apply (bool_decide_unpack _). vm_compute. exact I.
  - simpl. set_solver.
  - reflexivity.
Defined.

Lemma write_to_filestore_binds_witness :
  exists ids' st',
    write_to_filestore "/tmp/job" {["ref.fa" := FileStoreID 0]}
      ["HAPSNP.recal"; "HAPSNP.tranches"]
      (mkState "/tmp/job" {["HAPSNP.recal"; "HAPSNP.tranches"]} [] [] ["ref.fa"] [])
    = (Ok ids', st')
    /\ jobStore st' = ["ref.fa"] ++ ["HAPSNP.recal"; "HAPSNP.tranches"]
    /\ (forall i f, ["HAPSNP.recal"; "HAPSNP.tranches"] !! i = Some f ->
          ids' !! f = Some (FileStoreID (length ["ref.fa"] + i))
          /\ jobStore st' !! (length ["ref.fa"] + i) = Some f)
    /\ (forall k, k ∉ ["HAPSNP.recal"; "HAPSNP.tranches"] ->
          ids' !! k = ({["ref.fa" := FileStoreID 0]} : gmap string Value) !! k)
    /\ files st' = {["HAPSNP.recal"; "HAPSNP.tranches"]}
    /\ sinks (trace st') = sinks []
    /\ fetches (trace st') = fetches [].
Proof.
  refine (write_to_filestore_binds "/tmp/job" {["ref.fa" := FileStoreID 0]}
           ["HAPSNP.recal"; "HAPSNP.tranches"]
           (mkState "/tmp/job" {["HAPSNP.recal"; "HAPSNP.tranches"]} [] []
              ["ref.fa"] []) _ _).
  - apply (bool_decide_unpack _). vm_compute. exact I.
  - intros f Hf. simpl. set_solver.
Defined.

Lemma write_to_filestore_missing_witness :
  exists st',
    write_to_filestore "/tmp/job" ∅ (["HAPSNP.recal"] ++ "HAPSNP.tranches" :: ["HAPSNP.plots"])
      (mkState "/tmp/job" {["HAPSNP.recal"]} [] [] ["ref.fa"] [])
    = (Raise (IOError "HAPSNP.tranches"), st')
    /\ jobStore st' = ["ref.fa"] ++ ["HAPSNP.recal"]
    /\ files st' = {["HAPSNP.recal"]}.
Proof.
  refine (write_to_filestore_missing "/tmp/job" ∅ ["HAPSNP.recal"] "HAPSNP.tranches"
           ["HAPSNP.plots"] (mkState "/tmp/job" {["HAPSNP.recal"]} [] [] ["ref.fa"] []) _ _).
  - intros g Hg. simpl. set_solver.
  - simpl. apply (bool_decide_unpack _). vm_compute. exact I.
Defined.

Lemma persist_then_hydrate_witness :
  exists ids' st',
    write_to_filestore "/tmp/job" ∅ ["HAPSNP.recal"; "HAPSNP.tranches"]
      (mkState "/tmp/job" {["HAPSNP.recal"; "HAPSNP.tranches"]} [] [] ["ref.fa"] [])
    = (Ok ids', st')
    /\ exists st2',
         read_from_filestore_hc "/tmp/next" ids' ["HAPSNP.recal"; "HAPSNP.tranches"]
           (mkState "/tmp/next" ∅ [] [] ["ref.fa"; "HAPSNP.recal"; "HAPSNP.tranches"] [])
         = (Ok tt, st2')
         /\ files st2' = list_to_set ["HAPSNP.recal"; "HAPSNP.tranches"] ∪ ∅
         /\ trace st2'
            = [] ++ zip_with EvReadGlobalFile
                      (seq (length ["ref.fa"]) (length ["HAPSNP.recal"; "HAPSNP.tranches"]))
                      ["HAPSNP.recal"; "HAPSNP.tranches"].
Proof.
  refine (persist_then_hydrate "/tmp/job" "/tmp/next" ∅
           ["HAPSNP.recal"; "HAPSNP.tranches"]
           (mkState "/tmp/job" {["HAPSNP.recal"; "HAPSNP.tranches"]} [] []
              ["ref.fa"] [])
           (mkState "/tmp/next" ∅ [] []
              ["ref.fa"; "HAPSNP.recal"; "HAPSNP.tranches"] []) _ _ _ _).
  - apply (bool_decide_unpack _). vm_compute. exact I.
  - intros f Hf. simpl. set_solver.
  - intros f Hf. simpl. set_solver.
  - simpl. lia.
Defined.

(** ** Samples and the manifest *)

(** X7: [start] unpacks its sample into [uuid, url]: it raises [ValueError]
    exactly when the sample does not have two fields, and then it has
    scheduled nothing and left the state of the job as it was. *)
Theorem start_sample_arity (ids : gmap string Value) (a : Ns.t)
    (sample : list string) (st : JobState) :
  ((start ids a sample st).1 = Raise ValueError <-> length sample <> 2)
  /\ ((start ids a sample st).1 = Raise ValueError -> (start ids a sample st).2 = st).
Proof.
  destruct st as [wd fl ch fo js tr].
  destruct sample as [|uuid [|url [|x sample]]];
    try (split; [split; [intros _; cbn; lia|reflexivity]|reflexivity]).
  assert (H : (start ids a [uuid; url] (mkState wd fl ch fo js tr)).1
              <> Raise ValueError).
  { destruct (Ns.output_dir a) as [d|] eqn:Hd.
    - rewrite (start_eq _ _ _ _ d) by done. cbv zeta.
      by destruct (Ns.indexed a).
    - unfold start. cbn [unpack2]. erewrite mbind_Ok; [|reflexivity].
      cbv beta iota zeta. erewrite mbind_Raise; [|cbn; rewrite Hd; reflexivity].
      done. }
  split; [split; [done|intros Hl; by destruct Hl]|done].
Qed.

Lemma split_length (sep : ascii) (s : string) :
  length (Py.split sep s)
  = S (length (filter (fun c => c = sep) (Py.chars s))).
Proof.
  induction s as [|c s IH]; [done|]. cbn [Py.split Py.chars list_ascii_of_string].
  rewrite filter_cons. destruct (Ascii.eqb_spec c sep) as [->|Hne].
  - rewrite decide_True by done. cbn. by rewrite IH.
  - rewrite decide_False by done. fold (Py.chars s).
    destruct (Py.split sep s) as [|w ws] eqn:E; [discriminate IH|].
    by rewrite <- IH.
Qed.

(** X8: a line of the manifest that is kept becomes the sample
    [line.strip().split('\t')], so [start] accepts it exactly when the
    stripped line holds one tab; any other number of tabs gives
    [ValueError] when the job of the sample runs, not when the manifest is
    read. *)
Theorem manifest_line_fields (ids : gmap string Value) (a : Ns.t)
    (line : string) (st : JobState) :
  (start ids a (Py.split Py.TAB (Py.strip line)) st).1 = Raise ValueError
  <-> length (filter (fun c => c = Py.TAB) (Py.chars (Py.strip line))) <> 1.
Proof.
  pose proof (split_length Py.TAB (Py.strip line)) as Hl.
  destruct st as [wd fl ch fo js tr].
  destruct (Py.split Py.TAB (Py.strip line)) as [|uuid [|url [|x sample]]];
    cbn [length] in Hl; try (split; [intros _; lia|reflexivity]).
  split; [|intros H; lia]. intros H. exfalso. revert H.
  destruct (Ns.output_dir a) as [d|] eqn:Hd.
  - rewrite (start_eq _ _ _ _ d) by done. cbv zeta. by destruct (Ns.indexed a).
  - unfold start. cbn [unpack2]. erewrite mbind_Ok; [|reflexivity].
    cbv beta iota zeta. erewrite mbind_Raise; [|cbn; rewrite Hd; reflexivity].
    done.
Qed.

Lemma for_each_spawn (ids : gmap string Value) (a : Ns.t)
    (samples : list (list string)) (st : JobState) :
  for_each samples (fun sample =>
    _ ← addChildJobFn (J_start ids a sample) None; ret tt) st
  = (Ok tt, set_children
              (children st ++ ((fun s => mkJob (J_start ids a s) None) <$> samples))
              st).
Proof.
  revert st. induction samples as [|s samples IH]; intros [wd fl ch fo js tr].
  - cbn. unfold ret, set_children. cbn. by rewrite app_nil_r.
  - cbn [for_each]. erewrite bind_Ok; [|reflexivity]. rewrite IH.
    unfold set_children. cbn. by rewrite <- app_assoc.
Qed.

(** Without a sample, the children are the samples of the manifest. *)
Lemma spawn_manifest (ext : Env) (ids : gmap string Value) (a : Ns.t)
    (content : string) (st : JobState) :
  Ns.sample a = None ->
  local_file ext (Ns.manifest a) = Some content ->
  spawn_batch_variant_calling ext ids a st
  = (Ok a,
     set_children
       (children st
        ++ ((fun s => mkJob (J_start ids a s) None) <$> read_samples content))
       st).
Proof.
  intros Hs Hm. unfold spawn_batch_variant_calling. rewrite Hs.
  erewrite mbind_Ok.
  2:{ erewrite mbind_Ok; [reflexivity|]. unfold read_manifest. by rewrite Hm. }
  erewrite mbind_Ok; [|apply for_each_spawn]. reflexivity.
Qed.

(** X9: without a sample on the command line, [spawn_batch_variant_calling]
    reads the manifest and schedules one [start] child for each line that is
    neither blank nor a comment, in the order of the file; every child
    receives the same dictionary and configuration and the stripped line
    split at tabs.  Nothing else changes. *)
Theorem spawn_one_start_per_line (ext : Env) (ids : gmap string Value) (a : Ns.t)
    (content : string) (st : JobState) :
  Ns.sample a = None ->
  local_file ext (Ns.manifest a) = Some content ->
  spawn_batch_variant_calling ext ids a st
  = (Ok a,
     set_children
       (children st
        ++ ((fun line =>
               mkJob (J_start ids a (Py.split Py.TAB (Py.strip line))) None)
              <$> List.filter keep_line (Py.readlines content)))
       st).
Proof.
  intros Hs Hm. rewrite (spawn_manifest ext ids a content st Hs Hm).
  unfold read_samples. rewrite read_samples_foldl. cbn [app].
  by rewrite <- list_fmap_compose.
Qed.

Lemma spawn_one_start_per_line_witness :
  spawn_batch_variant_calling happy_env ∅ config0 state0
  = (Ok config0,
     set_children
       (children state0
        ++ ((fun line =>
               mkJob (J_start ∅ config0 (Py.split Py.TAB (Py.strip line))) None)
              <$> List.filter keep_line (Py.readlines example_manifest)))
       state0).
Proof.
  refine (spawn_one_start_per_line happy_env ∅ config0 example_manifest state0 _ _);
    reflexivity.
Defined.

(** ** [batch_start] *)

Lemma lookup_offset {A} (l1 l2 : list A) (k n : nat) (x : A) :
  k = length l1 + n -> l2 !! n = Some x -> (l1 ++ l2) !! k = Some x.
Proof. intros -> H. by rewrite lookup_app_r, Nat.add_comm, Nat.add_sub by lia. Qed.

(** X10: [batch_start] never fails.  It schedules the six downloads of the
    reference files as children and [create_reference_index_hc] as the only
    follow-on, and the dictionary it passes on binds exactly the six file
    names, each to the promise of the child that downloads the url the
    configuration gives for that name. *)
Theorem batch_start_promises (a : Ns.t) (sample : option (list string))
    (od : option string) (suffix : string) (st : JobState) :
  let table :=
    [(Ns.ref a, "ref.fa"); (Ns.phase a, "phase.vcf"); (Ns.omni a, "omni.vcf");
     (Ns.dbsnp a, "dbsnp.vcf"); (Ns.hapmap a, "hapmap.vcf");
     (Ns.mills a, "mills.vcf")] in
  let a' := Ns.set_suffix suffix (Ns.set_output_dir od (Ns.set_sample sample a)) in
  exists ids st',
    batch_start a sample od suffix st = (Ok a', st')
    /\ children st' = children st ++ downloads table
    /\ followOns st'
       = followOns st ++ [mkJob (J_create_reference_index_hc ids a') None]
    /\ jobStore st' = jobStore st
    /\ files st' = files st
    /\ dom ids = list_to_set table.*2
    /\ forall url name,
         (url, name) ∈ table ->
         exists k, ids !! name = Some (Promise k)
                   /\ children st' !! k = Some (mkJob (J_download_url url name) None).
Proof.
  intros table a'. destruct st as [wd fl ch fo js tr].
  eexists _, _. split; [reflexivity|].
  cbn [children followOns jobStore files set_children set_followOns set_trace
         work_dir trace].
  rewrite <- !app_assoc.
  split; [done|]. split; [done|]. split; [done|].
  split; [done|]. split.
  - rewrite !dom_insert_L, dom_empty_L. subst table. cbn. set_solver.
  - intros url name Hin. subst table.
    repeat (apply elem_of_cons in Hin as [[= -> ->]|Hin];
            [eexists; split;
             [repeat first [rewrite lookup_insert_eq; reflexivity
                           |rewrite lookup_insert_ne by done]
             |first
                [ by apply list_lookup_middle
                | eapply lookup_offset;
                  [rewrite ?length_app; cbn [length]; reflexivity|reflexivity] ]]
            |]).
    by apply elem_of_nil in Hin.
Qed.

(** ** Failures of the external tool *)

Lemma stderr_app t1 t2 : stderr (t1 ++ t2) = stderr t1 ++ stderr t2.
Proof. unfold stderr. apply omap_app. Qed.

Lemma docker_calls_app t1 t2 :
  docker_calls (t1 ++ t2) = docker_calls t1 ++ docker_calls t2.
Proof. unfold docker_calls. apply omap_app. Qed.

Lemma stderr_hydrate_trace ids fs : forall fl, stderr (hydrate_trace ids fl fs) = [].
Proof.
  induction fs as [|f fs IH]; intros fl; [done|].
  cbn [hydrate_trace]. rewrite stderr_app, IH, app_nil_r.
  unfold fetch_events. case_bool_decide; [done|].
  by destruct (ids !! f) as [[| |]|].
Qed.

Lemma docker_calls_hydrate_trace ids fs :
  forall fl, docker_calls (hydrate_trace ids fl fs) = [].
Proof.
  induction fs as [|f fs IH]; intros fl; [done|].
  cbn [hydrate_trace]. rewrite docker_calls_app, IH, app_nil_r.
  unfold fetch_events. case_bool_decide; [done|].
  by destruct (ids !! f) as [[| |]|].
Qed.

(** A failing call inside [try: ... except: sys.stderr.write(msg); raise]. *)
Lemma reported_docker_failure (ext : Env) (wd0 : string) (env : list (string * string))
    (command : list string) (tool : string) (inputs outputs : list string)
    (msg : string) wd fl ch fo js tr :
  docker_ok ext tool command fl = false ->
  try_except_reraise
    (docker_call ext wd0 env command tool inputs outputs)
    (stderr_write msg) (mkState wd fl ch fo js tr)
  = (Raise (CalledProcessError tool command),
     mkState wd fl ch fo js ((tr ++ [EvDockerCall tool command]) ++ [EvStderr msg])).
Proof.
  intros H. unfold try_except_reraise, docker_call. cbn [files]. by rewrite H.
Qed.

(** X11: when the HaplotypeCaller invocation fails, [haplotype_caller]
    writes one line to stderr that holds the command line and the working
    directory, and then raises the error of the invocation.  The inputs had
    been hydrated; nothing is written to the job store, nothing is placed
    and no successor is scheduled. *)
Theorem haplotype_caller_reports_failure (ext : Env) (ids : gmap string Value)
    (a : Ns.t) (uuid : string) (st : JobState) :
  let command := haplotype_caller_command a (gvcf_name uuid (Ns.suffix a)) in
  let msg := "Running haplotype caller with " +:+ Py.join " " command
             +:+ " in " +:+ work_dir st +:+ " failed." in
  Ns.uuid a = Some uuid ->
  (forall f, f ∈ haplotype_caller_input_files -> available ids st f) ->
  docker_ok ext GATK command (list_to_set haplotype_caller_input_files ∪ files st)
  = false ->
  exists st',
    haplotype_caller ext ids a st = (Raise (CalledProcessError GATK command), st')
    /\ last (trace st') = Some (EvStderr msg)
    /\ stderr (trace st') = stderr (trace st) ++ [msg]
    /\ docker_calls (trace st') = docker_calls (trace st) ++ [(GATK, command)]
    /\ jobStore st' = jobStore st
    /\ children st' = children st
    /\ followOns st' = followOns st
    /\ sinks (trace st') = sinks (trace st).
Proof.
  intros command msg Hu Hav Hd. destruct st as [wd fl ch fo js tr].
  cbn [files work_dir] in *.
  eexists. split.
  - unfold haplotype_caller. erewrite mbind_Ok; [|reflexivity].
    cbv beta zeta. cbn [work_dir].
    erewrite mbind_Ok; [|by apply read_from_filestore_hc_run].
    rewrite Hu. erewrite mbind_Ok; [|reflexivity]. cbv beta zeta.
    erewrite mbind_Raise; [reflexivity|].
    by apply reported_docker_failure.
  - cbn [trace jobStore children followOns].
    split; [by rewrite last_snoc|].
    rewrite !stderr_app, !docker_calls_app, !sinks_app, stderr_hydrate_trace,
      docker_calls_hydrate_trace, (quiet_sinks _ (quiet_hydrate_trace _ _ _)).
    cbn. by rewrite !app_nil_r.
Qed.

Lemma haplotype_caller_reports_failure_witness :
  let ids : gmap string Value :=
    <["toil.bam.bai" := FileStoreID 4]>
      (<["toil.bam" := FileStoreID 3]>
         (<["ref.dict" := FileStoreID 2]>
            (<["ref.fa.fai" := FileStoreID 1]> {["ref.fa" := FileStoreID 0]}))) in
  let st := mkState "/tmp/job" ∅ [] []
              ["ref.fa"; "ref.fa.fai"; "ref.dict"; "toil.bam"; "toil.bam.bai"] [] in
  let a := Ns.set_uuid (Some "S1") config1 in
  let command := haplotype_caller_command a (gvcf_name "S1" ".bqsr") in
  exists st',
    haplotype_caller (failing_env "HaplotypeCaller") ids a st
    = (Raise (CalledProcessError GATK command), st')
    /\ stderr (trace st')
       = ["Running haplotype caller with " +:+ Py.join " " command
          +:+ " in /tmp/job failed."]
    /\ jobStore st' = jobStore st
    /\ sinks (trace st') = [].
Proof.
  intros ids st a command.
  destruct (haplotype_caller_reports_failure (failing_env "HaplotypeCaller") ids a
              "S1" st eq_refl) as (st' & He & _ & Hs & _ & Hj & _ & _ & Hk).
  - intros f Hf. right. unfold haplotype_caller_input_files in Hf.
    repeat (apply elem_of_cons in Hf as [->|Hf];
            [eexists; split; [reflexivity|simpl; lia]|]).
    by apply elem_of_nil in Hf.
  - reflexivity.
  - exists st'. split; [exact He|]. split; [exact Hs|]. split; [exact Hj|exact Hk].
Defined.

(** X12: the same for [genotype_gvcf]: a failing GenotypeGVCFs invocation is
    reported on stderr with its command line and the working directory
    before its error is raised; nothing is stored, placed or scheduled. *)
Theorem genotype_gvcf_reports_failure (ext : Env) (ids : gmap string Value)
    (a : Ns.t) (uuid : string) (st : JobState) :
  let command := genotype_gvcf_command a uuid "unified.raw.BOTH.gatk.vcf" in
  let msg := "Running GenotypeGVCFs with " +:+ Py.join " " command
             +:+ " in " +:+ work_dir st +:+ " failed." in
  Ns.uuid a = Some uuid ->
  (forall f, f ∈ genotype_gvcf_input_files uuid (Ns.suffix a) -> available ids st f) ->
  docker_ok ext GATK command
    (list_to_set (genotype_gvcf_input_files uuid (Ns.suffix a)) ∪ files st)
  = false ->
  exists st',
    genotype_gvcf ext ids a st = (Raise (CalledProcessError GATK command), st')
    /\ last (trace st') = Some (EvStderr msg)
    /\ stderr (trace st') = stderr (trace st) ++ [msg]
    /\ docker_calls (trace st') = docker_calls (trace st) ++ [(GATK, command)]
    /\ jobStore st' = jobStore st
    /\ children st' = children st
    /\ followOns st' = followOns st
    /\ sinks (trace st') = sinks (trace st).
Proof.
  intros command msg Hu Hav Hd. destruct st as [wd fl ch fo js tr].
  cbn [files work_dir] in *.
  eexists. split.
  - unfold genotype_gvcf. erewrite mbind_Ok; [|reflexivity].
    cbv beta zeta. cbn [work_dir].
    rewrite Hu. erewrite mbind_Ok; [|reflexivity]. cbv beta zeta.
    erewrite mbind_Ok; [|by apply read_from_filestore_hc_run].
    erewrite mbind_Raise; [reflexivity|].
    by apply reported_docker_failure.
  - cbn [trace jobStore children followOns].
    split; [by rewrite last_snoc|].
    rewrite !stderr_app, !docker_calls_app, !sinks_app, stderr_hydrate_trace,
      docker_calls_hydrate_trace, (quiet_sinks _ (quiet_hydrate_trace _ _ _)).
    cbn. by rewrite !app_nil_r.
Qed.

Lemma genotype_gvcf_reports_failure_witness :
  let ids : gmap string Value :=
    <["S1.raw.BOTH.bqsr.gvcf" := FileStoreID 3]>
      (<["ref.dict" := FileStoreID 2]>
         (<["ref.fa.fai" := FileStoreID 1]> {["ref.fa" := FileStoreID 0]})) in
  let st := mkState "/tmp/job" ∅ [] []
              ["ref.fa"; "ref.fa.fai"; "ref.dict"; "S1.raw.BOTH.bqsr.gvcf"] [] in
  let a := Ns.set_uuid (Some "S1") config1 in
  let command := genotype_gvcf_command a "S1" "unified.raw.BOTH.gatk.vcf" in
  exists st',
    genotype_gvcf (failing_env "GenotypeGVCFs") ids a st
    = (Raise (CalledProcessError GATK command), st')
    /\ stderr (trace st')
       = ["Running GenotypeGVCFs with " +:+ Py.join " " command
          +:+ " in /tmp/job failed."]
    /\ jobStore st' = jobStore st
    /\ sinks (trace st') = [].
Proof.
  intros ids st a command.
  destruct (genotype_gvcf_reports_failure (failing_env "GenotypeGVCFs") ids a
              "S1" st eq_refl) as (st' & He & _ & Hs & _ & Hj & _ & _ & Hk).
  - intros f Hf. right. unfold genotype_gvcf_input_files in Hf.
    repeat (apply elem_of_cons in Hf as [->|Hf];
            [eexists; split; [reflexivity|simpl; lia]|]).
    by apply elem_of_nil in Hf.
  - reflexivity.
  - exists st'. split; [exact He|]. split; [exact Hs|]. split; [exact Hj|exact Hk].
Defined.

(** ** The names of the outputs *)


(** ** Where and how the outputs are placed *)

Lemma quiet_routed od t : quiet t -> Forall (routed od) t.
Proof.
  intros Hq. eapply Forall_impl; [exact Hq|]. intros e He. by destruct e.
Qed.

(** The three stages that place a file call [upload_or_move_hc] with
    [ssec=None]. *)
Lemma wp_upload_or_move_hc_routed wd0 d out (Q : unit -> JobState -> Prop) E
    wd fl ch fo js tr :
  (out ∈ fl ->
   forall fl' tr', Forall (routed (Some d)) tr' ->
     Q tt (mkState wd fl' ch fo js (tr ++ tr'))) ->
  (out ∉ fl -> forall e tr', Forall (routed (Some d)) tr' ->
     E e (mkState wd fl ch fo js (tr ++ tr'))) ->
  wp (upload_or_move_hc wd0 d out None) Q E (mkState wd fl ch fo js tr).
Proof.
  intros HQ HE. unfold wp, upload_or_move_hc.
  destruct (Py.startswith d "s3://") eqn:Hd.
  - unfold s3am_upload. simpl. case_bool_decide as Hin.
    + apply (HQ Hin fl [_]). by repeat constructor.
    + rewrite <- (app_nil_r tr). by apply HE.
  - unfold make_directory, emit, move_to_output_dir, for_each, shutil_move,
      mbind, M_bind, bind, ret. simpl. case_bool_decide as Hin.
    + rewrite <- app_assoc. apply (HQ Hin _ [_; _]). by repeat constructor.
    + apply (HE Hin _ [_]). by repeat constructor.
Qed.

Ltac route_go :=
  cbv beta zeta iota;
  lazymatch goal with
  | |- wp (upload_or_move_hc _ _ _ None) _ _ _ =>
      apply wp_upload_or_move_hc_routed; [intros ? ? ? ?|intros ? ? ? ?]
  | |- _ => wp_go
  end.

Ltac route_solve :=
  repeat match goal with
         | |- _ => progress cbn [trace children followOns jobStore files work_dir]
         | |- _ /\ _ => split
         | |- Forall _ (_ ++ _) => apply Forall_app_2
         | |- Forall _ (_ :: _) => apply Forall_cons_2
         | |- Forall _ [] => apply Forall_nil_2
         | |- Forall (routed _) _ => by apply quiet_routed
         | H : ?o = Some ?d, H' : Forall (routed (Some ?d)) ?t
           |- Forall (routed ?o) ?t => rewrite H; exact H'
         | |- routed _ (EvSetItem _ _ _) => exact I
         | |- routed _ (EvWriteGlobalFile _ _) => exact I
         | |- carries_output_dir _ _ => intros ? [= <-]; simpl; congruence
         | |- _ => assumption
         end.

Lemma exec_routed (ext : Env) (od : option string) (j : Job) (w : Workflow) :
  carries_output_dir od j -> Forall (routed od) (wf_trace w) ->
  wp (exec ext j)
     (fun _ st' =>
        Forall (routed od) (trace st')
        /\ Forall (carries_output_dir od) (children st')
        /\ Forall (carries_output_dir od) (followOns st'))
     (fun _ st' => Forall (routed od) (trace st'))
     (enter ext w).
Proof.
  intros Hj Hw. destruct j as [f c]. destruct w as [js tr]. unfold enter. simpl in *.
  unfold carries_output_dir in Hj. simpl in Hj.
  destruct f; unfold exec; cbn [job_fn fn].
  - unfold download_url. repeat (route_go; route_solve).
  - specialize (Hj _ eq_refl). unfold batch_start. repeat (route_go; route_solve).
  - specialize (Hj _ eq_refl). unfold create_reference_index_hc.
    repeat (route_go; route_solve).
  - specialize (Hj _ eq_refl). unfold create_reference_dict_hc.
    repeat (route_go; route_solve).
  - specialize (Hj _ eq_refl). unfold spawn_batch_variant_calling.
    repeat (route_go; route_solve).
    apply Forall_fmap, Forall_true. intros s. unfold compose. route_solve.
  - specialize (Hj _ eq_refl). unfold start. repeat (route_go; route_solve).
  - specialize (Hj _ eq_refl). unfold index. repeat (route_go; route_solve).
  - specialize (Hj _ eq_refl). subst od. unfold haplotype_caller.
    repeat (route_go; route_solve).
  - specialize (Hj _ eq_refl). unfold genotype_gvcf. repeat (route_go; route_solve).
  - specialize (Hj _ eq_refl). unfold vqsr_snp. repeat (route_go; route_solve).
  - specialize (Hj _ eq_refl). subst od. unfold apply_vqsr_snp.
    repeat (route_go; route_solve).
  - specialize (Hj _ eq_refl). unfold vqsr_indel. repeat (route_go; route_solve).
  - specialize (Hj _ eq_refl). subst od. unfold apply_vqsr_indel.
    repeat (route_go; route_solve).
Qed.

(** X14: in every run, whatever the configuration, the manifest and the
    outcome of the tools, a file is uploaded only to the configured output
    directory and only when that directory begins with [s3://], and it is
    moved only to the configured output directory and only when that
    directory does not.  No upload ever carries an encryption key: the three
    stages that place a file pass [ssec=None], also when the configuration
    holds a key. *)
Theorem placements_follow_output_dir (ext : Env) (fuel : nat) (inputs : Ns.t)
    (sample : option (list string)) (od : option string) (suffix : string) :
  Forall (routed od) (wf_trace (startToil ext fuel inputs sample od suffix).2).
Proof.
  unfold startToil.
  apply (run_job_inv ext (routed od) (carries_output_dir od)).
  - apply carries_output_dir_resolve.
  - apply exec_routed.
  - by intros o [= <-].
  - constructor.
Qed.

(** * Whole runs *)

Lemma run_job_raise ext fuel j w e st :
  exec ext j (enter ext w) = (Raise e, st) ->
  run_job ext (S fuel) j w = (Raise e, leave st).
Proof. intros He. by rewrite run_job_S, He. Qed.

Lemma run_job_child ext fuel j w rv st c :
  exec ext j (enter ext w) = (Ok rv, st) ->
  children st = [c] -> followOns st = [] ->
  run_job ext (S fuel) j w
  = (pass rv (run_job ext fuel c (leave st)).1, (run_job ext fuel c (leave st)).2).
Proof.
  intros He Hc Hf. rewrite run_job_S, He, Hc, Hf. cbn [run_all fmap list_fmap].
  by destruct (run_job ext fuel c (leave st)) as [[v|e] w1].
Qed.

Lemma run_job_followOn ext fuel j w rv st rvs w1 f :
  exec ext j (enter ext w) = (Ok rv, st) ->
  run_all (run_job ext fuel) (children st) (leave st) = (Ok rvs, w1) ->
  followOns st = [f] ->
  run_job ext (S fuel) j w
  = (pass rv (run_job ext fuel (resolve_job rvs f) w1).1,
     (run_job ext fuel (resolve_job rvs f) w1).2).
Proof.
  intros He Hc Hf. rewrite run_job_S, He, Hc, Hf. cbn [run_all fmap list_fmap].
  by destruct (run_job ext fuel (resolve_job rvs f) w1) as [[v|e] w2].
Qed.

Lemma pass_pass rv r : pass rv (pass rv r) = pass rv r.
Proof. by destruct r. Qed.

Lemma has_files_reference_ids : has_files reference_ids keys_start 8.
Proof.
  intros f Hf. unfold keys_start, keys_refs in Hf.
  repeat (apply elem_of_cons in Hf as [->|Hf];
          [eexists; split; [reflexivity|lia]|]).
  by apply elem_of_nil in Hf.
Qed.

Section Reference.

Variable ext : Env.
Hypothesis Hok : all_ok ext.

(** The preparation of the reference: six downloads, the index and the
    dictionary; the run goes on with [spawn_batch_variant_calling]. *)
Lemma reach_spawn (inputs : Ns.t) (sample : option (list string))
    (od : option string) (suffix : string) (fuel : nat) :
  exists tr,
    sinks tr = []
    /\ startToil ext (S (S (S fuel))) inputs sample od suffix
       = let a := Ns.set_suffix suffix
                    (Ns.set_output_dir od (Ns.set_sample sample inputs)) in
         let r := run_job ext fuel
                    (mkJob (J_spawn_batch_variant_calling reference_ids a) None)
                    (mkWorkflow reference_store tr) in
         (pass PyNone r.1, r.2).
Proof.
  unfold startToil.
  set (a := Ns.set_suffix suffix
              (Ns.set_output_dir od (Ns.set_sample sample inputs))).
  destruct (exec_stage ext (J_batch_start inputs sample od suffix)
              None _ _ _ eq_refl
              (batch_start_ok ext inputs [] [] sample od suffix))
    as (a1 & [wd fl ch fo js tr] & He & Hch & Hfo & Hjs & Hs).
  cbn [children followOns jobStore trace] in Hch, Hfo, Hjs, Hs. subst ch fo js.
  destruct (run_downloads ext Hok (S fuel)
              [(Ns.ref inputs, "ref.fa"); (Ns.phase inputs, "phase.vcf");
               (Ns.omni inputs, "omni.vcf"); (Ns.dbsnp inputs, "dbsnp.vcf");
               (Ns.hapmap inputs, "hapmap.vcf"); (Ns.mills inputs, "mills.vcf")]
              (mkWorkflow [] tr))
    as (tr1 & Hr & Hs1).
  cbn [wf_store wf_trace length ids_from fmap list_fmap snd app] in Hr, Hs1.
  unfold downloads in Hr. cbn [fmap list_fmap fst snd] in Hr.
  erewrite run_job_followOn; [|exact He|exact Hr|reflexivity].
  unfold resolve_job. cbn [resolve_fn fn cores].
  rewrite !fmap_insert, fmap_empty.
  rewrite (resolve_promise _ 0 (FileStoreID 0)) by reflexivity.
  rewrite (resolve_promise _ 1 (FileStoreID 1)) by reflexivity.
  rewrite (resolve_promise _ 2 (FileStoreID 2)) by reflexivity.
  rewrite (resolve_promise _ 3 (FileStoreID 3)) by reflexivity.
  rewrite (resolve_promise _ 4 (FileStoreID 4)) by reflexivity.
  rewrite (resolve_promise _ 5 (FileStoreID 5)) by reflexivity.
  fold a.
  match goal with
  | |- context [run_job ext (S (S fuel)) (mkJob (J_create_reference_index_hc ?i a) None) ?w] =>
      set (ids6 := i); set (w6 := w)
  end.
  assert (H6 : has_files ids6 ["ref.fa"] 6).
  { intros f ->%list_elem_of_singleton. exists 0. split; [reflexivity|lia]. }
  destruct (exec_stage ext (J_create_reference_index_hc ids6 a) None _ _ _ eq_refl
              (create_reference_index_hc_ok ext Hok ids6 a
                 ["ref.fa"; "phase.vcf"; "omni.vcf"; "dbsnp.vcf"; "hapmap.vcf";
                  "mills.vcf"] tr1 H6))
    as (a2 & [wd2 fl2 ch2 fo2 js2 tr2] & He2 & Hch2 & Hfo2 & Hjs2 & Hs2).
  cbn [children followOns jobStore trace] in Hch2, Hfo2, Hjs2, Hs2. subst ch2 fo2 js2.
  erewrite (run_job_child ext (S fuel)); [|exact He2|reflexivity|reflexivity].
  unfold leave. cbn [jobStore trace length app].
  match goal with
  | |- context [run_job ext (S fuel) (mkJob (J_create_reference_dict_hc ?i a) None) ?w] =>
      set (ids7 := i); set (w7 := w)
  end.
  assert (H7 : has_files ids7 ["ref.fa"] 7).
  { intros f ->%list_elem_of_singleton. exists 0. split; [reflexivity|lia]. }
  destruct (exec_stage ext (J_create_reference_dict_hc ids7 a) None _ _ _ eq_refl
              (create_reference_dict_hc_ok ext Hok ids7 a
                 ["ref.fa"; "phase.vcf"; "omni.vcf"; "dbsnp.vcf"; "hapmap.vcf";
                  "mills.vcf"; "ref.fa.fai"] tr2 H7))
    as (a3 & [wd3 fl3 ch3 fo3 js3 tr3] & He3 & Hch3 & Hfo3 & Hjs3 & Hs3).
  cbn [children followOns jobStore trace] in Hch3, Hfo3, Hjs3, Hs3. subst ch3 fo3 js3.
  erewrite (run_job_child ext fuel); [|exact He3|reflexivity|reflexivity].
  unfold leave. cbn [jobStore trace length app fst snd]. rewrite !pass_pass.
  exists tr3. split; [by rewrite Hs3, Hs2, Hs1, Hs|]. reflexivity.
Qed.

End Reference.

Lemma return_input_paths_unbound (wd0 : string) (ids : gmap string Value)
    (f : string) (fs : list string) (st : JobState) :
  f ∉ files st -> ids !! f = None ->
  return_input_paths wd0 ids (f :: fs) st = (Raise (KeyError f), st).
Proof.
  intros Hf Hid. unfold return_input_paths. cbn [for_fold].
  erewrite mbind_Raise; [reflexivity|]. erewrite bind_Raise; [reflexivity|].
  erewrite mbind_Ok; [|reflexivity]. rewrite bool_decide_eq_false_2 by done.
  cbn [negb]. erewrite mbind_Raise; [reflexivity|].
  erewrite mbind_Raise; [reflexivity|]. unfold getitem. by rewrite Hid.
Qed.

Lemma start_without_output_dir (ids : gmap string Value) (a : Ns.t)
    (uuid url : string) (st : JobState) :
  Ns.output_dir a = None ->
  start ids a [uuid; url] st = (Raise AttributeError, st).
Proof.
  intros Hd. unfold start. cbn [unpack2]. erewrite mbind_Ok; [|reflexivity].
  cbv beta iota zeta. erewrite mbind_Raise; [reflexivity|]. cbn. by rewrite Hd.
Qed.

(** The run of [spawn_batch_variant_calling] for one sample hands over to
    [start]. *)
Lemma reach_start (ext : Env) (a : Ns.t) (uuid url : string) (fuel : nat)
      (ids : gmap string Value) (w : Workflow) :
    Ns.sample a = Some [uuid; url] ->
    exists tr,
      sinks tr = sinks (wf_trace w)
      /\ run_job ext (S fuel) (mkJob (J_spawn_batch_variant_calling ids a) None) w
         = let r := run_job ext fuel (mkJob (J_start ids a [uuid; url]) None)
                      (mkWorkflow (wf_store w) tr) in
           (pass PyNone r.1, r.2).
  Proof.
    intros Hs. destruct w as [js tr].
    destruct (exec_stage ext (J_spawn_batch_variant_calling ids a) None _ _ _ eq_refl
                (spawn_batch_variant_calling_ok ext ids a js tr uuid url Hs))
      as (a1 & [wd1 fl1 ch1 fo1 js1 tr1] & He & Hch & Hfo & Hjs & Hs1).
    cbn [children followOns jobStore trace] in Hch, Hfo, Hjs, Hs1. subst ch1 fo1 js1.
    exists tr1. split; [done|].
    erewrite run_job_child; [|exact He|reflexivity|reflexivity]. reflexivity.
  Qed.

(** X15: a run for one sample without an output directory fails in [start]
    with [AttributeError], whatever the sample, as soon as the output
    directory is looked at; by then the reference has been downloaded,
    indexed and given its dictionary, and nothing was placed. *)
Theorem run_without_output_dir (ext : Env) (inputs : Ns.t) (uuid url suffix : string)
    (fuel : nat) :
  all_ok ext ->
  exists w,
    startToil ext (5 + fuel) inputs (Some [uuid; url]) None suffix
    = (Raise AttributeError, w)
    /\ wf_store w = reference_store
    /\ sinks (wf_trace w) = [].
Proof.
  intros Hok. change (5 + fuel) with (S (S (S (S (S fuel))))).
  destruct (reach_spawn ext Hok inputs (Some [uuid; url]) None suffix (S (S fuel)))
    as (tr & Hs & ->). cbv zeta.
  set (a := Ns.set_suffix suffix
              (Ns.set_output_dir None (Ns.set_sample (Some [uuid; url]) inputs))).
  destruct (reach_start ext a uuid url (S fuel) reference_ids
              (mkWorkflow reference_store tr) eq_refl) as (tr1 & Hs1 & ->).
  cbv zeta. cbn [wf_store wf_trace] in *.
  erewrite run_job_raise.
  2:{ unfold exec. cbn [job_fn fn]. erewrite mbind_Raise; [reflexivity|].
      by apply start_without_output_dir. }
  unfold leave, enter. cbn [fst snd pass wf_store wf_trace jobStore trace].
  eexists. split; [reflexivity|]. cbn [wf_store wf_trace].
  split; [done|]. by rewrite Hs1.
Qed.

Lemma run_without_output_dir_witness :
  all_ok happy_env
  /\ exists w,
       startToil happy_env (5 + 0) config0 (Some ["S1"; "u1"]) None ".bqsr"
       = (Raise AttributeError, w)
       /\ wf_store w = reference_store
       /\ sinks (wf_trace w) = [].
Proof.
  assert (H : all_ok happy_env) by (repeat split).
  split; [exact H|].
  exact (run_without_output_dir happy_env config0 "S1" "u1" ".bqsr" 0 H).
Defined.

Lemma haplotype_caller_unbound_bam (ext : Env) (ids : gmap string Value) (a : Ns.t)
    wd js tr :
  (forall g, g ∈ ["ref.fa"; "ref.fa.fai"; "ref.dict"] ->
             available ids (mkState wd ∅ [] [] js tr) g) ->
  ids !! "toil.bam" = None ->
  exists st',
    haplotype_caller ext ids a (mkState wd ∅ [] [] js tr)
    = (Raise (KeyError "toil.bam"), st')
    /\ jobStore st' = js /\ sinks (trace st') = sinks tr.
Proof.
  intros Hav Hid. eexists. split.
  - unfold haplotype_caller. erewrite mbind_Ok; [|reflexivity]. cbv beta zeta.
    erewrite mbind_Raise; [reflexivity|].
    apply (read_from_filestore_hc_stops wd ids ["ref.fa"; "ref.fa.fai"; "ref.dict"]
             "toil.bam" ["toil.bam.bai"] wd ∅ [] [] js tr Hav); [|set_solver|done].
    apply (bool_decide_unpack _). by vm_compute.
  - cbn [jobStore trace]. split; [done|].
    by rewrite sinks_app, (quiet_sinks _ (quiet_hydrate_trace _ _ _)), app_nil_r.
Qed.

Lemma index_unbound_bam (ext : Env) (ids : gmap string Value) (a : Ns.t)
    wd js tr :
  ids !! "toil.bam" = None ->
  index ext ids a (mkState wd ∅ [] [] js tr)
  = (Raise (KeyError "toil.bam"), mkState wd ∅ [] [] js tr).
Proof.
  intros Hid. unfold index. erewrite mbind_Ok; [|reflexivity]. cbv beta zeta.
  erewrite mbind_Raise; [reflexivity|].
  apply return_input_paths_unbound; [set_solver|done].
Qed.

(** X16: with an encryption key in the configuration, a run for one sample
    in which every download and every tool succeeds still fails: the sample
    file was never scheduled for download, so the first stage that needs it
    ([haplotype_caller] when the sample is indexed, [index] otherwise) raises
    [KeyError] for [toil.bam].  Nothing is placed. *)
Theorem run_with_encryption_key (ext : Env) (inputs : Ns.t)
    (uuid url d key suffix : string) (fuel : nat) :
  all_ok ext ->
  Ns.ssec inputs = Some key ->
  exists w,
    startToil ext (6 + fuel) inputs (Some [uuid; url]) (Some d) suffix
    = (Raise (KeyError "toil.bam"), w)
    /\ sinks (wf_trace w) = [].
Proof.
  intros Hok Hk. change (6 + fuel) with (S (S (S (S (S (S fuel)))))).
  destruct (reach_spawn ext Hok inputs (Some [uuid; url]) (Some d) suffix
              (S (S (S fuel)))) as (tr & Hs & ->). cbv zeta.
  set (a := Ns.set_suffix suffix
              (Ns.set_output_dir (Some d) (Ns.set_sample (Some [uuid; url]) inputs))).
  destruct (reach_start ext a uuid url (S (S fuel)) reference_ids
              (mkWorkflow reference_store tr) eq_refl) as (tr1 & Hs1 & ->).
  cbv zeta. cbn [wf_store wf_trace] in *.
  assert (Hka : Ns.ssec a = Some key) by exact Hk.
  pose proof (start_eq reference_ids a uuid url d (temp_dir ext) ∅ [] []
                reference_store tr1 eq_refl) as Hst.
  cbv zeta in Hst. rewrite Hka in Hst.
  set (a' := Ns.set_bam_url (Some url) (Ns.set_uuid (Some uuid) a)) in *.
  destruct (Ns.indexed a) eqn:Hix.
  - destruct (run_downloads ext Hok fuel [(url +:+ ".bai", "toil.bam.bai")]
                (mkWorkflow reference_store
                   (tr1 ++ [EvSetItem "toil.bam.bai"
                              (reference_ids !! "toil.bam.bai") (Promise 0)])))
      as (tr2 & Hr & Hs2).
    cbn [wf_store wf_trace length ids_from fmap list_fmap snd] in Hr, Hs2.
    destruct (haplotype_caller_unbound_bam ext
                (resolve [FileStoreID 8]
                   <$> <["toil.bam.bai" := Promise 0]> reference_ids) a'
                (temp_dir ext) (reference_store ++ ["toil.bam.bai"]) tr2)
      as (st' & He' & Hj' & Hs').
    { intros g Hg. right.
      repeat (apply elem_of_cons in Hg as [->|Hg];
              [eexists; split; [reflexivity|cbn; lia]|]).
      by apply elem_of_nil in Hg. }
    { reflexivity. }
    erewrite run_job_followOn.
    2:{ unfold exec. cbn [job_fn fn]. erewrite mbind_Ok; [|exact Hst]. reflexivity. }
    2:{ exact Hr. }
    2:{ reflexivity. }
    erewrite run_job_raise.
    2:{ unfold exec, resolve_job. cbn [job_fn fn resolve_fn].
        erewrite mbind_Raise; [reflexivity|]. exact He'. }
    cbn [fst snd pass]. eexists. split; [reflexivity|].
    unfold leave. cbn [wf_trace]. rewrite Hs', Hs2, sinks_app, Hs1, Hs. done.
  - erewrite run_job_followOn.
    2:{ unfold exec. cbn [job_fn fn]. erewrite mbind_Ok; [|exact Hst]. reflexivity. }
    2:{ reflexivity. }
    2:{ reflexivity. }
    erewrite run_job_raise.
    2:{ unfold exec, resolve_job. cbn [job_fn fn resolve_fn].
        erewrite mbind_Raise; [reflexivity|]. by apply index_unbound_bam. }
    cbn [fst snd pass]. eexists. split; [reflexivity|].
    unfold leave, enter. cbn [wf_trace wf_store jobStore trace]. by rewrite Hs1.
Qed.

Lemma run_with_encryption_key_witness :
  all_ok happy_env
  /\ Ns.ssec config_ssec = Some "key.txt"
  /\ exists w,
       startToil happy_env (6 + 0) config_ssec (Some ["S1"; "u1"]) (Some "out") ".bqsr"
       = (Raise (KeyError "toil.bam"), w)
       /\ sinks (wf_trace w) = [].
Proof.
  assert (H : all_ok happy_env) by (repeat split).
  split; [exact H|]. split; [reflexivity|].
  exact (run_with_encryption_key happy_env config_ssec "S1" "u1" "out" "key.txt"
           ".bqsr" 0 H eq_refl).
Defined.

(** The three files a run places for a sample. *)
Lemma complete_all_starts (ext : Env) (Hok : all_ok ext) (a : Ns.t) (d : string)
    (fuel : nat) (ids : gmap string Value) (samples : list (string * string)) :
  Ns.output_dir a = Some d ->
  Ns.ssec a = None ->
  forall w,
    has_files ids keys_start (length (wf_store w)) ->
    complete_all ext (S (S (S (S (S (S fuel))))))
      ((fun s => mkJob (J_start ids a s) None)
         <$> ((fun p : string * string => [p.1; p.2]) <$> samples)) w
      (flat_map (fun p : string * string =>
                   [(d, gvcf_name p.1 (Ns.suffix a));
                    (d, snp_vcf_name p.1 (Ns.suffix a));
                    (d, indel_vcf_name p.1 (Ns.suffix a))]) samples).
Proof.
  intros Hd Hs. induction samples as [|[uuid url] samples IH]; intros w Hf.
  - apply complete_all_nil.
  - cbn [fmap list_fmap flat_map fst snd].
    apply complete_all_cons.
    + by apply (completes_start ext Hok).
    + intros w1 _ Hl. apply IH. eapply has_files_mono; [exact Hf|exact Hl].
Qed.





(** ** Placing a file *)


(** * File ids are always those of stored files *)

(** ** Calm computations *)

Lemma calm_ret {A} (a : A) : calm_m (ret a).
Proof.
  intros wd fl ch fo js tr. exists (Ok a), fl, []. rewrite app_nil_r. by repeat split.
Qed.

Lemma calm_raise {A} (e : Exn) : is_good e = true -> calm_m (@raise A e).
Proof.
  intros He wd fl ch fo js tr. exists (Raise e), fl, []. rewrite app_nil_r.
  by repeat split.
Qed.

Lemma calm_bind {A B} (m : M A) (f : A -> M B) :
  calm_m m -> (forall a, calm_m (f a)) -> calm_m (m ≫= f).
Proof.
  intros Hm Hf wd fl ch fo js tr. unfold mbind, M_bind, bind.
  destruct (Hm wd fl ch fo js tr) as ([a|e] & fl1 & tr1 & -> & Hq1 & Hg1).
  - destruct (Hf a wd fl1 ch fo js (tr ++ tr1)) as (r & fl2 & tr2 & -> & Hq2 & Hg2).
    exists r, fl2, (tr1 ++ tr2). rewrite app_assoc.
    split; [done|]. split; [by apply Forall_app_2|done].
  - by exists (Raise e), fl1, tr1.
Qed.

Lemma calm_try_except_reraise {A} (m : M A) (h : M unit) :
  calm_m m -> calm_m h -> calm_m (try_except_reraise m h).
Proof.
  intros Hm Hh wd fl ch fo js tr. unfold try_except_reraise.
  destruct (Hm wd fl ch fo js tr) as ([a|e] & fl1 & tr1 & -> & Hq1 & Hg1).
  - by exists (Ok a), fl1, tr1.
  - destruct (Hh wd fl1 ch fo js (tr ++ tr1)) as (r & fl2 & tr2 & -> & Hq2 & Hg2).
    exists (match r with Ok _ => Raise e | Raise e' => Raise e' end), fl2, (tr1 ++ tr2).
    rewrite app_assoc. split; [by destruct r as [[]|]|].
    split; [by apply Forall_app_2|by destruct r].
Qed.

Lemma calm_for_each {A} (l : list A) (body : A -> M unit) :
  (forall x, calm_m (body x)) -> calm_m (for_each l body).
Proof.
  intros H. induction l as [|x l IH]; simpl; [apply calm_ret|].
  apply (calm_bind (body x)); auto.
Qed.

Lemma calm_emit e : is_calm e = true -> calm_m (emit e).
Proof.
  intros He wd fl ch fo js tr. exists (Ok tt), fl, [e].
  split; [done|]. split; [by constructor|done].
Qed.

Lemma calm_getLocalTempDir : calm_m getLocalTempDir.
Proof.
  intros wd fl ch fo js tr. exists (Ok wd), fl, []. rewrite app_nil_r. by repeat split.
Qed.

Lemma calm_os_path_exists wd0 f : calm_m (os_path_exists wd0 f).
Proof.
  intros wd fl ch fo js tr. exists (Ok (bool_decide (f ∈ fl))), fl, [].
  rewrite app_nil_r. by repeat split.
Qed.

Lemma calm_docker_call ext wd0 env parameters tool inputs outputs :
  calm_m (docker_call ext wd0 env parameters tool inputs outputs).
Proof.
  intros wd fl ch fo js tr. unfold docker_call. simpl.
  destruct (docker_ok _ _ _ _); eexists _, _, [_];
    (split; [done|]; split; [by repeat constructor|done]).
Qed.

Lemma calm_curl ext url wd0 f : calm_m (curl ext url wd0 f).
Proof.
  intros wd fl ch fo js tr. unfold curl. simpl.
  destruct (curl_ok _ _); eexists _, _, [_];
    (split; [done|]; split; [by repeat constructor|done]).
Qed.

Lemma calm_download_from_s3_url ext wd0 f url :
  calm_m (download_from_s3_url ext wd0 f url).
Proof.
  intros wd fl ch fo js tr. unfold download_from_s3_url. simpl.
  destruct (s3_ok _ _); eexists _, _, [_];
    (split; [done|]; split; [by repeat constructor|done]).
Qed.

Lemma calm_unpack2 s : calm_m (unpack2 s).
Proof.
  destruct s as [|? [|? [|? ?]]]; simpl; first [apply calm_ret|by apply calm_raise].
Qed.

Lemma calm_shutil_move wd0 d f : calm_m (shutil_move wd0 d f).
Proof.
  intros wd fl ch fo js tr. unfold shutil_move. simpl. case_bool_decide.
  - eexists _, _, [_]. split; [done|]. split; [by repeat constructor|done].
  - eexists _, fl, []. rewrite app_nil_r. by repeat split.
Qed.

Lemma calm_s3am_upload wd0 f d k : calm_m (s3am_upload wd0 f d k).
Proof.
  intros wd fl ch fo js tr. unfold s3am_upload. simpl. case_bool_decide.
  - eexists _, _, [_]. split; [done|]. split; [by repeat constructor|done].
  - eexists _, fl, []. rewrite app_nil_r. by repeat split.
Qed.

Lemma calm_upload_or_move_hc wd0 d out k : calm_m (upload_or_move_hc wd0 d out k).
Proof.
  unfold upload_or_move_hc. destruct (Py.startswith d "s3://").
  - apply calm_s3am_upload.
  - apply calm_bind; [by apply calm_emit|intros _].
    unfold move_to_output_dir. apply calm_for_each. intros f. apply calm_shutil_move.
Qed.

Lemma calm_read_manifest ext m : calm_m (read_manifest ext m).
Proof.
  unfold read_manifest. destruct (local_file ext m); [apply calm_ret|].
  apply calm_bind; [apply calm_getLocalTempDir|intros _].
  destruct (imported_file ext m); [apply calm_ret|by apply calm_raise].
Qed.

Lemma calm_download ext wd0 f url :
  calm_m (if Py.startswith url "s3:" then download_from_s3_url ext wd0 f url
          else curl ext url wd0 f).
Proof.
  destruct (Py.startswith url "s3:");
    [apply calm_download_from_s3_url|apply calm_curl].
Qed.

Lemma calm_reported_docker_call ext wd0 env parameters tool inputs outputs msg :
  calm_m (try_except_reraise
            (docker_call ext wd0 env parameters tool inputs outputs)
            (stderr_write msg)).
Proof.
  apply calm_try_except_reraise; [apply calm_docker_call|by apply calm_emit].
Qed.

Lemma wp_calm {A} (m : M A) (Q : A -> JobState -> Prop) E wd fl ch fo js tr :
  calm_m m ->
  (forall a fl' tr', Forall (fun e => is_calm e = true) tr' ->
                     Q a (mkState wd fl' ch fo js (tr ++ tr'))) ->
  (forall e fl' tr', is_good e = true -> Forall (fun e => is_calm e = true) tr' ->
                     E e (mkState wd fl' ch fo js (tr ++ tr'))) ->
  wp m Q E (mkState wd fl ch fo js tr).
Proof.
  intros Hq HQ HE. unfold wp.
  destruct (Hq wd fl ch fo js tr) as ([a|e] & fl' & tr' & -> & Htr & Hg); eauto.
Qed.

Lemma good_found e : is_good e = true -> is_found e = true.
Proof. by destruct e. Qed.

(** ** Fetches follow writes *)

Lemma rfw_nil : reads_follow_writes [].
Proof. intros i h f H. by rewrite lookup_nil in H. Qed.

Lemma rfw_app_calm t t' :
  reads_follow_writes t -> Forall (fun e => is_calm e = true) t' ->
  reads_follow_writes (t ++ t').
Proof.
  intros Ht Hc i h f Hi. apply lookup_app_Some in Hi as [Hi|[Hle Hi]].
  - destruct (Ht i h f Hi) as (k & Hk & Hl). exists k. split; [done|].
    by apply lookup_app_l_Some.
  - rewrite Forall_forall in Hc.
    by specialize (Hc _ (list_elem_of_lookup_2 _ _ _ Hi)).
Qed.

Lemma rfw_snoc_read t h f :
  reads_follow_writes t -> EvWriteGlobalFile f h ∈ t ->
  reads_follow_writes (t ++ [EvReadGlobalFile h f]).
Proof.
  intros Ht Hw i h' f' Hi. apply lookup_app_Some in Hi as [Hi|[Hle Hi]].
  - destruct (Ht i h' f' Hi) as (k & Hk & Hl). exists k. split; [done|].
    by apply lookup_app_l_Some.
  - apply list_lookup_singleton_Some in Hi as [Hz [= <- <-]].
    apply list_elem_of_lookup in Hw as [k Hk]. exists k.
    split; [apply lookup_lt_Some in Hk; lia|by apply lookup_app_l_Some].
Qed.

Lemma stored_mono w w' name v : grows w w' -> stored w name v -> stored w' name v.
Proof.
  intros [[t Ht] Hl] (h & -> & Hh & Hin). exists h. split; [done|].
  split; [lia|]. rewrite Ht. apply elem_of_app. by left.
Qed.

Lemma map_stored_mono w w' ids : grows w w' -> map_stored w ids -> map_stored w' ids.
Proof. intros Hg H name v Hl. eapply stored_mono; [exact Hg|by apply H]. Qed.

Lemma map_stored_insert w ids k v :
  stored w k v -> map_stored w ids -> map_stored w (<[k := v]> ids).
Proof.
  intros Hv H name v' Hl. apply lookup_insert_Some in Hl as [[<- <-]|[_ Hl]]; [done|].
  by apply H.
Qed.

Lemma grows_refl w : grows w w.
Proof. by split. Qed.

Lemma grows_trans w1 w2 w3 : grows w1 w2 -> grows w2 w3 -> grows w1 w3.
Proof. intros [H1 H2] [H3 H4]. split; [by etrans|lia]. Qed.

(** The loops that hydrate, under a dictionary of stored files. *)
Lemma wp_read_from_filestore_hc_stored wd0 (ids : gmap string Value)
    (fs : list string) (Q : unit -> JobState -> Prop) E wd fl ch fo js tr :
  map_stored (mkWorkflow js tr) ids ->
  reads_follow_writes tr ->
  (forall fl' tr', reads_follow_writes (tr ++ tr') ->
                   Q tt (mkState wd fl' ch fo js (tr ++ tr'))) ->
  (forall e fl' tr', is_found e = true -> reads_follow_writes (tr ++ tr') ->
                     E e (mkState wd fl' ch fo js (tr ++ tr'))) ->
  wp (read_from_filestore_hc wd0 ids fs) Q E (mkState wd fl ch fo js tr).
Proof.
  unfold read_from_filestore_hc. revert fl tr.
  induction fs as [|f fs IH]; intros fl tr Hm Hr HQ HE.
  - simpl. apply wp_ret. rewrite <- (app_nil_r tr). apply HQ. by rewrite app_nil_r.
  - cbn [for_each]. apply wp_bind'. apply wp_bind, wp_os_path_exists.
    case_bool_decide as Hin; cbn [negb].
    + apply wp_mret. by apply IH.
    + apply wp_bind, wp_getitem.
      * intros v Hv. destruct (Hm f v Hv) as (h & -> & Hh & Hw).
        cbn [wf_store wf_trace] in Hh, Hw.
        apply wp_bind, wp_readGlobalFile_ok; [done|]. apply wp_mret.
        apply IH.
        -- eapply map_stored_mono; [|exact Hm]. split; [by apply prefix_app_r|done].
        -- by apply rfw_snoc_read.
        -- intros fl' tr' Hr'. rewrite <- app_assoc. apply HQ. by rewrite app_assoc.
        -- intros e fl' tr' He Hr'. rewrite <- app_assoc. apply HE; [done|].
           by rewrite app_assoc.
      * intros _. rewrite <- (app_nil_r tr). apply HE; [done|]. by rewrite app_nil_r.
Qed.

Lemma wp_return_input_paths_stored wd0 (ids : gmap string Value)
    (fs : list string) (Q : list string -> JobState -> Prop) E wd fl ch fo js tr :
  map_stored (mkWorkflow js tr) ids ->
  reads_follow_writes tr ->
  (forall p fl' tr', reads_follow_writes (tr ++ tr') ->
                     Q p (mkState wd fl' ch fo js (tr ++ tr'))) ->
  (forall e fl' tr', is_found e = true -> reads_follow_writes (tr ++ tr') ->
                     E e (mkState wd fl' ch fo js (tr ++ tr'))) ->
  wp (return_input_paths wd0 ids fs) Q E (mkState wd fl ch fo js tr).
Proof.
  intros Hm Hr HQ HE. unfold return_input_paths. apply wp_bind.
  assert (Hloop : forall acc fl tr,
             map_stored (mkWorkflow js tr) ids ->
             reads_follow_writes tr ->
             forall (Q' : list (string * string) -> JobState -> Prop),
             (forall p fl' tr', reads_follow_writes (tr ++ tr') ->
                                Q' p (mkState wd fl' ch fo js (tr ++ tr'))) ->
             (forall e fl' tr', is_found e = true -> reads_follow_writes (tr ++ tr') ->
                                E e (mkState wd fl' ch fo js (tr ++ tr'))) ->
             wp (for_fold fs acc (fun filename paths =>
                   present ← os_path_exists wd0 filename;
                   file_path ← (if negb (present : bool) then
                                  v ← getitem ids filename;
                                  readGlobalFile v wd0 filename
                                else ret (Py.os_path_join wd0 filename));
                   ret (odict_set paths filename file_path))) Q' E
                (mkState wd fl ch fo js tr)).
  { clear. induction fs as [|f fs IH]; intros acc fl tr Hm Hr Q' HQ HE.
    - simpl. apply wp_ret. rewrite <- (app_nil_r tr). apply HQ. by rewrite app_nil_r.
    - cbn [for_fold]. apply wp_bind'. apply wp_bind, wp_os_path_exists.
      case_bool_decide as Hin; cbn [negb].
      + apply wp_bind, wp_ret. apply wp_mret. by apply IH.
      + apply wp_bind. apply wp_bind, wp_getitem.
        * intros v Hv. destruct (Hm f v Hv) as (h & -> & Hh & Hw).
          cbn [wf_store wf_trace] in Hh, Hw.
          apply wp_readGlobalFile_ok; [done|]. apply wp_mret.
          apply IH.
          -- eapply map_stored_mono; [|exact Hm]. split; [by apply prefix_app_r|done].
          -- by apply rfw_snoc_read.
          -- intros p fl' tr' Hr'. rewrite <- app_assoc. apply HQ. by rewrite app_assoc.
          -- intros e fl' tr' He Hr'. rewrite <- app_assoc. apply HE; [done|].
             by rewrite app_assoc.
        * intros _. rewrite <- (app_nil_r tr). apply HE; [done|]. by rewrite app_nil_r. }
  apply Hloop; [done|done| |done].
  intros p fl' tr' Hr'. apply wp_mret. by apply HQ.
Qed.

(** ** Every job keeps the dictionary to stored files *)

Ltac calm_tac :=
  repeat first
    [ apply calm_bind; [|intros ?]
    | apply calm_for_each; intros ?
    | apply calm_reported_docker_call
    | apply calm_download
    | apply calm_upload_or_move_hc
    | apply calm_docker_call
    | apply calm_unpack2
    | apply calm_read_manifest
    | apply calm_getLocalTempDir
    | apply calm_os_path_exists
    | apply calm_ret
    | apply calm_raise; reflexivity
    | apply calm_emit; reflexivity
    | match goal with
      | |- calm_m (if ?b then _ else _) => destruct b
      | |- calm_m (mret _) => apply calm_ret
      | |- calm_m (match ?x with _ => _ end) => destruct x
      end ].

Ltac safe_go :=
  cbv beta zeta iota;
  lazymatch goal with
  | |- wp (mbind _ _) _ _ _ => apply wp_bind
  | |- wp (bind _ _) _ _ _ => apply wp_bind'
  | |- wp (ret _) _ _ _ => apply wp_ret
  | |- wp (mret _) _ _ _ => apply wp_mret
  | |- wp getLocalTempDir _ _ _ => apply wp_getLocalTempDir
  | |- wp (os_path_exists _ _) _ _ _ => apply wp_os_path_exists
  | |- wp (setitem _ _ _) _ _ _ => apply wp_setitem
  | |- wp (addChildJobFn _ _) _ _ _ => apply wp_addChildJobFn
  | |- wp (addFollowOnJobFn _ _) _ _ _ => apply wp_addFollowOnJobFn
  | |- wp (writeGlobalFile _ _) _ _ _ =>
      apply wp_writeGlobalFile; [intros ?|intros ?]
  | |- wp (attr _) _ _ _ => apply wp_attr; [intros ? ?|intros ?]
  | |- wp (unpack2 _) _ _ _ => apply wp_unpack2; [intros ? ? ?|intros ?]
  | |- wp (read_from_filestore_hc _ _ _) _ _ _ =>
      apply wp_read_from_filestore_hc_stored; [| |intros ? ? ?|intros ? ? ? ? ?]
  | |- wp (return_input_paths _ _ _) _ _ _ =>
      apply wp_return_input_paths_stored; [| |intros ? ? ? ?|intros ? ? ? ? ?]
  | |- wp (for_each _ (fun sample => _ ← addChildJobFn _ _; ret tt)) _ _ _ =>
      apply wp_spawn_loop
  | |- wp (for_fold (_ :: _) _ _) _ _ _ => apply wp_for_fold_cons
  | |- wp (for_fold [] _ _) _ _ _ => apply wp_for_fold_nil
  | |- wp (for_fold _ _ _) _ _ _ => progress cbn [zip_with]
  | |- wp (write_to_filestore _ _ _) _ _ _ => unfold write_to_filestore
  | |- wp _ _ _ _ =>
      first [ apply wp_calm; [solve [calm_tac]|intros ? ? ? ?|intros ? ? ? ? ?]
            | match goal with
              | |- wp (match ?x with _ => _ end) _ _ _ => destruct x eqn:?
              end ]
  end.

Ltac calm_list := first [assumption | by repeat constructor].

Ltac rfw_solve :=
  first [ assumption
        | apply rfw_app_calm; [rfw_solve|calm_list] ].

Ltac grows_solve :=
  split;
  [ cbn [wf_trace]; repeat apply prefix_app_r; reflexivity
  | cbn [wf_store]; rewrite ?length_app; cbn [length]; lia ].

Ltac mem_solve :=
  cbn [wf_trace];
  repeat first
    [ solve [apply elem_of_app; right; by apply list_elem_of_singleton]
    | apply elem_of_app; left ].

Ltac stored_solve :=
  eexists; split; [reflexivity|];
  split; [cbn [wf_store]; rewrite ?length_app; cbn [length]; lia|mem_solve].

Ltac map_solve Hj :=
  repeat (apply map_stored_insert; [stored_solve|]);
  first [ eapply map_stored_mono; [|exact Hj]; grows_solve
        | by intros ? ? ?%lookup_empty_Some ].

Ltac promised_solve Hj :=
  let ids0 := fresh in let name := fresh "name" in let v := fresh "v" in
  let Hl := fresh "Hl" in
  intros ids0 [= <-] name v Hl;
  repeat (apply lookup_insert_Some in Hl as [[<- <-]|[_ Hl]];
          [right; eexists _, _, _; split; reflexivity|]);
  first [ by apply lookup_empty_Some in Hl
        | left; eapply stored_mono; [|by apply Hj]; grows_solve ].

Ltac safe_solve Hj :=
  repeat match goal with
         | |- _ => progress cbn [trace children followOns jobStore files work_dir fn]
         | |- step_ok _ _ _ _ => unfold step_ok
         | |- _ /\ _ => split
         | |- Forall _ (_ ++ _) => apply Forall_app_2
         | |- Forall _ (_ :: _) => apply Forall_cons_2
         | |- Forall _ [] => apply Forall_nil_2
         | |- reads_follow_writes _ => rfw_solve
         | |- grows _ _ => grows_solve
         | |- map_stored _ _ => map_solve Hj
         | |- ids_stored _ _ =>
             let H := fresh in
             intros ? H; cbn in H;
             first [discriminate H | injection H as <-; map_solve Hj]
         | |- ids_promised _ _ _ => promised_solve Hj
         | |- rv_stored _ _ _ =>
             let H := fresh in
             intros ? ? H; first [discriminate H | injection H as <- <-; stored_solve]
         | |- is_found _ = true => first [reflexivity | assumption | by apply good_found]
         | |- _ => assumption
         end.

Lemma exec_step_ok (ext : Env) (j : Job) (w : Workflow) :
  ids_stored w j -> reads_follow_writes (wf_trace w) ->
  wp (exec ext j)
     (fun rv st' => step_ok w j (Ok rv) st')
     (fun e st' => step_ok w j (Raise e) st')
     (enter ext w).
Proof.
  intros Hj Hw. destruct j as [f c]. destruct w as [js tr]. unfold enter.
  cbn [wf_store wf_trace] in *. unfold ids_stored in Hj. cbn [fn] in Hj.
  destruct f; unfold exec; cbn [job_fn fn]; try specialize (Hj _ eq_refl).
  - unfold download_url. repeat (safe_go; safe_solve Hj).
  - unfold batch_start. repeat (safe_go; safe_solve Hj).
  - unfold create_reference_index_hc. repeat (safe_go; safe_solve Hj).
  - unfold create_reference_dict_hc. repeat (safe_go; safe_solve Hj).
  - unfold spawn_batch_variant_calling. repeat (safe_go; safe_solve Hj).
    apply Forall_fmap, Forall_true. intros s. unfold compose. safe_solve Hj.
  - unfold start. repeat (safe_go; safe_solve Hj).
  - unfold index. repeat (safe_go; safe_solve Hj).
  - unfold haplotype_caller. repeat (safe_go; safe_solve Hj).
  - unfold genotype_gvcf. repeat (safe_go; safe_solve Hj).
  - unfold vqsr_snp. repeat (safe_go; safe_solve Hj).
  - unfold apply_vqsr_snp. repeat (safe_go; safe_solve Hj).
  - unfold vqsr_indel. repeat (safe_go; safe_solve Hj).
  - unfold apply_vqsr_indel. repeat (safe_go; safe_solve Hj).
Qed.

Lemma shared_ids_of_resolve rvs f :
  shared_ids_of (resolve_fn rvs f)
  = (fun ids : gmap string Value => resolve rvs <$> ids) <$> shared_ids_of f.
Proof. by destruct f. Qed.

Lemma ids_stored_mono w w' j : grows w w' -> ids_stored w j -> ids_stored w' j.
Proof. intros Hg H ids Hs. eapply map_stored_mono; [exact Hg|by apply H]. Qed.

Lemma rv_stored_mono w w' j rv : grows w w' -> rv_stored w j rv -> rv_stored w' j rv.
Proof. intros Hg H url name Hf. eapply stored_mono; [exact Hg|by eapply H]. Qed.

(** A follow-on whose promises are those of downloads holds stored files
    once the promises are resolved. *)
Lemma resolve_stored w w1 ch rvs f :
  ids_promised w ch f -> Forall2 (rv_stored w1) ch rvs -> grows w w1 ->
  ids_stored w1 (resolve_job rvs f).
Proof.
  intros Hp H2 Hg ids Hs. unfold resolve_job in Hs. cbn [fn] in Hs.
  rewrite shared_ids_of_resolve in Hs.
  destruct (shared_ids_of (fn f)) as [ids0|] eqn:E; [|discriminate].
  injection Hs as <-. intros name v Hl. rewrite lookup_fmap in Hl.
  destruct (ids0 !! name) as [v0|] eqn:E0; [|discriminate]. injection Hl as <-.
  destruct (Hp ids0 E name v0 E0) as [Hst|(c & url & cc & -> & Hc)].
  - pose proof (stored_mono _ _ _ _ Hg Hst) as H. by destruct Hst as (h & -> & _).
  - destruct (Forall2_lookup_l _ _ _ _ _ H2 Hc) as (rv & Hrv & Hok).
    cbn [resolve]. rewrite Hrv. by apply (Hok url name).
Qed.

Lemma run_all_ok (run : Job -> Workflow -> Res Value * Workflow) :
  (forall j w, ids_stored w j -> reads_follow_writes (wf_trace w) ->
               outcome_ok w j (run j w)) ->
  forall js w,
    Forall (ids_stored w) js -> reads_follow_writes (wf_trace w) ->
    reads_follow_writes (wf_trace (run_all run js w).2)
    /\ grows w (run_all run js w).2
    /\ match (run_all run js w).1 with
       | Ok rvs => Forall2 (rv_stored (run_all run js w).2) js rvs
       | Raise e => is_found e = true
       end.
Proof.
  intros Hrun js. induction js as [|j js IH]; intros w Hjs Hw.
  - cbn. split; [done|]. split; [apply grows_refl|constructor].
  - apply Forall_cons in Hjs as [Hj Hjs]. cbn [run_all].
    destruct (Hrun j w Hj Hw) as (Hr1 & Hg1 & H1).
    destruct (run j w) as [[v|e] w1]; cbn [fst snd] in *; [|done].
    destruct (IH w1) as (Hr2 & Hg2 & H2); [|done|].
    { eapply Forall_impl; [exact Hjs|]. intros x. by apply ids_stored_mono. }
    destruct (run_all run js w1) as [[vs|e] w2]; cbn [fst snd] in *.
    + split; [done|]. split; [by eapply grows_trans|].
      constructor; [by eapply rv_stored_mono|done].
    + split; [done|]. split; [by eapply grows_trans|done].
Qed.

Lemma run_ok (ext : Env) (fuel : nat) :
  forall j w, ids_stored w j -> reads_follow_writes (wf_trace w) ->
              outcome_ok w j (run_job ext fuel j w).
Proof.
  induction fuel as [|fuel IH]; intros j w Hj Hw.
  - cbn. split; [done|]. split; [apply grows_refl|done].
  - rewrite run_job_S. pose proof (exec_step_ok ext j w Hj Hw) as He.
    unfold wp in He. destruct (exec ext j (enter ext w)) as [[rv|e] st].
    + destruct He as (Hr & Hg & Hc & Hf & Hrv).
      destruct (run_all_ok (run_job ext fuel) IH (children st) (leave st) Hc Hr)
        as (Hr1 & Hg1 & H1).
      destruct (run_all (run_job ext fuel) (children st) (leave st)) as [[rvs|e] w1];
        cbn [fst snd] in *.
      * destruct (run_all_ok (run_job ext fuel) IH (resolve_job rvs <$> followOns st) w1)
          as (Hr2 & Hg2 & H2); [|done|].
        { apply Forall_fmap. eapply Forall_impl; [exact Hf|]. intros f Hpf.
          unfold compose. by eapply resolve_stored. }
        destruct (run_all (run_job ext fuel) (resolve_job rvs <$> followOns st) w1)
          as [[vs|e] w2]; cbn [fst snd] in *.
        -- split; [done|]. split; [by do 2 (eapply grows_trans; [|done])|].
           eapply rv_stored_mono; [|exact Hrv]. by eapply grows_trans.
        -- split; [done|]. split; [by do 2 (eapply grows_trans; [|done])|done].
      * split; [done|]. split; [by eapply grows_trans|done].
    + destruct He as (Hr & Hg & He). by split.
Qed.



(** * The dictionary holds what the stages look up *)

Section EngineResult.

Variable ext : Env.
Variable JobOk : Job -> Prop.
Variable Good : Exn -> Prop.

Hypothesis JobOk_resolve : forall rvs j, JobOk j -> JobOk (resolve_job rvs j).
Hypothesis Good_OutOfFuel : Good OutOfFuel.

Hypothesis exec_res : forall j w,
  JobOk j ->
  wp (exec ext j)
     (fun _ st' => Forall JobOk (children st') /\ Forall JobOk (followOns st'))
     (fun e _ => Good e)
     (enter ext w).

Lemma run_all_res (run : Job -> Workflow -> Res Value * Workflow) :
  (forall j w, JobOk j ->
               match (run j w).1 with Raise e => Good e | Ok _ => True end) ->
  forall js w, Forall JobOk js ->
               match (run_all run js w).1 with Raise e => Good e | Ok _ => True end.
Proof.
  intros Hrun js. induction js as [|j js IH]; intros w Hjs; [done|].
  apply Forall_cons in Hjs as [Hj Hjs]. cbn [run_all].
  pose proof (Hrun j w Hj) as H1.
  destruct (run j w) as [[v|e] w1]; [|done].
  pose proof (IH w1 Hjs) as H2.
  by destruct (run_all run js w1) as [[vs|e] w2].
Qed.

Lemma run_job_res (fuel : nat) :
  forall j w, JobOk j ->
              match (run_job ext fuel j w).1 with Raise e => Good e | Ok _ => True end.
Proof.
  induction fuel as [|fuel IH]; intros j w Hj; [done|].
  rewrite run_job_S. pose proof (exec_res j w Hj) as He. unfold wp in He.
  destruct (exec ext j (enter ext w)) as [[rv|e] st]; [|done].
  destruct He as (Hc & Hf).
  pose proof (run_all_res (run_job ext fuel) IH (children st) (leave st) Hc) as H1.
  destruct (run_all (run_job ext fuel) (children st) (leave st)) as [[rvs|e] w1];
    [|done].
  assert (Hf' : Forall JobOk (resolve_job rvs <$> followOns st)).
  { apply Forall_fmap. eapply Forall_impl; [exact Hf|]. intros. by apply JobOk_resolve. }
  pose proof (run_all_res (run_job ext fuel) IH _ w1 Hf') as H2.
  by destruct (run_all (run_job ext fuel) (resolve_job rvs <$> followOns st) w1)
    as [[vs|e] w2].
Qed.

End EngineResult.

Lemma received_resolve rvs f : received (resolve_fn rvs f) = received f.
Proof. by destruct f. Qed.

Lemma needs_bam_resolve rvs f : needs_bam (resolve_fn rvs f) = needs_bam f.
Proof. by destruct f. Qed.

Lemma needs_gvcf_resolve rvs f : needs_gvcf (resolve_fn rvs f) = needs_gvcf f.
Proof. by destruct f. Qed.

Lemma bound_keys_resolve rvs f : bound_keys (resolve_fn rvs f) = bound_keys f.
Proof. by destruct f. Qed.

Lemma handoff_ok_resolve key rvs j : handoff_ok key j -> handoff_ok key (resolve_job rvs j).
Proof.
  intros [Hs Hj]. unfold handoff_ok, resolve_job. cbn [fn].
  rewrite received_resolve, needs_bam_resolve, needs_gvcf_resolve, bound_keys_resolve,
    shared_ids_of_resolve.
  split; [done|]. intros ids Hids.
  destruct (shared_ids_of (fn j)) as [ids0|]; [|discriminate]. injection Hids as <-.
  destruct (Hj ids0 eq_refl) as (Hb & Hbam & Hg).
  split; [|split].
  - intros f Hf. rewrite lookup_fmap, fmap_is_Some. by apply Hb.
  - intros H1 H2. rewrite lookup_fmap, fmap_is_Some. by apply Hbam.
  - intros a uuid H1 H2. rewrite lookup_fmap, fmap_is_Some. by eapply Hg.
Qed.

Lemma good_key_ok key e : is_good e = true -> key_error_ok key e.
Proof. intros H k ->. discriminate H. Qed.

Lemma binds_unbound ids names f : binds ids names -> f ∈ names -> ids !! f = None -> False.
Proof. intros Hb Hf Hn. destruct (Hb f Hf) as [v Hv]. congruence. Qed.

(** The loops that hydrate: a [KeyError] is for one of the names. *)
Lemma wp_readGlobalFile_any v wd0 f (Q : string -> JobState -> Prop)
    (E : Exn -> JobState -> Prop) wd fl ch fo js tr :
  (forall p fl' tr', Q p (mkState wd fl' ch fo js tr')) ->
  (forall st, E (NoSuchFileError v) st) ->
  wp (readGlobalFile v wd0 f) Q E (mkState wd fl ch fo js tr).
Proof.
  intros HQ HE. unfold wp, readGlobalFile. cbn [jobStore].
  destruct v as [h| |]; [case_bool_decide|..]; first [apply HQ|apply HE].
Qed.

Lemma wp_read_from_filestore_hc_keys wd0 (ids : gmap string Value) (fs : list string)
    (Q : unit -> JobState -> Prop) (E : Exn -> JobState -> Prop) wd fl ch fo js tr :
  (forall f, f ∈ fs -> ids !! f = None -> forall st, E (KeyError f) st) ->
  (forall v st, E (NoSuchFileError v) st) ->
  (forall fl' tr', Q tt (mkState wd fl' ch fo js tr')) ->
  wp (read_from_filestore_hc wd0 ids fs) Q E (mkState wd fl ch fo js tr).
Proof.
  unfold read_from_filestore_hc. revert fl tr.
  induction fs as [|f fs IH]; intros fl tr HK HE HQ.
  - apply wp_ret. apply HQ.
  - assert (HK' : forall g, g ∈ fs -> ids !! g = None -> forall st, E (KeyError g) st).
    { intros g Hg. apply HK. by right. }
    cbn [for_each]. apply wp_bind'. apply wp_bind, wp_os_path_exists.
    case_bool_decide as Hin; cbn [negb].
    + apply wp_mret. by apply IH.
    + apply wp_bind, wp_getitem.
      * intros v Hv. apply wp_bind, wp_readGlobalFile_any.
        -- intros p fl' tr'. apply wp_mret. by apply IH.
        -- intros st. apply HE.
      * intros Hn. apply HK; [by left|done].
Qed.

Lemma wp_return_input_paths_keys wd0 (ids : gmap string Value) (fs : list string)
    (Q : list string -> JobState -> Prop) (E : Exn -> JobState -> Prop)
    wd fl ch fo js tr :
  (forall f, f ∈ fs -> ids !! f = None -> forall st, E (KeyError f) st) ->
  (forall v st, E (NoSuchFileError v) st) ->
  (forall p fl' tr', Q p (mkState wd fl' ch fo js tr')) ->
  wp (return_input_paths wd0 ids fs) Q E (mkState wd fl ch fo js tr).
Proof.
  intros HK HE HQ. unfold return_input_paths. apply wp_bind.
  assert (Hloop : forall acc fl tr (Q' : list (string * string) -> JobState -> Prop),
             (forall p fl' tr', Q' p (mkState wd fl' ch fo js tr')) ->
             wp (for_fold fs acc (fun filename paths =>
                   present ← os_path_exists wd0 filename;
                   file_path ← (if negb (present : bool) then
                                  v ← getitem ids filename;
                                  readGlobalFile v wd0 filename
                                else ret (Py.os_path_join wd0 filename));
                   ret (odict_set paths filename file_path))) Q' E
                (mkState wd fl ch fo js tr)).
  { clear HQ. induction fs as [|f fs IH]; intros acc fl0 tr0 Q' HQ.
    - apply wp_ret. apply HQ.
    - assert (HK' : forall g, g ∈ fs -> ids !! g = None ->
                               forall st, E (KeyError g) st).
      { intros g Hg. apply HK. by right. }
      cbn [for_fold]. apply wp_bind'. apply wp_bind, wp_os_path_exists.
      case_bool_decide as Hin; cbn [negb].
      + apply wp_bind, wp_ret. apply wp_mret. by apply IH.
      + apply wp_bind. apply wp_bind, wp_getitem.
        * intros v Hv. apply wp_readGlobalFile_any.
          -- intros p fl' tr'. apply wp_mret. by apply IH.
          -- intros st. apply HE.
        * intros Hn. apply HK; [by left|done]. }
  apply Hloop. intros p fl' tr'. apply wp_mret. apply HQ.
Qed.

Ltac key_go :=
  cbv beta zeta iota;
  lazymatch goal with
  | |- wp (mbind _ _) _ _ _ => apply wp_bind
  | |- wp (bind _ _) _ _ _ => apply wp_bind'
  | |- wp (ret _) _ _ _ => apply wp_ret
  | |- wp (mret _) _ _ _ => apply wp_mret
  | |- wp getLocalTempDir _ _ _ => apply wp_getLocalTempDir
  | |- wp (os_path_exists _ _) _ _ _ => apply wp_os_path_exists
  | |- wp (setitem _ _ _) _ _ _ => apply wp_setitem
  | |- wp (addChildJobFn _ _) _ _ _ => apply wp_addChildJobFn
  | |- wp (addFollowOnJobFn _ _) _ _ _ => apply wp_addFollowOnJobFn
  | |- wp (writeGlobalFile _ _) _ _ _ =>
      apply wp_writeGlobalFile; [intros ?|intros ?]
  | |- wp (attr _) _ _ _ => apply wp_attr; [intros ? ?|intros ?]
  | |- wp (unpack2 _) _ _ _ => apply wp_unpack2; [intros ? ? ?|intros ?]
  | |- wp (read_from_filestore_hc _ _ _) _ _ _ =>
      apply wp_read_from_filestore_hc_keys;
      [intros ? ? ? ?|intros ? ?|intros ? ?]
  | |- wp (return_input_paths _ _ _) _ _ _ =>
      apply wp_return_input_paths_keys;
      [intros ? ? ? ?|intros ? ?|intros ? ? ?]
  | |- wp (for_each _ (fun sample => _ ← addChildJobFn _ _; ret tt)) _ _ _ =>
      apply wp_spawn_loop
  | |- wp (for_fold (_ :: _) _ _) _ _ _ => apply wp_for_fold_cons
  | |- wp (for_fold [] _ _) _ _ _ => apply wp_for_fold_nil
  | |- wp (for_fold _ _ _) _ _ _ => progress cbn [zip_with]
  | |- wp (write_to_filestore _ _ _) _ _ _ => unfold write_to_filestore
  | |- wp _ _ _ _ =>
      first [ apply wp_calm; [solve [calm_tac]|intros ? ? ? ?|intros ? ? ? ? ?]
            | match goal with
              | |- wp (match ?x with _ => _ end) _ _ _ => destruct x eqn:?
              end ]
  end.

(** A name of a concrete list is bound. *)
Ltac in_keys := apply (bool_decide_unpack _); vm_compute; exact I.

Ltac is_bound Hb :=
  rewrite ?lookup_insert_is_Some';
  repeat first [by left|right];
  first [ apply Hb; in_keys | assumption ].

Ltac key_error_solve Hb Hbam Hg :=
  lazymatch goal with
  | Hf : ?f ∈ _, Hn : _ !! ?f = None |- key_error_ok _ (KeyError ?f) =>
      let k := fresh in
      intros k [= <-];
      unfold haplotype_caller_input_files, genotype_gvcf_input_files,
        vqsr_snp_input_files, apply_vqsr_snp_input_files, vqsr_indel_input_files,
        apply_vqsr_indel_input_files in Hf;
      repeat (apply elem_of_cons in Hf as [->|Hf];
              [first
                 [ exfalso; eapply binds_unbound; [exact Hb| |exact Hn]; in_keys
                 | split; [reflexivity|];
                   let Hk := fresh in
                   intros Hk; destruct (Hbam eq_refl Hk) as [? ?]; congruence
                 | exfalso;
                   match goal with
                   | Hu : Ns.uuid _ = Some _ |- _ =>
                       destruct (Hg _ _ eq_refl Hu) as [? ?]; congruence
                   end ]
              |]);
      by apply elem_of_nil in Hf
  | H : is_good ?e = true |- key_error_ok _ ?e => by apply good_key_ok
  | |- key_error_ok _ _ => let k := fresh in intros k [=]
  end.

Ltac handoff_solve Hs Hb Hbam Hg :=
  split;
  [ let H := fresh in
    intros ? H; cbn in H; first [discriminate H | injection H as <-; exact Hs]
  | let H := fresh in
    intros ? H; cbn in H;
    first
      [ discriminate H
      | injection H as <-; cbn [fn bound_keys needs_bam needs_gvcf];
        split; [|split];
        [ let f := fresh "f" in let Hf := fresh "Hf" in
          intros f Hf; unfold keys_start, keys_refs in Hf;
          repeat (apply elem_of_cons in Hf as [->|Hf]; [is_bound Hb|]);
          by apply elem_of_nil in Hf
        | first [ by intros [=]
                | intros _ ?;
                  first [is_bound Hb
                        | rewrite ?lookup_insert_is_Some';
                          repeat first [by left|right]; by apply Hbam
                        | exfalso; simpl in *; congruence] ]
        | first [ by intros ? ? [=]
                | let Hu := fresh in
                  intros ? ? [= <-] Hu;
                  rewrite ?lookup_insert_is_Some'; left; congruence ] ] ] ].

Ltac key_solve Hs Hb Hbam Hg :=
  repeat match goal with
         | |- _ => progress cbn [trace children followOns jobStore files work_dir fn]
         | |- _ /\ _ => split
         | |- Forall _ (_ ++ _) => apply Forall_app_2
         | |- Forall _ (_ :: _) => apply Forall_cons_2
         | |- Forall _ [] => apply Forall_nil_2
         | |- key_error_ok _ _ => key_error_solve Hb Hbam Hg
         | |- handoff_ok _ _ => handoff_solve Hs Hb Hbam Hg
         end.

Lemma exec_handoff (ext : Env) (key : option string) (j : Job) (w : Workflow) :
  handoff_ok key j ->
  wp (exec ext j)
     (fun _ st' =>
        Forall (handoff_ok key) (children st')
        /\ Forall (handoff_ok key) (followOns st'))
     (fun e _ => key_error_ok key e)
     (enter ext w).
Proof.
  intros [Hs Hj]. destruct j as [f c]. destruct w as [js tr]. unfold enter.
  cbn [wf_store wf_trace fn] in *.
  destruct f; unfold exec; cbn [job_fn fn];
    cbn [received shared_ids_of bound_keys needs_bam needs_gvcf] in Hs, Hj;
    try specialize (Hs _ eq_refl);
    try (destruct (Hj _ eq_refl) as (Hb & Hbam & Hg); clear Hj).
  - unfold download_url. repeat (key_go; key_solve Hs Hj Hj Hj).
  - unfold batch_start. repeat (key_go; key_solve Hs Hj Hj Hj).
  - unfold create_reference_index_hc. repeat (key_go; key_solve Hs Hb Hbam Hg).
  - unfold create_reference_dict_hc. repeat (key_go; key_solve Hs Hb Hbam Hg).
  - unfold spawn_batch_variant_calling. repeat (key_go; key_solve Hs Hb Hbam Hg).
    apply Forall_fmap, Forall_true. intros s. unfold compose.
    key_solve Hs Hb Hbam Hg.
  - unfold start. repeat (key_go; key_solve Hs Hb Hbam Hg).
  - unfold index. repeat (key_go; key_solve Hs Hb Hbam Hg).
  - unfold haplotype_caller. repeat (key_go; key_solve Hs Hb Hbam Hg).
  - unfold genotype_gvcf. repeat (key_go; key_solve Hs Hb Hbam Hg).
  - unfold vqsr_snp. repeat (key_go; key_solve Hs Hb Hbam Hg).
  - unfold apply_vqsr_snp. repeat (key_go; key_solve Hs Hb Hbam Hg).
  - unfold vqsr_indel. repeat (key_go; key_solve Hs Hb Hbam Hg).
  - unfold apply_vqsr_indel. repeat (key_go; key_solve Hs Hb Hbam Hg).
Qed.

(** X22: in every run, whatever the manifest and the outcome of the tools,
    the dictionary a stage receives binds every name the stage looks up,
    with one exception: when the configuration holds an encryption key the
    sample file is missing.  So the only [KeyError] a run can end with is
    the one for [toil.bam], and only with a key configured. *)
Theorem only_key_error_is_sample_file (ext : Env) (fuel : nat) (inputs : Ns.t)
    (sample : option (list string)) (od : option string) (suffix : string)
    (k : string) :
  (startToil ext fuel inputs sample od suffix).1 = Raise (KeyError k) ->
  k = "toil.bam" /\ Ns.ssec inputs <> None.
Proof.
  intros H. unfold startToil in H.
  pose proof (run_job_res ext (handoff_ok (Ns.ssec inputs))
                (key_error_ok (Ns.ssec inputs))
                (handoff_ok_resolve (Ns.ssec inputs))
                ltac:(by intros ? [=])
                (exec_handoff ext (Ns.ssec inputs)) fuel
                (mkJob (J_batch_start inputs sample od suffix) None)
                (mkWorkflow [] [])) as Hr.
  rewrite H in Hr. apply Hr; [|reflexivity].
  split; [by intros a [= <-]|by intros ids [=]].
Qed.

Lemma only_key_error_is_sample_file_witness :
  (startToil happy_env 6 config_ssec (Some ["S1"; "u1"]) (Some "out") ".bqsr").1
  = Raise (KeyError "toil.bam")
  /\ "toil.bam" = "toil.bam"
  /\ Ns.ssec config_ssec <> None.
Proof.
  split; [by vm_compute|].
  apply (only_key_error_is_sample_file happy_env 6 config_ssec (Some ["S1"; "u1"])
           (Some "out") ".bqsr" "toil.bam").
  by vm_compute.
Defined.

(** * Attributes the stages read are set *)

Lemma needs_uuid_resolve rvs f : needs_uuid (resolve_fn rvs f) = needs_uuid f.
Proof. by destruct f. Qed.

Lemma attrs_ok_resolve od rvs j : attrs_ok od j -> attrs_ok od (resolve_job rvs j).
Proof.
  intros [Hc Hu]. split; [by apply carries_output_dir_resolve|].
  unfold resolve_job. cbn [fn]. rewrite needs_uuid_resolve, received_resolve. exact Hu.
Qed.

Lemma good_attr_ok od e : is_good e = true -> attr_error_ok od e.
Proof. intros H ->. discriminate H. Qed.

Ltac attr_error_solve Hc Hu :=
  lazymatch goal with
  | H : is_good ?e = true |- attr_error_ok _ ?e => by apply good_attr_ok
  | |- attr_error_ok _ AttributeError =>
      intros _;
      first [ simpl in *; congruence
            | exfalso; destruct Hu as [? ?]; simpl in *; congruence ]
  | |- attr_error_ok _ _ => by intros [=]
  end.

Ltac attrs_solve Hc Hu :=
  split;
  [ intros ? [= <-]; simpl; congruence
  | let H := fresh in
    intros ? H; cbn in H;
    first [ discriminate H
          | intros [= <-]; first [ by eexists | exact Hu ] ] ].

Ltac attr_solve Hc Hu :=
  repeat match goal with
         | |- _ => progress cbn [trace children followOns jobStore files work_dir fn]
         | |- _ /\ _ => split
         | |- Forall _ (_ ++ _) => apply Forall_app_2
         | |- Forall _ (_ :: _) => apply Forall_cons_2
         | |- Forall _ [] => apply Forall_nil_2
         | |- attr_error_ok _ _ => attr_error_solve Hc Hu
         | |- attrs_ok _ _ => attrs_solve Hc Hu
         end.

Lemma exec_attrs (ext : Env) (od : option string) (j : Job) (w : Workflow) :
  attrs_ok od j ->
  wp (exec ext j)
     (fun _ st' =>
        Forall (attrs_ok od) (children st')
        /\ Forall (attrs_ok od) (followOns st'))
     (fun e _ => attr_error_ok od e)
     (enter ext w).
Proof.
  intros [Hc Hu]. destruct j as [f c]. destruct w as [js tr]. unfold enter.
  unfold carries_output_dir in Hc.
  cbn [wf_store wf_trace fn] in *.
  destruct f; unfold exec; cbn [job_fn fn];
    cbn [received output_dir_of needs_uuid] in Hc, Hu;
    try specialize (Hc _ eq_refl);
    try specialize (Hu _ eq_refl eq_refl).
  - unfold download_url. repeat (key_go; attr_solve Hc Hu).
  - unfold batch_start. repeat (key_go; attr_solve Hc Hu).
  - unfold create_reference_index_hc. repeat (key_go; attr_solve Hc Hu).
  - unfold create_reference_dict_hc. repeat (key_go; attr_solve Hc Hu).
  - unfold spawn_batch_variant_calling. repeat (key_go; attr_solve Hc Hu).
    apply Forall_fmap, Forall_true. intros s. unfold compose.
    attr_solve Hc Hu.
  - unfold start. repeat (key_go; attr_solve Hc Hu).
  - unfold index. repeat (key_go; attr_solve Hc Hu).
  - unfold haplotype_caller. repeat (key_go; attr_solve Hc Hu).
  - unfold genotype_gvcf. repeat (key_go; attr_solve Hc Hu).
  - unfold vqsr_snp. repeat (key_go; attr_solve Hc Hu).
  - unfold apply_vqsr_snp. repeat (key_go; attr_solve Hc Hu).
  - unfold vqsr_indel. repeat (key_go; attr_solve Hc Hu).
  - unfold apply_vqsr_indel. repeat (key_go; attr_solve Hc Hu).
Qed.


